(** * Trackball motion pipeline of the uConsole keyboard firmware

    A shallow embedding of [clockworkpi/uconsole/trackball.c]: the
    acceleration curve, the pulse handlers and the report routine, with the
    rate meter and the glider (declared in [rate_meter.h] and [glider.h])
    taken as interfaces. *)

From Stdlib Require Import ZArith QArith List Bool Lia.
From Stdlib Require Import Floats.SpecFloat.
From Stdlib Require Import Reals Lra.
Import ListNotations.

Local Open Scope Z_scope.

(** ** Fixed-width integers

    [int8_t], [uint8_t] and [uint16_t] values are integers of [Z]; a
    conversion to one of these types reduces modulo the width. *)
Module CInt.

Definition int8 (z : Z) : Z := (z + 128) mod 256 - 128.
Definition uint8 (z : Z) : Z := z mod 256.
Definition uint16 (z : Z) : Z := z mod 65536.

Definition in_int8 (z : Z) : Prop := -128 <= z <= 127.

End CInt.
Import CInt.

(** ** Single-precision arithmetic

    The source computes in [float].  The operations it uses are collected
    in a class so that the curve is written once and read in IEEE 754
    binary32 (the firmware's arithmetic) and in exact real arithmetic. *)
Class FloatArith (F : Type) := {
  flit : Q -> F;               (* a decimal literal such as [0.05f] *)
  fadd : F -> F -> F;
  fsub : F -> F -> F;
  fmul : F -> F -> F;
  fdiv : F -> F -> F;
  fabsf : F -> F;
  sqrtf : F -> F;
  powf : F -> F -> F;
  fltb : F -> F -> bool;       (* [a < b] *)
  feqb : F -> F -> bool        (* [a == b] *)
}.

Declare Scope float_scope.
Delimit Scope float_scope with flt.
Infix "+" := fadd : float_scope.
Infix "-" := fsub : float_scope.
Infix "*" := fmul : float_scope.
Infix "/" := fdiv : float_scope.
Infix "<?" := fltb : float_scope.
Infix "=?" := feqb : float_scope.

Section Curve.
Context {F : Type} {FA : FloatArith F}.
Local Open Scope float_scope.

(** [rateToVelocityCurve]: dead zone below 0.05, then
    [0.1 + x/20 + x^1.5/40] with [x = |input| - 0.05]. *)
Definition rateToVelocityCurve (input : F) : F :=
  let abs_input := fabsf input in
  if abs_input <? flit 0.05 then flit 0 else
  let x := abs_input - flit 0.05 in
  let accel := powf x (flit 1.5) / flit 40 in
  let linear := x / flit 20 in
  flit 0.1 + linear + accel.

(** A division whose divisor is zero has no defined result in C; the one
    division of the source with a variable divisor goes through this
    checked form. *)
Definition checked_div (a b : F) : option F :=
  if b =? flit 0 then None else Some (a / b).

(** [ratio] of [trackball_move]:
    [(rate > 0) ? (rateToVelocityCurve(rate) / rate) : 0]. *)
Definition velocity_ratio (rate : F) : option F :=
  if flit 0 <? rate then checked_div (rateToVelocityCurve rate) rate
  else Some (flit 0).

(** The float computation of [trackball_move] from the two rates to the
    per-axis velocities [vx], [vy]. *)
Definition combined_rate (rx ry : F) : F := sqrtf (rx * rx + ry * ry).

Definition axis_velocities (rx ry : F) : option (F * F) :=
  let rate := combined_rate rx ry in
  match velocity_ratio rate with
  | Some ratio => Some (rx * ratio, ry * ratio)
  | None => None
  end.
End Curve.

(** ** IEEE 754 binary32 *)
Module Binary32.

Definition prec : Z := 24.
Definition emax : Z := 128.

Definition f32 : Type := spec_float.

Definition of_Z (z : Z) : f32 := binary_normalize prec emax z 0 false.

(** A literal [n/d] is the correctly rounded quotient of the two integers
    (both are exactly representable for the literals of the source). *)
Definition literal (q : Q) : f32 :=
  SFdiv prec emax (of_Z (Qnum q)) (of_Z (Zpos (Qden q))).

(** [powf] is libm's.  The source calls it with the exponent [1.5f] only,
    where [x^1.5 = x * sqrt x]; the model computes that product in single
    precision and leaves other exponents undefined (NaN). *)
Definition powf32 (x y : f32) : f32 :=
  if SFeqb y (literal 1.5) then SFmul prec emax x (SFsqrt prec emax x)
  else S754_nan.

(** The arithmetic of the firmware, for a given [powf]. *)
Definition arith_with (pw : f32 -> f32 -> f32) : FloatArith f32 := {|
  flit := literal;
  fadd := SFadd prec emax;
  fsub := SFsub prec emax;
  fmul := SFmul prec emax;
  fdiv := SFdiv prec emax;
  fabsf := SFabs;
  sqrtf := SFsqrt prec emax;
  powf := pw;
  fltb := SFltb;
  feqb := SFeqb
|}.

#[export] Instance arith : FloatArith f32 := arith_with powf32.

(** The real value of a finite float, and the comparison of a float with
    a rational [q] on the extended real line. *)
Definition finite_value (m : positive) (e : Z) : Q :=
  match e with
  | Z0 => Zpos m # 1
  | Zpos p => (Zpos m * 2 ^ Zpos p) # 1
  | Zneg p => Zpos m # (2 ^ p)
  end.

Definition value_lt (x : f32) (q : Q) : Prop :=
  match x with
  | S754_zero _ => (0 < q)%Q
  | S754_finite false m e => (finite_value m e < q)%Q
  | S754_finite true m e => (- finite_value m e < q)%Q
  | S754_infinity s => s = true
  | S754_nan => False
  end.

Definition value_ge (x : f32) (q : Q) : Prop :=
  match x with
  | S754_zero _ => (q <= 0)%Q
  | S754_finite false m e => (q <= finite_value m e)%Q
  | S754_finite true m e => (q <= - finite_value m e)%Q
  | S754_infinity s => s = false
  | S754_nan => False
  end.

Definition valid (x : f32) : Prop := valid_binary prec emax x = true.

Definition is_zero (x : f32) : Prop :=
  match x with S754_zero _ => True | _ => False end.

Definition finite (x : f32) : Prop :=
  match x with S754_zero _ | S754_finite _ _ _ => True | _ => False end.

(** The least rate outside the dead zone, [0.05f], and the float that
    follows it. *)
Definition edge_rate : f32 := literal 0.05.
Definition next_rate : f32 := SFsucc prec emax edge_rate.

End Binary32.

(** ** Rounding in binary32

    What it is for a float to be the rounding of a real number: the
    vocabulary of the proof that the operations of the curve are
    monotone. *)
Module Rounding.
Import Binary32.
Local Open Scope R_scope.

(** Powers of two. *)
Definition bpow (e : Z) : R := powerRZ 2 e.

(** The value of a mantissa at an exponent. *)
Definition F2R (m e : Z) : R := IZR m * bpow e.

(** [inbetween m x l]: the real [x] lies in [[m, m+1)] at the place the
    location [l] says. *)
Definition inbetween (m : Z) (x : R) (l : location) : Prop :=
  match l with
  | loc_Exact => x = IZR m
  | loc_Inexact Lt => IZR m < x < IZR m + / 2
  | loc_Inexact Eq => x = IZR m + / 2
  | loc_Inexact Gt => IZR m + / 2 < x < IZR m + 1
  end.

(** The same for the record that [shr] shifts. *)
Definition rec_rep (mrs : shr_record) (x : R) : Prop :=
  (0 <= shr_m mrs)%Z /\ inbetween (shr_m mrs) x (loc_of_shr_record mrs).

(** [is_rne x k]: the integer [k] is [x] rounded to nearest, ties to
    even. *)
Definition is_rne (x : R) (k : Z) : Prop :=
  Rabs (IZR k - x) <= / 2 /\
  (Rabs (IZR k - x) = / 2 -> Z.even k = true).

(** [cexp_of v E]: [E] is the exponent of the format at the magnitude of
    the real [v >= 0]. *)
Definition cexp_of (v : R) (E : Z) : Prop :=
  (E = (-149)%Z /\ 0 <= v < bpow (-125)) \/
  ((-149 < E)%Z /\ bpow (E + 23) <= v < bpow (E + 24)).

(** The float of mantissa [k] at exponent [E], for [0 <= k <= 2^24]. *)
Definition pack (k E : Z) : f32 :=
  if (k =? 0)%Z then S754_zero false
  else if (k <? 16777216)%Z then
    if (E <=? 104)%Z then S754_finite false (Z.to_pos k) E
    else S754_infinity false
  else
    if (E + 1 <=? 104)%Z then S754_finite false 8388608 (E + 1)
    else S754_infinity false.

(** [rounded v f]: the float [f] is the real [v >= 0] rounded to nearest
    even in the format. *)
Definition rounded (v : R) (f : f32) : Prop :=
  exists E k,
    cexp_of v E /\ is_rne (v / bpow E) k /\ f = pack k E.

(** The floats the curve computes with above the dead zone: [+0], the
    positive finite ones and [+inf]. *)
Definition nonneg (f : f32) : Prop :=
  match f with
  | S754_zero false | S754_finite false _ _ | S754_infinity false => True
  | _ => False
  end.

Definition good (f : f32) : Prop := valid f /\ nonneg f.

(** [a <= b] *)
Definition fle (a b : f32) : Prop := SFleb a b = true.

(** The real value of a finite float. *)
Definition Vf (f : f32) : R :=
  match f with
  | S754_finite false m e => F2R (Zpos m) e
  | S754_finite true m e => - F2R (Zpos m) e
  | _ => 0
  end.

Definition finite_nonneg (f : f32) : Prop :=
  match f with
  | S754_zero false | S754_finite false _ _ => True
  | _ => False
  end.

(** What is asked of [powf]: at the exponent [1.5f] it maps non-negative
    floats to non-negative floats (never NaN) and is non-decreasing. *)
Definition powf_monotone (pw : f32 -> f32 -> f32) : Prop :=
  forall x1 x2, good x1 -> good x2 -> fle x1 x2 ->
    good (pw x1 (literal 1.5)) /\ good (pw x2 (literal 1.5)) /\
    fle (pw x1 (literal 1.5)) (pw x2 (literal 1.5)).

(** The formula of the curve in the words of the spec, rounded at each
    operation: [0.1 + x/20 + x^1.5/40] with [x = input - 0.05]. *)
Definition formula_above_dead_zone (pw : f32 -> f32 -> f32) (input : f32)
  : f32 :=
  let x := SFsub prec emax input (literal 0.05) in
  SFadd prec emax
    (SFadd prec emax (literal 0.1) (SFdiv prec emax x (literal 20)))
    (SFdiv prec emax (pw x (literal 1.5)) (literal 40)).

End Rounding.

(** ** State and errors

    The routines of the source read and write file-level statics; they are
    functions from the state to a result and a new state.  [None] stands
    for an operation with no defined result (a division by zero). *)
Module StateM.

Definition M (S A : Type) : Type := S -> option (A * S).

Definition ret {S A} (a : A) : M S A := fun s => Some (a, s).

Definition bind {S A B} (m : M S A) (k : A -> M S B) : M S B :=
  fun s => match m s with
           | Some (a, s') => k a s'
           | None => None
           end.

Definition gets {S A} (f : S -> A) : M S A := fun s => Some (f s, s).

Definition modify {S} (f : S -> S) : M S unit := fun s => Some (tt, f s).

Definition lift {S A} (o : option A) : M S A :=
  fun s => match o with Some a => Some (a, s) | None => None end.

End StateM.
Import StateM.

Notation "x <- m ;; k" := (bind m (fun x => k))
  (at level 61, m at next level, right associativity).
Notation "m ;; k" := (bind m (fun _ => k))
  (at level 61, right associativity).

(** ** The statics of [trackball.c] *)

Inductive axis := AXIS_X | AXIS_Y.
Inductive mode := MODE_WHEEL | MODE_MOUSE.

Definition TB_DECR : Z := -1.
Definition TB_INCR : Z := 1.
Definition WHEEL_DENOM : Z := 2.

Definition mode_eqb (a b : mode) : bool :=
  match a, b with
  | MODE_WHEEL, MODE_WHEEL | MODE_MOUSE, MODE_MOUSE => true
  | _, _ => false
  end.

(** An array of [AXIS_NUM] entries. *)
Definition per_axis (T : Type) : Type := (T * T)%type.

Definition at_axis {T} (v : per_axis T) (a : axis) : T :=
  match a with AXIS_X => fst v | AXIS_Y => snd v end.

Definition set_axis {T} (v : per_axis T) (a : axis) (t : T) : per_axis T :=
  match a with AXIS_X => (t, snd v) | AXIS_Y => (fst v, t) end.

(** [report_mouse_t], with the fields the routine writes. *)
Record report_mouse_t := {
  buttons : Z;
  x : Z;
  y : Z;
  v : Z;
  h : Z
}.

(** ** The collaborators

    [rate_meter.h] and [glider.h] are not among the sources; their
    operations are taken as given, each a function of the collaborator's
    own state. *)
Class RateMeter (F rate_meter_t : Type) := {
  rate_meter_zero : rate_meter_t;         (* the zero-initialised static *)
  rate_meter_interrupt : rate_meter_t -> rate_meter_t;
  rate_meter_tick : rate_meter_t -> Z -> rate_meter_t;
  rate_meter_expire : rate_meter_t -> rate_meter_t;
  rate_meter_rate : rate_meter_t -> F;
  rate_meter_delta : rate_meter_t -> F
}.

Class Glider (F glider_t : Type) := {
  glider_zero : glider_t;                 (* the zero-initialised static *)
  glider_set_direction : glider_t -> Z -> glider_t;
  glider_update : glider_t -> F -> F -> glider_t;
  glider_update_speed : glider_t -> F -> glider_t;
  glider_stop : glider_t -> glider_t;
  glider_glide : glider_t -> Z -> glider_t * Z
}.

(** Every call into a collaborator is recorded, in order. *)
Inductive call (F : Type) :=
| Call_rate_meter_interrupt (a : axis)
| Call_rate_meter_tick (a : axis) (delta : Z)
| Call_rate_meter_expire (a : axis)
| Call_rate_meter_rate (a : axis)
| Call_rate_meter_delta (a : axis)
| Call_glider_set_direction (a : axis) (direction : Z)
| Call_glider_update (a : axis) (velocity jerk : F)
| Call_glider_update_speed (a : axis) (velocity : F)
| Call_glider_stop (a : axis)
| Call_glider_glide (a : axis) (delta : Z).

Arguments Call_rate_meter_interrupt {F}.
Arguments Call_rate_meter_tick {F}.
Arguments Call_rate_meter_expire {F}.
Arguments Call_rate_meter_rate {F}.
Arguments Call_rate_meter_delta {F}.
Arguments Call_glider_set_direction {F}.
Arguments Call_glider_update {F}.
Arguments Call_glider_update_speed {F}.
Arguments Call_glider_stop {F}.
Arguments Call_glider_glide {F}.

Definition is_glide_call {F} (c : call F) : bool :=
  match c with Call_glider_glide _ _ => true | _ => false end.

Record state (F rate_meter_t glider_t : Type) := {
  last_mode : mode;
  last_report : Z;
  distances : per_axis Z;
  rate_meters : per_axis rate_meter_t;
  gliders : per_axis glider_t;
  wheel_buffer : per_axis Z;
  calls : list (call F)
}.

Arguments last_mode {F rate_meter_t glider_t}.
Arguments last_report {F rate_meter_t glider_t}.
Arguments distances {F rate_meter_t glider_t}.
Arguments rate_meters {F rate_meter_t glider_t}.
Arguments gliders {F rate_meter_t glider_t}.
Arguments wheel_buffer {F rate_meter_t glider_t}.
Arguments calls {F rate_meter_t glider_t}.
Arguments Build_state {F rate_meter_t glider_t}.

(** Modelled from the spec: the macro [TIMER_DIFF_16] is not among the
    sources; the elapsed time is the wraparound-safe unsigned subtraction
    over the timer's 16 bits. *)
Definition TIMER_DIFF_16 (a b : Z) : Z := uint16 (a - b).

Section Trackball.
Context {F rate_meter_t glider_t : Type}.
Context {FA : FloatArith F}.
Context {RM : RateMeter F rate_meter_t} {GL : Glider F glider_t}.

Abbreviation st := (state F rate_meter_t glider_t).
Abbreviation Op := (M st).

(** Writes to the statics. *)
Definition set_last_mode (m : mode) : Op unit :=
  modify (fun s : st => Build_state m (last_report s) (distances s)
    (rate_meters s) (gliders s) (wheel_buffer s) (calls s)).

Definition set_last_report (t : Z) : Op unit :=
  modify (fun s : st => Build_state (last_mode s) t (distances s)
    (rate_meters s) (gliders s) (wheel_buffer s) (calls s)).

Definition set_distance (a : axis) (d : Z) : Op unit :=
  modify (fun s : st => Build_state (last_mode s) (last_report s)
    (set_axis (distances s) a d)
    (rate_meters s) (gliders s) (wheel_buffer s) (calls s)).

Definition set_wheel_buffer (a : axis) (w : Z) : Op unit :=
  modify (fun s : st => Build_state (last_mode s) (last_report s)
    (distances s) (rate_meters s) (gliders s)
    (set_axis (wheel_buffer s) a w) (calls s)).

Definition set_rate_meter (a : axis) (r : rate_meter_t) : Op unit :=
  modify (fun s : st => Build_state (last_mode s) (last_report s)
    (distances s) (set_axis (rate_meters s) a r) (gliders s)
    (wheel_buffer s) (calls s)).

Definition set_glider (a : axis) (g : glider_t) : Op unit :=
  modify (fun s : st => Build_state (last_mode s) (last_report s)
    (distances s) (rate_meters s) (set_axis (gliders s) a g)
    (wheel_buffer s) (calls s)).

Definition record (c : call F) : Op unit :=
  modify (fun s : st => Build_state (last_mode s) (last_report s)
    (distances s) (rate_meters s) (gliders s) (wheel_buffer s)
    (calls s ++ [c])).

(** Calls into the collaborators, on the entry of the axis. *)
Definition call_rate_meter_interrupt (a : axis) : Op unit :=
  r <- gets (fun s : st => at_axis (rate_meters s) a) ;;
  record (Call_rate_meter_interrupt a) ;;
  set_rate_meter a (rate_meter_interrupt r).

Definition call_rate_meter_tick (a : axis) (delta : Z) : Op unit :=
  r <- gets (fun s : st => at_axis (rate_meters s) a) ;;
  record (Call_rate_meter_tick a delta) ;;
  set_rate_meter a (rate_meter_tick r delta).

Definition call_rate_meter_expire (a : axis) : Op unit :=
  r <- gets (fun s : st => at_axis (rate_meters s) a) ;;
  record (Call_rate_meter_expire a) ;;
  set_rate_meter a (rate_meter_expire r).

Definition call_rate_meter_rate (a : axis) : Op F :=
  r <- gets (fun s : st => at_axis (rate_meters s) a) ;;
  record (Call_rate_meter_rate a) ;;
  ret (rate_meter_rate r).

Definition call_rate_meter_delta (a : axis) : Op F :=
  r <- gets (fun s : st => at_axis (rate_meters s) a) ;;
  record (Call_rate_meter_delta a) ;;
  ret (rate_meter_delta r).

Definition call_glider_set_direction (a : axis) (direction : Z) : Op unit :=
  g <- gets (fun s : st => at_axis (gliders s) a) ;;
  record (Call_glider_set_direction a direction) ;;
  set_glider a (glider_set_direction g direction).

Definition call_glider_update (a : axis) (velocity jerk : F) : Op unit :=
  g <- gets (fun s : st => at_axis (gliders s) a) ;;
  record (Call_glider_update a velocity jerk) ;;
  set_glider a (glider_update g velocity jerk).

Definition call_glider_update_speed (a : axis) (velocity : F) : Op unit :=
  g <- gets (fun s : st => at_axis (gliders s) a) ;;
  record (Call_glider_update_speed a velocity) ;;
  set_glider a (glider_update_speed g velocity).

Definition call_glider_stop (a : axis) : Op unit :=
  g <- gets (fun s : st => at_axis (gliders s) a) ;;
  record (Call_glider_stop a) ;;
  set_glider a (glider_stop g).

Definition call_glider_glide (a : axis) (delta : Z) : Op Z :=
  g <- gets (fun s : st => at_axis (gliders s) a) ;;
  record (Call_glider_glide a delta) ;;
  set_glider a (fst (glider_glide g delta)) ;;
  ret (snd (glider_glide g delta)).

(** Reads of the two integer arrays. *)
Definition distance_at (a : axis) : Op Z :=
  gets (fun s : st => at_axis (distances s) a).

Definition wheel_at (a : axis) : Op Z :=
  gets (fun s : st => at_axis (wheel_buffer s) a).

(** [trackball_move] *)
Definition trackball_move (a : axis) (direction : Z) : Op unit :=
  d <- distance_at a ;;
  set_distance a (int8 (d + direction)) ;;
  lm <- gets (fun s : st => last_mode s) ;;
  if negb (mode_eqb lm MODE_WHEEL) then
    call_rate_meter_interrupt a ;;
    call_glider_set_direction a direction ;;
    rx <- call_rate_meter_rate AXIS_X ;;
    ry <- call_rate_meter_rate AXIS_Y ;;
    vxy <- lift (axis_velocities rx ry) ;;
    let vx := fst vxy in
    let vy := snd vxy in
    match a with
    | AXIS_X =>
        dr <- call_rate_meter_delta AXIS_X ;;
        call_glider_update AXIS_X vx (sqrtf dr) ;;
        call_glider_update_speed AXIS_Y vy
    | AXIS_Y =>
        call_glider_update_speed AXIS_X vx ;;
        dr <- call_rate_meter_delta AXIS_Y ;;
        call_glider_update AXIS_Y vy (sqrtf dr)
    end
  else ret tt.

Definition trackball_left : Op unit := trackball_move AXIS_X TB_DECR.
Definition trackball_right : Op unit := trackball_move AXIS_X TB_INCR.
Definition trackball_up : Op unit := trackball_move AXIS_Y TB_DECR.
Definition trackball_down : Op unit := trackball_move AXIS_Y TB_INCR.

(** The mode selected by [select_button_pressed]. *)
Definition mode_of_button (select_button_pressed : bool) : mode :=
  if select_button_pressed then MODE_WHEEL else MODE_MOUSE.

(** The reset of a mode transition (the first branch of
    [if (last_mode != mode)]). *)
Definition reset_on_switch : Op unit :=
  call_rate_meter_expire AXIS_X ;;
  call_rate_meter_expire AXIS_Y ;;
  call_glider_stop AXIS_X ;;
  call_glider_stop AXIS_Y ;;
  set_wheel_buffer AXIS_X 0 ;;
  set_wheel_buffer AXIS_Y 0 ;;
  set_distance AXIS_X 0 ;;
  set_distance AXIS_Y 0.

(** The [switch (mode)] of the report routine; the result is the four
    locals [(x, y, h, v)]. *)
Definition mode_output (m : mode) (delta : Z) : Op (Z * Z * Z * Z) :=
  match m with
  | MODE_MOUSE =>
      gx <- call_glider_glide AXIS_X (uint8 delta) ;;
      gy <- call_glider_glide AXIS_Y (uint8 delta) ;;
      set_distance AXIS_X 0 ;;
      set_distance AXIS_Y 0 ;;
      ret (int8 gx, int8 gy, 0, 0)
  | MODE_WHEEL =>
      wx <- wheel_at AXIS_X ;;
      dx <- distance_at AXIS_X ;;
      set_wheel_buffer AXIS_X (int8 (wx + dx)) ;;
      wy <- wheel_at AXIS_Y ;;
      dy <- distance_at AXIS_Y ;;
      set_wheel_buffer AXIS_Y (int8 (wy + dy)) ;;
      wx1 <- wheel_at AXIS_X ;;
      let sh := int8 (Z.quot wx1 WHEEL_DENOM) in
      wy1 <- wheel_at AXIS_Y ;;
      let sv := int8 (Z.quot wy1 WHEEL_DENOM) in
      wx2 <- wheel_at AXIS_X ;;
      set_wheel_buffer AXIS_X (int8 (wx2 - sh * WHEEL_DENOM)) ;;
      wy2 <- wheel_at AXIS_Y ;;
      set_wheel_buffer AXIS_Y (int8 (wy2 - sv * WHEEL_DENOM)) ;;
      set_distance AXIS_X 0 ;;
      set_distance AXIS_Y 0 ;;
      ret (0, 0, sh, sv)
  end.

(** The critical section of [pointing_device_driver_get_report], from
    [timer_read] to the end of the [switch]; [now] is the value read from
    the timer and [select_button_pressed] the value read from the flag. *)
Definition report_locals (now : Z) (select_button_pressed : bool)
  : Op (Z * Z * Z * Z) :=
  lr <- gets (fun s : st => last_report s) ;;
  let delta := TIMER_DIFF_16 now lr in
  set_last_report now ;;
  let m := mode_of_button select_button_pressed in
  lm <- gets (fun s : st => last_mode s) ;;
  (if negb (mode_eqb lm m) then reset_on_switch
   else call_rate_meter_tick AXIS_X delta ;;
        call_rate_meter_tick AXIS_Y delta) ;;
  set_last_mode m ;;
  mode_output m delta.

(** The assignments to [mouse_report] after the critical section. *)
Definition fill_report (mouse_report : report_mouse_t)
  (locals : Z * Z * Z * Z) : report_mouse_t :=
  let '(lx, ly, lh, lv) := locals in
  {| buttons := buttons mouse_report;
     x := lx;
     y := ly;
     h := lh;
     v := int8 (- lv) |}.

(** [pointing_device_driver_get_report] *)
Definition pointing_device_driver_get_report (now : Z)
  (select_button_pressed : bool) (mouse_report : report_mouse_t)
  : Op report_mouse_t :=
  locals <- report_locals now select_button_pressed ;;
  ret (fill_report mouse_report locals).

(** The state at start-up: the initialisers of the statics. *)
Definition initial_state : st :=
  {| last_mode := MODE_MOUSE;
     last_report := 0;
     distances := (0, 0);
     rate_meters := (rate_meter_zero, rate_meter_zero);
     gliders := (glider_zero, glider_zero);
     wheel_buffer := (0, 0);
     calls := [] |}.

(** ** Runs: interrupts and report requests in any order *)
Inductive event :=
| Left_edge | Right_edge | Up_edge | Down_edge
| Report_request (now : Z) (select_button_pressed : bool)
    (mouse_report : report_mouse_t).

Definition step (ev : event) : Op (list report_mouse_t) :=
  match ev with
  | Left_edge => trackball_left ;; ret []
  | Right_edge => trackball_right ;; ret []
  | Up_edge => trackball_up ;; ret []
  | Down_edge => trackball_down ;; ret []
  | Report_request now b r =>
      out <- pointing_device_driver_get_report now b r ;; ret [out]
  end.

Fixpoint run (evs : list event) : Op (list report_mouse_t) :=
  match evs with
  | [] => ret []
  | ev :: rest =>
      out <- step ev ;;
      outs <- run rest ;;
      ret (out ++ outs)
  end.

(** The glider entry that the MOUSE branch samples: the reset of a mode
    transition stops it first. *)
Definition glider_before_sampling (s : st) (a : axis) : glider_t :=
  match last_mode s with
  | MODE_MOUSE => at_axis (gliders s) a
  | MODE_WHEEL => glider_stop (at_axis (gliders s) a)
  end.

(** Both wheel remainders are below [WHEEL_DENOM] in magnitude. *)
Definition wheel_bounded (s : st) : Prop :=
  Z.abs (at_axis (wheel_buffer s) AXIS_X) < WHEEL_DENOM /\
  Z.abs (at_axis (wheel_buffer s) AXIS_Y) < WHEEL_DENOM.

End Trackball.

Definition other_axis (a : axis) : axis :=
  match a with AXIS_X => AXIS_Y | AXIS_Y => AXIS_X end.

(** ** What the glider is held to *)

(** Modelled from the spec: the implementation of the glider is not among
    the sources.  Of it the spec says that [stop] "immediately zeroes
    momentum" and that "a stopped glide stays stopped": a glider is
    stopped after [glider_stop], and sampling a stopped glider yields no
    motion and leaves it stopped. *)
Class GliderContract {F glider_t : Type} {GL : Glider F glider_t}
  (stopped : glider_t -> Prop) : Prop := {
  stop_stopped : forall g, stopped (glider_stop g);
  glide_stopped : forall g d,
    stopped g ->
    snd (glider_glide g d) = 0 /\ stopped (fst (glider_glide g d))
}.

(** ** Exact real arithmetic

    The same operations without rounding, for what the formula of the
    curve does as a function of a real variable. *)
Module Exact.

Definition ltb (a b : R) : bool := if Rlt_dec a b then true else false.
Definition eqb (a b : R) : bool := if Req_dec_T a b then true else false.

(** [x^y] for a positive base; the power of [0] is [0] (the exponent of
    the source is positive). *)
Definition pow (a b : R) : R :=
  if Rlt_dec 0 a then Rpower a b else 0%R.

#[export] Instance arith : FloatArith R := {|
  flit := Q2R;
  fadd := Rplus;
  fsub := Rminus;
  fmul := Rmult;
  fdiv := Rdiv;
  fabsf := Rabs;
  sqrtf := sqrt;
  powf := pow;
  fltb := ltb;
  feqb := eqb
|}.

End Exact.

(** ** Stand-ins for the collaborators

    Small executable instances of the two interfaces over binary32.  The
    theorems hold for every instance; these serve as concrete inputs. *)
Module Sample.
Import Binary32.

(** A rate meter to run the routines on: it counts the pulses since the
    last tick; [rate] is that count, [delta] the size of its last change,
    [tick] and [expire] return it to idle. *)
Record rate_meter_t := {
  pulses : Z;
  last_change : Z
}.

#[export] Instance rate_meter : RateMeter f32 rate_meter_t := {|
  rate_meter_zero := {| pulses := 0; last_change := 0 |};
  rate_meter_interrupt r :=
    {| pulses := pulses r + 1; last_change := 1 |};
  rate_meter_tick r delta :=
    if 0 <? delta then {| pulses := 0; last_change := pulses r |} else r;
  rate_meter_expire r := {| pulses := 0; last_change := 0 |};
  rate_meter_rate r := of_Z (pulses r);
  rate_meter_delta r := of_Z (last_change r)
|}.

(** A glider to run the routines on: it keeps a direction and a speed; a
    sample yields one step in the direction while the speed is positive,
    and [stop] zeroes the speed. *)
Record glider_t := {
  direction : Z;
  speed : f32
}.

#[export] Instance glider : Glider f32 glider_t := {|
  glider_zero := {| direction := 0; speed := S754_zero false |};
  glider_set_direction g d := {| direction := d; speed := speed g |};
  glider_update g velocity jerk :=
    {| direction := direction g; speed := velocity |};
  glider_update_speed g velocity :=
    {| direction := direction g; speed := velocity |};
  glider_stop g := {| direction := direction g; speed := S754_zero false |};
  glider_glide g delta :=
    (g, if SFltb (S754_zero false) (speed g) then direction g else 0)
|}.

Definition stopped (g : glider_t) : Prop :=
  SFltb (S754_zero false) (speed g) = false.

Definition st : Type := state f32 rate_meter_t glider_t.

Definition blank_report : report_mouse_t :=
  {| buttons := 0; x := 0; y := 0; v := 0; h := 0 |}.

Definition state_after (evs : list event) : st :=
  match run evs initial_state with
  | Some (_, s) => s
  | None => initial_state
  end.

(** MOUSE mode, with both gliders moving and pulses not yet reported. *)
Definition moving_state : st :=
  Eval vm_compute in state_after [Right_edge; Right_edge; Down_edge].

(** WHEEL mode, with five pulses to the right and one downward not yet
    reported and a remainder of one on each axis in the buffer. *)
Definition scrolling_state : st :=
  Eval vm_compute in
    state_after [Report_request 10 true blank_report;
                 Right_edge; Down_edge;
                 Report_request 20 true blank_report;
                 Right_edge; Right_edge; Right_edge; Right_edge; Right_edge;
                 Down_edge].

End Sample.

(** ** The CPI interface and the bookkeeping of runs *)

Section Cpi.
Context {F rate_meter_t glider_t : Type}.



End Cpi.

Definition axis_eqb (a b : axis) : bool :=
  match a, b with
  | AXIS_X, AXIS_X | AXIS_Y, AXIS_Y => true
  | _, _ => false
  end.

(** The axis and the direction that the handler of an edge passes to
    [trackball_move]. *)
Definition pulse_of (ev : event) : option (axis * Z) :=
  match ev with
  | Left_edge => Some (AXIS_X, TB_DECR)
  | Right_edge => Some (AXIS_X, TB_INCR)
  | Up_edge => Some (AXIS_Y, TB_DECR)
  | Down_edge => Some (AXIS_Y, TB_INCR)
  | Report_request _ _ _ => None
  end.

Definition is_pulse (ev : event) : bool :=
  match pulse_of ev with Some _ => true | None => false end.

(** What an event adds to the count of an axis, and the net count of a
    run. *)
Definition displacement (a : axis) (ev : event) : Z :=
  match pulse_of ev with
  | Some (a', d) => if axis_eqb a a' then d else 0
  | None => 0
  end.

Fixpoint net_pulses (a : axis) (evs : list event) : Z :=
  match evs with
  | [] => 0
  | ev :: rest => displacement a ev + net_pulses a rest
  end.

(** [pending_within k c evs]: with [c] pulses pending, no more than [k]
    pulses ever wait for a report during [evs]. *)
Fixpoint pending_within (k c : Z) (evs : list event) : bool :=
  match evs with
  | [] => true
  | Report_request _ _ _ :: rest => pending_within k 0 rest
  | _ :: rest => (c + 1 <=? k) && pending_within k (c + 1) rest
  end.

(** Every report of the run is requested with the select button held. *)
Definition select_held (evs : list event) : bool :=
  forallb (fun ev => match ev with
                     | Report_request _ b _ => b
                     | _ => true
                     end) evs.

Definition total (l : list Z) : Z := fold_right Z.add 0 l.

(** The scroll ticks of a report by axis: [h], and the local [v] of the
    routine, which the report carries negated. *)
Definition wheel_tick (out : report_mouse_t) (a : axis) : Z :=
  match a with AXIS_X => h out | AXIS_Y => - v out end.

(** The select-button values of the report requests of a run, in
    order, and the part of a report that each value leaves at zero. *)
Fixpoint requests (evs : list event) : list bool :=
  match evs with
  | [] => []
  | Report_request _ b _ :: rest => b :: requests rest
  | _ :: rest => requests rest
  end.

Definition silent_part (select_button_pressed : bool)
  (out : report_mouse_t) : Prop :=
  if select_button_pressed then x out = 0 /\ y out = 0
  else h out = 0 /\ v out = 0.

(** A state with other pulse counts. *)
Definition with_distances {F rate_meter_t glider_t : Type}
  (s : state F rate_meter_t glider_t) (d : per_axis Z)
  : state F rate_meter_t glider_t :=
  Build_state (last_mode s) (last_report s) d (rate_meters s) (gliders s)
    (wheel_buffer s) (calls s).

(** ** More concrete inputs *)
Module SampleRuns.
Import Binary32 Sample.

(** WHEEL mode at rest: nothing pending, nothing in the buffer. *)
Definition wheel_rest : Sample.st :=
  Eval vm_compute in state_after [Report_request 10 true blank_report].

(** Two rates of a slow roll, and a rate whose square overflows. *)
Definition slow_x : f32 := literal 0.03.
Definition slow_y : f32 := literal 0.02.

End SampleRuns.

(** * Properties *)

(** ** Conversions to the fixed-width types *)
Module CIntFacts.

Lemma int8_range z : in_int8 (int8 z).
Proof.
  unfold in_int8, int8.
  pose proof (Z.mod_pos_bound (z + 128) 256). lia.
Qed.

Lemma int8_id z : in_int8 z -> int8 z = z.
Proof. unfold in_int8, int8. intros Hz. rewrite Z.mod_small; lia. Qed.

Lemma int8_0 : int8 0 = 0.
Proof. reflexivity. Qed.

Lemma uint8_id z : 0 <= z < 256 -> uint8 z = z.
Proof. unfold uint8. intros Hz. apply Z.mod_small. exact Hz. Qed.

Lemma uint16_id z : 0 <= z < 65536 -> uint16 z = z.
Proof. unfold uint16. intros Hz. apply Z.mod_small. exact Hz. Qed.

(** The quotient and the remainder of a buffer value by [WHEEL_DENOM]:
    C division truncates toward zero. *)
Lemma quot_denom_range w : in_int8 w -> -64 <= Z.quot w WHEEL_DENOM <= 63.
Proof.
  unfold in_int8, WHEEL_DENOM. intros Hw.
  pose proof (Z.quot_rem' w 2) as Hqr.
  assert (Hr : Z.abs (Z.rem w 2) < Z.abs 2) by (apply Z.rem_bound_abs; lia).
  assert (Hs : 0 <= Z.rem w 2 * w) by (apply Z.rem_sign_mul; lia).
  nia.
Qed.

Lemma tick_fits w : in_int8 w -> int8 (Z.quot w WHEEL_DENOM) = Z.quot w WHEEL_DENOM.
Proof.
  intros Hw. apply int8_id. pose proof (quot_denom_range w Hw) as Hq.
  unfold in_int8. lia.
Qed.

Lemma remainder_kept w :
  in_int8 w ->
  int8 (w - int8 (Z.quot w WHEEL_DENOM) * WHEEL_DENOM) = Z.rem w WHEEL_DENOM.
Proof.
  intros Hw. rewrite (tick_fits w Hw). unfold WHEEL_DENOM.
  pose proof (Z.quot_rem' w 2) as Hqr.
  assert (Hr : Z.abs (Z.rem w 2) < Z.abs 2) by (apply Z.rem_bound_abs; lia).
  replace (w - Z.quot w 2 * 2) with (Z.rem w 2) by lia.
  apply int8_id. unfold in_int8. lia.
Qed.

Lemma remainder_small w : Z.abs (Z.rem w WHEEL_DENOM) < WHEEL_DENOM.
Proof.
  unfold WHEEL_DENOM.
  assert (Hr : Z.abs (Z.rem w 2) < Z.abs 2) by (apply Z.rem_bound_abs; lia).
  lia.
Qed.

Lemma small_quot w : Z.abs w < WHEEL_DENOM -> Z.quot w WHEEL_DENOM = 0.
Proof.
  unfold WHEEL_DENOM. intros Hw.
  assert (Hc : w = -1 \/ w = 0 \/ w = 1) by lia.
  destruct Hc as [-> | [-> | ->]]; reflexivity.
Qed.

Lemma negated_tick_fits t : -64 <= t <= 63 -> int8 (- t) = - t.
Proof. intros Ht. apply int8_id. unfold in_int8. lia. Qed.

(** The 16-bit difference is the elapsed time as long as fewer than
    [2^16] timer ticks went by, wherever the counter wrapped. *)
Lemma TIMER_DIFF_16_wraparound (t0 t1 : Z) :
  0 <= t1 - t0 < 65536 ->
  TIMER_DIFF_16 (uint16 t1) (uint16 t0) = t1 - t0.
Proof.
  intros Hd. unfold TIMER_DIFF_16, uint16.
  rewrite <- Zminus_mod. apply Z.mod_small. exact Hd.
Qed.

End CIntFacts.
Import CIntFacts.

(** ** The curve and the ratio in binary32 *)
Module Binary32Facts.
Import Binary32.

Lemma literal_0 : literal 0 = S754_zero false.
Proof. reflexivity. Qed.

Lemma literal_0_05 : literal 0.05 = S754_finite false 13421773 (-28).
Proof. vm_compute. reflexivity. Qed.

(** A mantissa of [d] binary digits is at least [2^(d-1)]. *)
Lemma digits2_lower (m : positive) :
  2 ^ (Zpos (digits2_pos m) - 1) <= Zpos m.
Proof.
  induction m as [p IH | p IH |]; cbn [digits2_pos].
  - rewrite Pos2Z.inj_succ.
    replace (Z.succ (Zpos (digits2_pos p)) - 1)
      with (Z.succ (Zpos (digits2_pos p) - 1)) by lia.
    rewrite Z.pow_succ_r by lia. lia.
  - rewrite Pos2Z.inj_succ.
    replace (Z.succ (Zpos (digits2_pos p)) - 1)
      with (Z.succ (Zpos (digits2_pos p) - 1)) by lia.
    rewrite Z.pow_succ_r by lia. lia.
  - cbn. lia.
Qed.

(** Above the least exponent a float is normal: 24 digits. *)
Lemma normal_mantissa (m : positive) (e : Z) :
  SpecFloat.bounded prec emax m e = true -> -149 < e -> 2 ^ 23 <= Zpos m.
Proof.
  unfold SpecFloat.bounded, canonical_mantissa, fexp, emin, prec, emax.
  intros Hb He.
  apply andb_prop in Hb. destruct Hb as [Hc _].
  apply Z.eqb_eq in Hc.
  assert (Hd : Zpos (digits2_pos m) = 24) by lia.
  pose proof (digits2_lower m) as Hl. rewrite Hd in Hl. exact Hl.
Qed.

(** The floats below [1/20] are those below [0.05f] in the order of
    exponent and mantissa. *)
Lemma below_0_05 (m : positive) (e : Z) :
  SpecFloat.bounded prec emax m e = true ->
  (finite_value m e < 0.05)%Q ->
  e < -28 \/ (e = -28 /\ Zpos m < 13421773).
Proof.
  intros Hb Hv.
  destruct (Z_lt_le_dec e (-28)) as [Hlt | Hge]; [left; exact Hlt | right].
  destruct (Z.eq_dec e (-28)) as [-> | Hne].
  - split; [reflexivity |].
    unfold finite_value, Qlt in Hv. cbn [Qnum Qden] in Hv.
    change (Zpos (2 ^ 28)) with 268435456 in Hv. lia.
  - exfalso.
    assert (Hm : 2 ^ 23 <= Zpos m)
      by (apply (normal_mantissa m e); [exact Hb | lia]).
    change (2 ^ 23) with 8388608 in Hm.
    unfold finite_value in Hv.
    destruct e as [| p | p]; unfold Qlt in Hv; cbn [Qnum Qden] in Hv.
    + lia.
    + assert (0 < 2 ^ Zpos p) by (apply Z.pow_pos_nonneg; lia).
      nia.
    + rewrite Pos2Z.inj_pow in Hv.
      assert (Hp : 2 ^ Zpos p <= 2 ^ 27) by (apply Z.pow_le_mono_r; lia).
      change (2 ^ 27) with 134217728 in Hp.
      lia.
Qed.

Lemma abs_below_0_05 (r : f32) :
  valid r -> value_lt (SFabs r) 0.05 ->
  SFltb (SFabs r) (literal 0.05) = true.
Proof.
  rewrite literal_0_05.
  destruct r as [s | s | | s m e]; cbn [SFabs value_lt]; intros Hv Hlt.
  - reflexivity.
  - discriminate Hlt.
  - contradiction.
  - destruct (below_0_05 m e Hv Hlt) as [He | [-> Hm]];
      unfold SFltb, SFcompare.
    + rewrite (proj2 (Z.compare_lt_iff e (-28)) He). reflexivity.
    + rewrite Z.compare_refl, Pos.compare_cont_spec, Pos2Z.inj_compare.
      rewrite (proj2 (Z.compare_lt_iff (Zpos m) 13421773) Hm).
      reflexivity.
Qed.

(** C3: every float [r] with [|r| < 0.05] is mapped to exactly [0] by
    [rateToVelocityCurve], whatever [powf] is. *)
Theorem dead_zone (pw : f32 -> f32 -> f32) (r : f32) :
  valid r ->
  value_lt (SFabs r) 0.05 ->
  rateToVelocityCurve (FA := arith_with pw) r = S754_zero false.
Proof.
  intros Hv Hlt. unfold rateToVelocityCurve.
  cbn [fabsf fltb flit arith_with].
  rewrite (abs_below_0_05 r Hv Hlt). reflexivity.
Qed.

Lemma dead_zone_witness :
  valid (literal 0.01) /\
  value_lt (SFabs (literal 0.01)) 0.05 /\
  rateToVelocityCurve (literal 0.01) = S754_zero false.
Proof.
  assert (Hv : valid (literal 0.01)) by (vm_compute; reflexivity).
  assert (Hl : value_lt (SFabs (literal 0.01)) 0.05)
    by (vm_compute; reflexivity).
  split; [exact Hv |].
  split; [exact Hl | exact (dead_zone powf32 (literal 0.01) Hv Hl)].
Defined.

(** At the edge of the dead zone two adjacent floats get the same
    velocity: the increment of the curve is below half an ulp of [0.1f].
    Of [powf] this uses two exact values only, [0^1.5 = 0] and
    [(2^-28)^1.5 = 2^-42]. *)
Lemma adjacent_rates_same_velocity (pw : f32 -> f32 -> f32) :
  pw (S754_zero false) (literal 1.5) = S754_zero false ->
  pw (S754_finite false 8388608 (-51)) (literal 1.5)
    = S754_finite false 8388608 (-65) ->
  valid edge_rate /\ valid next_rate /\
  value_ge edge_rate 0.05 /\ SFltb edge_rate next_rate = true /\
  rateToVelocityCurve (FA := arith_with pw) edge_rate = literal 0.1 /\
  rateToVelocityCurve (FA := arith_with pw) next_rate = literal 0.1.
Proof.
  intros P0 P1.
  assert (A0 : SFltb (SFabs edge_rate) (literal 0.05) = false)
    by (vm_compute; reflexivity).
  assert (A1 : SFltb (SFabs next_rate) (literal 0.05) = false)
    by (vm_compute; reflexivity).
  assert (X0 : SFsub prec emax (SFabs edge_rate) (literal 0.05)
               = S754_zero false) by (vm_compute; reflexivity).
  assert (X1 : SFsub prec emax (SFabs next_rate) (literal 0.05)
               = S754_finite false 8388608 (-51))
    by (vm_compute; reflexivity).
  split; [vm_compute; reflexivity |].
  split; [vm_compute; reflexivity |].
  split; [vm_compute; discriminate |].
  split; [vm_compute; reflexivity |].
  unfold rateToVelocityCurve.
  cbn [fabsf fltb flit fsub powf fdiv fadd arith_with].
  rewrite A0, A1, X0, X1, P0, P1.
  split; vm_compute; reflexivity.
Qed.

(** The model of [powf] has these two values. *)
Lemma powf32_exact_values :
  powf32 (S754_zero false) (literal 1.5) = S754_zero false /\
  powf32 (S754_finite false 8388608 (-51)) (literal 1.5)
    = S754_finite false 8388608 (-65).
Proof. split; vm_compute; reflexivity. Qed.

(** C4, as stated, fails in binary32: [0.05f < next_rate] and both are
    mapped to [0.1f]. *)
Lemma curve_not_strictly_increasing :
  ~ (forall r1 r2 : f32,
       valid r1 -> valid r2 ->
       value_ge r1 0.05 -> SFltb r1 r2 = true ->
       SFltb (rateToVelocityCurve r1) (rateToVelocityCurve r2) = true).
Proof.
  intros Hall.
  destruct powf32_exact_values as [P0 P1].
  destruct (adjacent_rates_same_velocity powf32 P0 P1)
    as (V1 & V2 & Hge & Hlt & E1 & E2).
  specialize (Hall edge_rate next_rate V1 V2 Hge Hlt).
  change (@rateToVelocityCurve f32 arith) with
    (@rateToVelocityCurve f32 (arith_with powf32)) in Hall.
  rewrite E1, E2 in Hall. vm_compute in Hall. discriminate Hall.
Qed.

(** On rates that are well apart the binary32 curve does increase. *)
Lemma curve_increasing_on_samples :
  let rates := map literal [0.05; 0.06; 0.1; 0.25; 0.5; 1; 2; 5; 10; 100]%Q in
  let outs := map rateToVelocityCurve rates in
  forallb (fun p => SFltb (fst p) (snd p)) (combine outs (tl outs)) = true.
Proof. vm_compute. reflexivity. Qed.

Section Guard.
Variable pw : f32 -> f32 -> f32.
Let FAw : FloatArith f32 := arith_with pw.
Existing Instance FAw.

Lemma positive_not_zero (rate : f32) :
  SFltb (S754_zero false) rate = true ->
  SFeqb rate (S754_zero false) = false.
Proof. destruct rate as [s | [|] | | [|] m e]; cbn; congruence. Qed.

Lemma zero_not_positive (rate : f32) :
  is_zero rate -> SFltb (S754_zero false) rate = false.
Proof. destruct rate; cbn; try contradiction; reflexivity. Qed.

(** The ratio is always defined: the division is reached only with a
    positive, hence non-zero, divisor. *)
Lemma velocity_ratio_cases (rate : f32) :
  velocity_ratio rate =
    if SFltb (S754_zero false) rate
    then Some (SFdiv prec emax (rateToVelocityCurve rate) rate)
    else Some (S754_zero false).
Proof.
  unfold velocity_ratio, checked_div.
  cbn [fltb feqb flit fdiv FAw arith_with].
  rewrite literal_0.
  destruct (SFltb (S754_zero false) rate) eqn:Hpos; [| reflexivity].
  rewrite (positive_not_zero rate Hpos). reflexivity.
Qed.

Lemma axis_velocities_defined (rx ry : f32) :
  exists vx vy, axis_velocities rx ry = Some (vx, vy).
Proof.
  unfold axis_velocities. rewrite velocity_ratio_cases.
  destruct (SFltb _ _); eexists; eexists; reflexivity.
Qed.

Lemma square_not_finite (a : f32) :
  ~ finite a ->
  SFmul prec emax a a = S754_nan \/
  SFmul prec emax a a = S754_infinity false.
Proof.
  destruct a as [s | [|] | | s m e]; cbn; intros Hn; auto;
    exfalso; apply Hn; exact I.
Qed.

Lemma add_nan_r (a : f32) : SFadd prec emax a S754_nan = S754_nan.
Proof. destruct a; reflexivity. Qed.

Lemma add_inf_l (b : f32) :
  SFadd prec emax (S754_infinity false) b = S754_nan \/
  SFadd prec emax (S754_infinity false) b = S754_infinity false.
Proof. destruct b as [s | [|] | | s m e]; cbn; auto. Qed.

Lemma add_inf_r (a : f32) :
  SFadd prec emax a (S754_infinity false) = S754_nan \/
  SFadd prec emax a (S754_infinity false) = S754_infinity false.
Proof. destruct a as [s | [|] | | s m e]; cbn; auto. Qed.

(** A combined rate of zero comes from two finite rates. *)
Lemma zero_rate_finite (rx ry : f32) :
  is_zero (combined_rate rx ry) -> finite rx /\ finite ry.
Proof.
  unfold combined_rate. cbn [sqrtf fadd fmul FAw arith_with].
  intros Hz.
  assert (Hx : finite rx \/ ~ finite rx) by (destruct rx; cbn; tauto).
  assert (Hy : finite ry \/ ~ finite ry) by (destruct ry; cbn; tauto).
  destruct Hx as [Hx | Hx]; [destruct Hy as [Hy | Hy]; [tauto |] |];
    exfalso.
  - destruct (square_not_finite ry Hy) as [E | E]; rewrite E in Hz.
    + rewrite add_nan_r in Hz. exact Hz.
    + destruct (add_inf_r (SFmul prec emax rx rx)) as [E' | E'];
        rewrite E' in Hz; exact Hz.
  - destruct (square_not_finite rx Hx) as [E | E]; rewrite E in Hz.
    + exact Hz.
    + destruct (add_inf_l (SFmul prec emax ry ry)) as [E' | E'];
        rewrite E' in Hz; exact Hz.
Qed.

Lemma finite_times_zero (a : f32) :
  finite a -> is_zero (SFmul prec emax a (S754_zero false)).
Proof. destruct a; cbn; tauto. Qed.

(** C5: when the combined rate is zero the ratio is [0] without a
    division and both axis velocities are zero; the division
    [curve(rate)/rate] is evaluated exactly when [rate > 0], and then
    its divisor is not zero. *)
Theorem ratio_zero_guard (rx ry : f32) :
  is_zero (combined_rate rx ry) ->
  velocity_ratio (combined_rate rx ry) = Some (S754_zero false) /\
  (exists vx vy, axis_velocities rx ry = Some (vx, vy) /\
                 is_zero vx /\ is_zero vy) /\
  (forall rate,
     velocity_ratio rate =
       if SFltb (S754_zero false) rate
       then Some (SFdiv prec emax (rateToVelocityCurve rate) rate)
       else Some (S754_zero false)) /\
  (forall rate,
     SFltb (S754_zero false) rate = true ->
     SFeqb rate (S754_zero false) = false /\
     checked_div (rateToVelocityCurve rate) rate
       = Some (SFdiv prec emax (rateToVelocityCurve rate) rate)).
Proof.
  intros Hz.
  assert (Hr : velocity_ratio (combined_rate rx ry)
               = Some (S754_zero false)).
  { rewrite velocity_ratio_cases, (zero_not_positive _ Hz). reflexivity. }
  destruct (zero_rate_finite rx ry Hz) as [Hx Hy].
  split; [exact Hr |]. split; [| split].
  - unfold axis_velocities. rewrite Hr.
    eexists. eexists. split; [reflexivity |].
    split; apply finite_times_zero; assumption.
  - exact velocity_ratio_cases.
  - intros rate Hpos. split; [exact (positive_not_zero rate Hpos) |].
    unfold checked_div.
    cbn [fltb feqb flit fdiv FAw arith_with]. rewrite literal_0.
    rewrite (positive_not_zero rate Hpos). reflexivity.
Qed.
End Guard.

End Binary32Facts.

(** ** Rounding to nearest even is monotone *)
Module RoundingFacts.
Import Binary32 Rounding.
Local Open Scope R_scope.

Lemma bpow_pos e : 0 < bpow e.
Proof. unfold bpow. apply powerRZ_lt. lra. Qed.

Lemma bpow_add a b : bpow (a + b) = bpow a * bpow b.
Proof. unfold bpow. apply powerRZ_add. lra. Qed.

Lemma bpow_0 : bpow 0 = 1.
Proof. reflexivity. Qed.

Lemma bpow_1 : bpow 1 = 2.
Proof. unfold bpow. apply (powerRZ_1 2). Qed.

Lemma bpow_succ e : bpow (e + 1) = 2 * bpow e.
Proof. rewrite bpow_add, bpow_1. lra. Qed.

Lemma bpow_pred e : bpow (e - 1) = bpow e / 2.
Proof.
  replace e with ((e - 1) + 1)%Z at 2 by lia. rewrite bpow_succ. lra.
Qed.

Lemma bpow_nonneg_ge_1 (n : Z) : (0 <= n)%Z -> 1 <= bpow n.
Proof.
  intros Hn. pattern n. apply natlike_ind; [rewrite bpow_0; lra | | exact Hn].
  intros k Hk IH. unfold Z.succ. rewrite bpow_succ. lra.
Qed.

Lemma bpow_le a b : (a <= b)%Z -> bpow a <= bpow b.
Proof.
  intros Hab. replace b with (a + (b - a))%Z by lia. rewrite bpow_add.
  pose proof (bpow_pos a). pose proof (bpow_nonneg_ge_1 (b - a) ltac:(lia)).
  nra.
Qed.

Lemma bpow_lt a b : (a < b)%Z -> bpow a < bpow b.
Proof.
  intros Hab. pose proof (bpow_le (a + 1) b ltac:(lia)) as Hle.
  rewrite bpow_succ in Hle. pose proof (bpow_pos a). lra.
Qed.

Lemma bpow_lt_inv a b : bpow a < bpow b -> (a < b)%Z.
Proof.
  intros Hlt. destruct (Z_lt_le_dec a b) as [H | H]; [exact H |].
  pose proof (bpow_le b a H). lra.
Qed.

Lemma bpow_IZR (n : Z) : (0 <= n)%Z -> bpow n = IZR (2 ^ n).
Proof.
  intros Hn. pattern n. apply natlike_ind; [reflexivity | | exact Hn].
  intros k Hk IH. unfold Z.succ. rewrite bpow_succ, IH.
  rewrite Z.pow_add_r by lia. rewrite mult_IZR. change (2 ^ 1)%Z with 2%Z. lra.
Qed.

(** Digits. *)
Lemma digits2_upper (m : positive) :
  (Zpos m < 2 ^ Zpos (digits2_pos m))%Z.
Proof.
  induction m as [p IH | p IH |]; cbn [digits2_pos].
  - rewrite Pos2Z.inj_succ, Z.pow_succ_r by lia. lia.
  - rewrite Pos2Z.inj_succ, Z.pow_succ_r by lia. lia.
  - cbn. lia.
Qed.

Lemma Zdigits2_bounds (m : Z) :
  (0 < m)%Z ->
  (0 < Zdigits2 m)%Z /\
  (2 ^ (Zdigits2 m - 1) <= m < 2 ^ Zdigits2 m)%Z.
Proof.
  destruct m as [| p | p]; try lia. intros _. cbn [Zdigits2].
  split; [lia |]. split;
    [apply Binary32Facts.digits2_lower | apply digits2_upper].
Qed.

Lemma inbetween_bounds m x l : inbetween m x l -> IZR m <= x < IZR m + 1.
Proof. destruct l as [| [ | | ]]; cbn; lra. Qed.

Lemma rec_of_loc m l :
  shr_m (shr_record_of_loc m l) = m /\
  loc_of_shr_record (shr_record_of_loc m l) = l.
Proof. destruct l as [| [ | | ]]; split; reflexivity. Qed.

Lemma IZR_xO p : IZR (Zpos p~0) = 2 * IZR (Zpos p).
Proof. change (Zpos p~0) with (2 * Zpos p)%Z. rewrite mult_IZR. reflexivity. Qed.

Lemma IZR_xI p : IZR (Zpos p~1) = 2 * IZR (Zpos p) + 1.
Proof.
  change (Zpos p~1) with (2 * Zpos p + 1)%Z.
  rewrite plus_IZR, mult_IZR. reflexivity.
Qed.

(** One step of the shift halves the represented real. *)
Lemma shr_1_rep mrs x : rec_rep mrs x -> rec_rep (shr_1 mrs) (x / 2).
Proof.
  destruct mrs as [m r s]. unfold rec_rep. cbn [shr_m]. intros [Hm Hx].
  destruct m as [| p | p]; [| | lia].
  - destruct r, s; cbn in *; split; try lia; lra.
  - destruct p as [p | p |].
    + pose proof (IZR_xI p) as E.
      destruct r, s; cbn [shr_1 loc_of_shr_record inbetween orb shr_m] in *;
        (split; [lia |]); lra.
    + pose proof (IZR_xO p) as E.
      destruct r, s; cbn [shr_1 loc_of_shr_record inbetween orb shr_m] in *;
        (split; [lia |]); lra.
    + destruct r, s; cbn [shr_1 loc_of_shr_record inbetween orb shr_m] in *;
        (split; [lia |]); lra.
Qed.

Lemma iter_shr_1_rep p : forall mrs x,
  rec_rep mrs x -> rec_rep (SpecFloat.iter_pos shr_1 p mrs) (x / bpow (Zpos p)).
Proof.
  induction p as [p IH | p IH |]; intros mrs x Hx; cbn [SpecFloat.iter_pos].
  - replace (x / bpow (Zpos p~1))
      with (x / 2 / bpow (Zpos p) / bpow (Zpos p)).
    + apply IH, IH, shr_1_rep, Hx.
    + replace (Zpos p~1) with (Zpos p + Zpos p + 1)%Z by lia.
      rewrite bpow_succ, bpow_add. pose proof (bpow_pos (Zpos p)).
      field. lra.
  - replace (x / bpow (Zpos p~0)) with (x / bpow (Zpos p) / bpow (Zpos p)).
    + apply IH, IH, Hx.
    + replace (Zpos p~0) with (Zpos p + Zpos p)%Z by lia.
      rewrite bpow_add. pose proof (bpow_pos (Zpos p)). field. lra.
  - rewrite bpow_1. apply shr_1_rep, Hx.
Qed.

(** A shift keeps the value [x * 2^e]. *)
Lemma shr_rep mrs e n x :
  rec_rep mrs x ->
  exists x',
    rec_rep (fst (shr mrs e n)) x' /\
    snd (shr mrs e n) = (e + Z.max n 0)%Z /\
    x' * bpow (snd (shr mrs e n)) = x * bpow e.
Proof.
  intros Hx. destruct n as [| p | p]; cbn [shr fst snd].
  - exists x. split; [exact Hx |]. split; [lia | reflexivity].
  - exists (x / bpow (Zpos p)). split; [apply iter_shr_1_rep, Hx |].
    split; [lia |]. rewrite bpow_add. pose proof (bpow_pos (Zpos p)).
    field. lra.
  - exists x. split; [exact Hx |]. split; [lia | reflexivity].
Qed.

Lemma round_nearest_even_rne m x l :
  inbetween m x l -> is_rne x (round_nearest_even m l).
Proof.
  unfold is_rne.
  destruct l as [| [ | | ]]; cbn [inbetween round_nearest_even]; intros Hx.
  - subst x. replace (IZR m - IZR m) with 0 by lra. rewrite Rabs_R0.
    split; [lra | intros; lra].
  - rewrite Hx. destruct (Z.even m) eqn:Ev.
    + replace (IZR m - (IZR m + / 2)) with (- / 2) by lra.
      rewrite Rabs_Ropp, Rabs_right by lra. split; [lra | intros _; exact Ev].
    + rewrite plus_IZR.
      replace (IZR m + 1 - (IZR m + / 2)) with (/ 2) by lra.
      rewrite Rabs_right by lra. split; [lra | intros _].
      rewrite Z.even_add, Ev. reflexivity.
  - rewrite Rabs_left1 by lra. split; [lra | intros; lra].
  - rewrite plus_IZR, Rabs_right by lra. split; [lra | intros; lra].
Qed.

Lemma is_rne_mono x1 x2 k1 k2 :
  x1 <= x2 -> is_rne x1 k1 -> is_rne x2 k2 -> (k1 <= k2)%Z.
Proof.
  intros Hx [H1 E1] [H2 E2].
  destruct (Z_le_gt_dec k1 k2) as [Hle | Hgt]; [exact Hle | exfalso].
  assert (Hk : IZR k2 + 1 <= IZR k1).
  { rewrite <- plus_IZR. apply IZR_le. lia. }
  assert (A1 : IZR k1 - x1 <= / 2)
    by (pose proof (Rle_abs (IZR k1 - x1)); lra).
  assert (A2 : x2 - IZR k2 <= / 2).
  { pose proof (Rle_abs (-(IZR k2 - x2))). rewrite Rabs_Ropp in H. lra. }
  assert (T1 : Rabs (IZR k1 - x1) = / 2) by (rewrite Rabs_right; lra).
  assert (T2 : Rabs (IZR k2 - x2) = / 2) by (rewrite Rabs_left1; lra).
  specialize (E1 T1). specialize (E2 T2).
  assert (Hs : k1 = (k2 + 1)%Z).
  { apply eq_IZR. rewrite plus_IZR. lra. }
  subst k1. rewrite Z.even_add, E2 in E1. discriminate E1.
Qed.

Lemma is_rne_integer x k n : x = IZR n -> is_rne x k -> k = n.
Proof.
  intros -> [H _].
  rewrite <- minus_IZR in H.
  destruct (Z.eq_dec k n) as [E | E]; [exact E | exfalso].
  assert (1 <= Rabs (IZR (k - n))).
  { rewrite <- abs_IZR. apply IZR_le. lia. }
  lra.
Qed.

Lemma is_rne_bounds x k (a b : Z) :
  IZR a <= x <= IZR b -> is_rne x k -> (a <= k <= b)%Z.
Proof.
  intros [Ha Hb] Hk.
  assert (Ra : is_rne (IZR a) a).
  { unfold is_rne. replace (IZR a - IZR a) with 0 by lra. rewrite Rabs_R0.
    split; [lra | intros; lra]. }
  assert (Rb : is_rne (IZR b) b).
  { unfold is_rne. replace (IZR b - IZR b) with 0 by lra. rewrite Rabs_R0.
    split; [lra | intros; lra]. }
  split; [exact (is_rne_mono _ _ _ _ Ha Ra Hk)
         | exact (is_rne_mono _ _ _ _ Hb Hk Rb)].
Qed.

(** ** The format *)
Lemma fexp_eq e : fexp prec emax e = Z.max (e - 24) (-149).
Proof. reflexivity. Qed.

Lemma cexp_of_mono v1 v2 E1 E2 :
  v1 <= v2 -> cexp_of v1 E1 -> cexp_of v2 E2 -> (E1 <= E2)%Z.
Proof.
  intros Hv [[-> H1] | [G1 H1]] [[-> H2] | [G2 H2]]; try lia.
  - exfalso. assert (Hlt : bpow (E1 + 23) < bpow (-125)) by lra.
    apply bpow_lt_inv in Hlt. lia.
  - assert (Hlt : bpow (E1 + 23) < bpow (E2 + 24)) by lra.
    apply bpow_lt_inv in Hlt. lia.
Qed.

Lemma cexp_of_mantissa v E k :
  cexp_of v E -> is_rne (v / bpow E) k ->
  (0 <= k <= 16777216)%Z /\ ((-149 < E)%Z -> (8388608 <= k)%Z).
Proof.
  intros HE Hk. pose proof (bpow_pos E) as HpE.
  assert (Hup : v / bpow E <= IZR 16777216).
  { assert (v < bpow (E + 24)) as Hv.
    { destruct HE as [[-> H] | [G H]]; [| lra].
      change (-149 + 24)%Z with (-125)%Z. lra. }
    replace (E + 24)%Z with (24 + E)%Z in Hv by lia.
    rewrite bpow_add, (bpow_IZR 24) in Hv by lia.
    change (2 ^ 24)%Z with 16777216%Z in Hv.
    apply Rlt_le. apply (Rmult_lt_reg_r (bpow E)); [exact HpE |].
    unfold Rdiv. rewrite Rmult_assoc, Rinv_l by lra. lra. }
  assert (Hlo : IZR 0 <= v / bpow E).
  { assert (0 <= v) as Hv.
    { destruct HE as [[-> H] | [G H]]; [lra |].
      pose proof (bpow_pos (E + 23)). lra. }
    apply Rmult_le_pos; [exact Hv |].
    apply Rlt_le, Rinv_0_lt_compat, HpE. }
  split; [apply (is_rne_bounds (v / bpow E)); [lra | exact Hk] |].
  intros G. destruct HE as [[-> H] | [_ H]]; [lia |].
  assert (Hlo' : IZR 8388608 <= v / bpow E).
  { replace (E + 23)%Z with (23 + E)%Z in H by lia.
    rewrite bpow_add, (bpow_IZR 23) in H by lia.
    change (2 ^ 23)%Z with 8388608%Z in H.
    apply (Rmult_le_reg_r (bpow E)); [exact HpE |].
    unfold Rdiv. rewrite Rmult_assoc, Rinv_l by lra. lra. }
  apply (is_rne_bounds (v / bpow E) k 8388608 16777216); [lra | exact Hk].
Qed.

Lemma shr_nonpos mrs e n : (n <= 0)%Z -> shr mrs e n = (mrs, e).
Proof. destruct n; [reflexivity | lia | reflexivity]. Qed.

(** [binary_round_aux] rounds to nearest even, provided its input is not
    already coarser than the format. *)
Lemma binary_round_aux_rounded (mx ex : Z) (lx : location) (x : R) :
  (0 <= mx)%Z ->
  inbetween mx x lx ->
  (ex <= fexp prec emax (Zdigits2 mx + ex))%Z ->
  rounded (x * bpow ex) (binary_round_aux prec emax false mx ex lx).
Proof.
  intros Hm Hx Hex.
  set (E := fexp prec emax (Zdigits2 mx + ex)) in *.
  pose proof (inbetween_bounds mx x lx Hx) as Hb.
  assert (Hx0 : 0 <= x) by (pose proof (IZR_le 0 mx Hm); lra).
  (* the first shift *)
  unfold binary_round_aux, shr_fexp. fold E.
  destruct (rec_of_loc mx lx) as [Rm Rl].
  assert (Hrep : rec_rep (shr_record_of_loc mx lx) x)
    by (unfold rec_rep; rewrite Rm, Rl; split; assumption).
  destruct (shr_rep _ ex (E - ex) x Hrep) as (x' & Hrep' & He' & Hval).
  destruct (shr (shr_record_of_loc mx lx) ex (E - ex)) as [mrs' e'] eqn:Eshr.
  cbn [fst snd] in *.
  assert (He'' : e' = E) by lia. clear He'. subst e'.
  destruct Hrep' as [Hm' Hx'].
  pose proof (round_nearest_even_rne _ _ _ Hx') as Hrne.
  set (k := round_nearest_even (shr_m mrs') (loc_of_shr_record mrs')) in *.
  pose proof (bpow_pos E) as HpE. pose proof (bpow_pos ex) as Hpex.
  assert (Hx'v : x' = x * bpow ex / bpow E).
  { rewrite <- Hval. field. lra. }
  rewrite Hx'v in Hrne.
  (* the exponent *)
  assert (HE : cexp_of (x * bpow ex) E).
  { unfold cexp_of. unfold E in *. rewrite fexp_eq in *.
    destruct (Z.eq_dec mx 0) as [-> | Hnz].
    - cbn [Zdigits2] in *. left. split; [lia |].
      assert (ex <= -149)%Z by lia.
      pose proof (bpow_le ex (-149) ltac:(lia)).
      pose proof (bpow_lt (-149) (-125) ltac:(lia)).
      cbn in Hb. split; [nra | nra].
    - destruct (Zdigits2_bounds mx ltac:(lia)) as (Hd & Hlo & Hhi).
      set (d := Zdigits2 mx) in *.
      assert (Hhi' : IZR mx + 1 <= bpow d).
      { rewrite bpow_IZR by lia. rewrite <- plus_IZR. apply IZR_le. lia. }
      apply IZR_le in Hlo. rewrite <- bpow_IZR in Hlo by lia.
      assert (Vlo : bpow (d - 1 + ex) <= x * bpow ex)
        by (rewrite bpow_add; nra).
      assert (Vhi : x * bpow ex < bpow (d + ex))
        by (rewrite bpow_add; nra).
      destruct (Z_lt_le_dec (-149) (d + ex - 24)) as [G | G].
      + right. rewrite Z.max_l by lia. split; [lia |].
        replace (d + ex - 24 + 23)%Z with (d - 1 + ex)%Z by lia.
        replace (d + ex - 24 + 24)%Z with (d + ex)%Z by lia.
        split; assumption.
      + left. rewrite Z.max_r by lia. split; [reflexivity |].
        split; [nra |].
        pose proof (bpow_le (d + ex) (-125) ltac:(lia)). lra. }
  exists E, k. split; [exact HE |]. split; [exact Hrne |].
  (* the second shift *)
  destruct (cexp_of_mantissa _ _ _ HE Hrne) as [[Hk0 Hk1] _].
  assert (HEmin : (-149 <= E)%Z) by (unfold E; rewrite fexp_eq; lia).
  unfold pack. cbn [shr_record_of_loc].
  destruct (Z.eqb_spec k 0) as [K0 | K0].
  - rewrite K0. cbn [Zdigits2]. rewrite shr_nonpos
      by (rewrite fexp_eq; lia).
    reflexivity.
  - destruct (Z.ltb_spec k 16777216) as [K1 | K1].
    + destruct (Zdigits2_bounds k ltac:(lia)) as (Hd & Hlo & Hhi).
      assert (Hd24 : (Zdigits2 k <= 24)%Z).
      { destruct (Z_le_gt_dec (Zdigits2 k) 24) as [L | L]; [exact L |].
        exfalso.
        pose proof (Z.pow_le_mono_r 2 24 (Zdigits2 k - 1) ltac:(lia)
                      ltac:(lia)) as Hp.
        change (2 ^ 24)%Z with 16777216%Z in Hp. lia. }
      rewrite shr_nonpos by (rewrite fexp_eq; lia).
      cbn [shr_m]. destruct k as [| p | p]; try lia.
      change (emax - prec)%Z with 104%Z. reflexivity.
    + assert (Hk : k = 16777216%Z) by lia. rewrite Hk.
      assert (Hs : (fexp prec emax (Zdigits2 16777216 + E) - E = 1)%Z)
        by (rewrite fexp_eq; cbn [Zdigits2 digits2_pos]; lia).
      rewrite Hs. cbn [shr SpecFloat.iter_pos shr_1 shr_m].
      change (emax - prec)%Z with 104%Z. reflexivity.
Qed.

Lemma SFleb_finite (m1 m2 : positive) (e1 e2 : Z) :
  SFleb (S754_finite false m1 e1) (S754_finite false m2 e2) = true <->
  (e1 < e2 \/ (e1 = e2 /\ Zpos m1 <= Zpos m2))%Z.
Proof.
  unfold SFleb, SFcompare.
  rewrite Pos.compare_cont_spec, Pos2Z.inj_compare.
  destruct (Z.compare_spec e1 e2) as [He | He | He].
  - cbn [Pos.switch_Eq].
    destruct (Z.compare_spec (Zpos m1) (Zpos m2)) as [Hm | Hm | Hm];
      (split; [intros H | intros H]);
      first [reflexivity | discriminate H | (right; lia) | (exfalso; lia)].
  - split; [intros _; left; exact He | reflexivity].
  - split; [intros H; discriminate H | lia].
Qed.

Lemma valid_mantissa_upper (m : positive) (e : Z) :
  SpecFloat.bounded prec emax m e = true ->
  (Zpos m < 16777216)%Z /\ (-149 <= e <= 104)%Z.
Proof.
  unfold SpecFloat.bounded, canonical_mantissa. rewrite fexp_eq.
  change (emax - prec)%Z with 104%Z.
  intros Hb. apply andb_prop in Hb. destruct Hb as [Hc He].
  apply Z.eqb_eq in Hc. apply Z.leb_le in He.
  pose proof (digits2_upper m) as Hu.
  assert (Hd : (Zpos (digits2_pos m) <= 24)%Z) by lia.
  pose proof (Z.pow_le_mono_r 2 _ 24 ltac:(lia) Hd) as Hp.
  change (2 ^ 24)%Z with 16777216%Z in Hp. lia.
Qed.

Lemma F2R_lower (m e : Z) : (8388608 <= m)%Z -> bpow (e + 23) <= F2R m e.
Proof.
  intros Hm. unfold F2R. replace (e + 23)%Z with (23 + e)%Z by lia.
  rewrite bpow_add, (bpow_IZR 23) by lia. change (2 ^ 23)%Z with 8388608%Z.
  apply IZR_le in Hm. pose proof (bpow_pos e). nra.
Qed.

Lemma F2R_upper (m e : Z) : (m <= 16777216)%Z -> F2R m e <= bpow (e + 24).
Proof.
  intros Hm. unfold F2R. replace (e + 24)%Z with (24 + e)%Z by lia.
  rewrite bpow_add, (bpow_IZR 24) by lia. change (2 ^ 24)%Z with 16777216%Z.
  apply IZR_le in Hm. pose proof (bpow_pos e). nra.
Qed.

Lemma F2R_pos (m : positive) (e : Z) : 0 < F2R (Zpos m) e.
Proof.
  unfold F2R. pose proof (bpow_pos e).
  assert (0 < IZR (Zpos m)) by (apply IZR_lt; lia). nra.
Qed.

(** On valid floats the order of exponent and mantissa is the order of
    the values. *)
Lemma fle_value (a b : f32) :
  good a -> good b -> fle a b ->
  match b with S754_infinity _ => True | _ => Vf a <= Vf b end.
Proof.
  intros [Va Na] [Vb Nb] Hle. unfold fle in Hle.
  destruct a as [[|] | [|] | | [|] ma ea]; cbn in Na; try contradiction;
    destruct b as [[|] | [|] | | [|] mb eb]; cbn in Nb; try contradiction;
    try exact I; try discriminate Hle; cbn [Vf]; try lra.
  - pose proof (F2R_pos mb eb). lra.
  - apply SFleb_finite in Hle.
    destruct Hle as [He | [-> Hm]].
    + destruct (valid_mantissa_upper ma ea Va) as [Ha Hea].
      pose proof (Binary32Facts.normal_mantissa mb eb Vb ltac:(lia)) as Hb.
      change (2 ^ 23)%Z with 8388608%Z in Hb.
      pose proof (F2R_upper (Zpos ma) ea ltac:(lia)).
      pose proof (F2R_lower (Zpos mb) eb Hb).
      pose proof (bpow_le (ea + 24) (eb + 23) ltac:(lia)). lra.
    + unfold F2R. apply IZR_le in Hm. pose proof (bpow_pos eb). nra.
Qed.

Lemma digits_le_24 (k : Z) :
  (0 < k < 16777216)%Z -> (Zdigits2 k <= 24)%Z.
Proof.
  intros Hk. destruct (Zdigits2_bounds k ltac:(lia)) as (Hd & Hlo & Hhi).
  destruct (Z_le_gt_dec (Zdigits2 k) 24) as [L | L]; [exact L | exfalso].
  pose proof (Z.pow_le_mono_r 2 24 (Zdigits2 k - 1) ltac:(lia) ltac:(lia))
    as Hp.
  change (2 ^ 24)%Z with 16777216%Z in Hp. lia.
Qed.

Lemma digits_eq_24 (k : Z) :
  (8388608 <= k < 16777216)%Z -> Zdigits2 k = 24%Z.
Proof.
  intros Hk. pose proof (digits_le_24 k ltac:(lia)) as Hle.
  destruct (Zdigits2_bounds k ltac:(lia)) as (Hd & Hlo & Hhi).
  destruct (Z_le_gt_dec 24 (Zdigits2 k)) as [L | L]; [lia | exfalso].
  pose proof (Z.pow_le_mono_r 2 (Zdigits2 k) 23 ltac:(lia) ltac:(lia))
    as Hp.
  change (2 ^ 23)%Z with 8388608%Z in Hp. lia.
Qed.

Ltac split_pack :=
  unfold pack;
  repeat match goal with
    | |- context [Z.eqb ?a ?b] => destruct (Z.eqb_spec a b)
    | |- context [Z.ltb ?a ?b] => destruct (Z.ltb_spec a b)
    | |- context [Z.leb ?a ?b] => destruct (Z.leb_spec a b)
    end.

Lemma pack_good (k E : Z) :
  (0 <= k <= 16777216)%Z -> (-149 <= E)%Z ->
  ((-149 < E)%Z -> (8388608 <= k)%Z) ->
  good (pack k E).
Proof.
  intros Hk HE Hn. unfold good, valid, valid_binary.
  split_pack; cbn [nonneg]; try (split; [reflexivity | exact I]).
  - split; [| exact I].
    unfold SpecFloat.bounded, canonical_mantissa. rewrite fexp_eq.
    change (emax - prec)%Z with 104%Z.
    apply andb_true_intro. split; [| apply Z.leb_le; lia].
    apply Z.eqb_eq.
    assert (Hd : Zpos (digits2_pos (Z.to_pos k)) = Zdigits2 k)
      by (destruct k; try lia; reflexivity).
    rewrite Hd.
    destruct (Z.eq_dec E (-149)) as [-> | Hne].
    + pose proof (digits_le_24 k ltac:(lia)). lia.
    + rewrite (digits_eq_24 k) by lia. lia.
  - split; [| exact I].
    unfold SpecFloat.bounded, canonical_mantissa. rewrite fexp_eq.
    change (emax - prec)%Z with 104%Z.
    apply andb_true_intro. split; [| apply Z.leb_le; lia].
    apply Z.eqb_eq. cbn [digits2_pos Pos.succ]. lia.
Qed.

Lemma rounded_good v f : rounded v f -> good f.
Proof.
  intros (E & k & HE & Hk & ->).
  destruct (cexp_of_mantissa v E k HE Hk) as [Hb Hn].
  apply pack_good; [exact Hb | | exact Hn].
  destruct HE as [[-> _] | [G _]]; lia.
Qed.

Lemma pack_le_same (E k1 k2 : Z) :
  (0 <= k1 <= k2)%Z -> (k2 <= 16777216)%Z -> fle (pack k1 E) (pack k2 E).
Proof.
  intros H1 H2. unfold fle.
  split_pack; try lia;
    first [ apply SFleb_finite; rewrite ?Z2Pos.id by lia; lia
          | reflexivity ].
Qed.

Lemma pack_le_next (E1 E2 k1 k2 : Z) :
  (E1 < E2)%Z -> (0 <= k1 <= 16777216)%Z ->
  (8388608 <= k2 <= 16777216)%Z ->
  fle (pack k1 E1) (pack k2 E2).
Proof.
  intros HE H1 H2. unfold fle.
  split_pack; try lia;
    first [ apply SFleb_finite; rewrite ?Z2Pos.id by lia; lia
          | reflexivity ].
Qed.

(** Rounding is monotone. *)
Lemma rounded_mono v1 v2 f1 f2 :
  v1 <= v2 -> rounded v1 f1 -> rounded v2 f2 -> fle f1 f2.
Proof.
  intros Hv (E1 & k1 & HE1 & Hk1 & ->) (E2 & k2 & HE2 & Hk2 & ->).
  pose proof (cexp_of_mono _ _ _ _ Hv HE1 HE2) as HE.
  destruct (cexp_of_mantissa _ _ _ HE1 Hk1) as [Hb1 Hn1].
  destruct (cexp_of_mantissa _ _ _ HE2 Hk2) as [Hb2 Hn2].
  destruct (Z.eq_dec E1 E2) as [<- | Hne].
  - apply pack_le_same; [| lia]. split; [lia |].
    apply (is_rne_mono (v1 / bpow E1) (v2 / bpow E1)); try assumption.
    pose proof (bpow_pos E1) as Hp.
    apply Rmult_le_compat_r; [| exact Hv].
    apply Rlt_le, Rinv_0_lt_compat, Hp.
  - apply pack_le_next; [lia | exact Hb1 |].
    split; [apply Hn2; destruct HE1 as [[-> _] | [G _]]; lia | lia].
Qed.

(** ** Alignment and normalisation *)
Lemma pos_iter_xO (d m : positive) :
  Zpos (Pos.iter xO m d) = (Zpos m * 2 ^ Zpos d)%Z /\
  Zpos (digits2_pos (Pos.iter xO m d))
    = (Zpos (digits2_pos m) + Zpos d)%Z.
Proof.
  induction d as [| d IH] using Pos.peano_ind.
  - cbn [Pos.iter digits2_pos]. split; [lia |].
    rewrite Pos2Z.inj_succ. lia.
  - rewrite Pos.iter_succ. destruct IH as [IH1 IH2].
    cbn [digits2_pos]. rewrite !Pos2Z.inj_succ, IH2.
    rewrite Z.pow_succ_r by lia.
    change (Zpos (Pos.iter xO m d)~0) with (2 * Zpos (Pos.iter xO m d))%Z.
    rewrite IH1. split; lia.
Qed.

Lemma shl_align_spec (m : positive) (e e' : Z) :
  F2R (Zpos (fst (shl_align m e e'))) (snd (shl_align m e e'))
    = F2R (Zpos m) e /\
  snd (shl_align m e e') = Z.min e e' /\
  (Zpos (digits2_pos (fst (shl_align m e e'))) + snd (shl_align m e e')
   = Zpos (digits2_pos m) + e)%Z.
Proof.
  unfold shl_align. destruct (e' - e)%Z as [| p | p] eqn:Hd; cbn [fst snd].
  - split; [reflexivity | split; lia].
  - split; [reflexivity | split; lia].
  - destruct (pos_iter_xO p m) as [Hv Hdg]. rewrite Hv, Hdg.
    split; [| split; lia].
    unfold F2R. rewrite mult_IZR, <- bpow_IZR by lia.
    assert (Hb : bpow e = bpow (Zpos p) * bpow e')
      by (rewrite <- bpow_add; f_equal; lia).
    rewrite Hb. ring.
Qed.

Lemma rounded_zero : rounded 0 (S754_zero false).
Proof.
  exists (-149)%Z, 0%Z. split; [| split; [| reflexivity]].
  - left. split; [reflexivity |]. pose proof (bpow_pos (-125)). lra.
  - unfold is_rne, Rdiv. rewrite Rmult_0_l.
    replace (IZR 0 - 0) with 0 by lra. rewrite Rabs_R0.
    split; [lra | intros; lra].
Qed.

Lemma binary_round_rounded (m : positive) (e : Z) :
  rounded (F2R (Zpos m) e) (binary_round prec emax false m e).
Proof.
  unfold binary_round.
  destruct (shl_align_spec m e (fexp prec emax (Zpos (digits2_pos m) + e)))
    as (Hv & He & Hd).
  destruct (shl_align m e (fexp prec emax (Zpos (digits2_pos m) + e)))
    as [mz ez]. cbn [fst snd] in *.
  rewrite <- Hv. unfold F2R.
  apply binary_round_aux_rounded; [lia | reflexivity |].
  cbn [Zdigits2]. rewrite Hd. lia.
Qed.

Lemma binary_normalize_rounded (S e : Z) :
  (0 <= S)%Z -> rounded (F2R S e) (binary_normalize prec emax S e false).
Proof.
  intros HS. destruct S as [| p | p]; [| | lia]; cbn [binary_normalize].
  - unfold F2R. rewrite Rmult_0_l. apply rounded_zero.
  - apply binary_round_rounded.
Qed.

(** A float aligned down to a smaller exponent. *)
Lemma aligned_value (m : positive) (e ez : Z) :
  (ez <= e)%Z -> F2R (Zpos (fst (shl_align m e ez))) ez = F2R (Zpos m) e.
Proof.
  intros Hle. destruct (shl_align_spec m e ez) as (Hv & He & _).
  rewrite <- Hv. f_equal. lia.
Qed.

Lemma good_cases f :
  good f -> finite_nonneg f \/ f = S754_infinity false.
Proof.
  intros [_ N]. destruct f as [[|] | [|] | | [|] m e]; cbn in *;
    try contradiction; auto.
Qed.

(** A valid float is its own rounding. *)
Lemma rounded_self f : good f -> finite_nonneg f -> rounded (Vf f) f.
Proof.
  intros [V _] Hf. destruct f as [[|] | [|] | | [|] m e]; cbn in Hf;
    try contradiction; cbn [Vf].
  - apply rounded_zero.
  - destruct (valid_mantissa_upper m e V) as [Hm He].
    exists e, (Zpos m). split; [| split].
    + destruct (Z.eq_dec e (-149)) as [-> | Hne].
      * left. split; [reflexivity |]. pose proof (F2R_pos m (-149)).
        split; [lra |].
        unfold F2R. change (-125)%Z with (24 + -149)%Z.
        rewrite bpow_add, (bpow_IZR 24) by lia.
        change (2 ^ 24)%Z with 16777216%Z.
        apply IZR_lt in Hm. pose proof (bpow_pos (-149)). nra.
      * right. split; [lia |].
        pose proof (Binary32Facts.normal_mantissa m e V ltac:(lia)) as Hn.
        change (2 ^ 23)%Z with 8388608%Z in Hn.
        split; [apply F2R_lower, Hn |].
        unfold F2R. replace (e + 24)%Z with (24 + e)%Z by lia.
        rewrite bpow_add, (bpow_IZR 24) by lia.
        change (2 ^ 24)%Z with 16777216%Z.
        apply IZR_lt in Hm. pose proof (bpow_pos e). nra.
    + unfold F2R, is_rne. pose proof (bpow_pos e).
      replace (IZR (Zpos m) * bpow e / bpow e) with (IZR (Zpos m))
        by (field; lra).
      replace (IZR (Zpos m) - IZR (Zpos m)) with 0 by lra. rewrite Rabs_R0.
      split; [lra | intros; lra].
    + unfold pack.
      destruct (Z.eqb_spec (Zpos m) 0); [lia |].
      destruct (Z.ltb_spec (Zpos m) 16777216); [| lia].
      destruct (Z.leb_spec e 104); [| lia].
      reflexivity.
Qed.

(** ** Addition and subtraction *)
Lemma SFadd_rounded (a b : f32) :
  good a -> good b -> finite_nonneg a -> finite_nonneg b ->
  rounded (Vf a + Vf b) (SFadd prec emax a b).
Proof.
  intros Ga Gb Fa Fb.
  destruct a as [[|] | [|] | | [|] ma ea]; cbn in Fa; try contradiction;
    destruct b as [[|] | [|] | | [|] mb eb]; cbn in Fb; try contradiction.
  - cbn. replace (0 + 0) with 0 by lra. apply rounded_zero.
  - cbn [SFadd]. replace (Vf (S754_zero false)) with 0 by reflexivity.
    rewrite Rplus_0_l. apply rounded_self; [exact Gb | exact I].
  - cbn [SFadd]. replace (Vf (S754_zero false)) with 0 by reflexivity.
    rewrite Rplus_0_r. apply rounded_self; [exact Ga | exact I].
  - cbn [SFadd Vf cond_Zopp].
    set (ez := Z.min ea eb).
    rewrite <- (aligned_value ma ea ez) by (unfold ez; lia).
    rewrite <- (aligned_value mb eb ez) by (unfold ez; lia).
    unfold F2R at 1 2. rewrite <- Rmult_plus_distr_r, <- plus_IZR.
    apply binary_normalize_rounded. lia.
Qed.

Lemma SFsub_rounded (a c : f32) :
  good a -> good c -> finite_nonneg a -> finite_nonneg c ->
  Vf c <= Vf a ->
  rounded (Vf a - Vf c) (SFsub prec emax a c).
Proof.
  intros Ga Gc Fa Fc Hle.
  destruct a as [[|] | [|] | | [|] ma ea]; cbn in Fa; try contradiction;
    destruct c as [[|] | [|] | | [|] mc ec]; cbn in Fc; try contradiction.
  - cbn. replace (0 - 0) with 0 by lra. apply rounded_zero.
  - exfalso. cbn [Vf] in Hle. pose proof (F2R_pos mc ec). lra.
  - cbn [SFsub]. replace (Vf (S754_zero false)) with 0 by reflexivity.
    rewrite Rminus_0_r. apply rounded_self; [exact Ga | exact I].
  - cbn [SFsub Vf cond_Zopp] in *.
    set (ez := Z.min ea ec).
    rewrite <- (aligned_value ma ea ez) in * by (unfold ez; lia).
    rewrite <- (aligned_value mc ec ez) in * by (unfold ez; lia).
    unfold F2R in *.
    rewrite <- Rmult_minus_distr_r, <- minus_IZR.
    apply binary_normalize_rounded.
    pose proof (bpow_pos ez) as Hp.
    apply Rmult_le_reg_r in Hle; [| exact Hp].
    apply le_IZR in Hle. lia.
Qed.

(** ** Division *)
Lemma new_location_inbetween (nb k q : Z) :
  (0 < nb)%Z -> (0 <= k < nb)%Z ->
  inbetween q (IZR q + IZR k / IZR nb) (new_location nb k).
Proof.
  intros Hnb Hk.
  assert (Rnb : 0 < IZR nb) by (apply IZR_lt; lia).
  set (f := IZR k / IZR nb).
  assert (Hf : f * IZR nb = IZR k) by (unfold f; field; lra).
  unfold new_location, new_location_even, new_location_odd.
  destruct (Z.even nb) eqn:Ev; destruct (Z.eqb_spec k 0) as [K0 | K0].
  - cbn [inbetween]. subst k. unfold f, Rdiv. rewrite Rmult_0_l. lra.
  - assert (0 < IZR k) by (apply IZR_lt; lia).
    destruct (Z.compare_spec (2 * k) nb) as [C | C | C]; cbn [inbetween].
    + assert (2 * IZR k = IZR nb) by (rewrite <- C, mult_IZR; reflexivity).
      nra.
    + apply IZR_lt in C. rewrite mult_IZR in C. nra.
    + apply IZR_lt in C. rewrite mult_IZR in C.
      assert (IZR k < IZR nb) by (apply IZR_lt; lia). nra.
  - cbn [inbetween]. subst k. unfold f, Rdiv. rewrite Rmult_0_l. lra.
  - assert (0 < IZR k) by (apply IZR_lt; lia).
    assert (Hodd : (2 * k <> nb)%Z).
    { intros E. rewrite <- E, Z.even_mul in Ev. discriminate Ev. }
    destruct (Z.compare_spec (2 * k + 1) nb) as [C | C | C]; cbn [inbetween].
    + assert (2 * IZR k + 1 = IZR nb)
        by (rewrite <- C, plus_IZR, mult_IZR; reflexivity).
      nra.
    + apply IZR_lt in C. rewrite plus_IZR, mult_IZR in C. nra.
    + assert (C' : (nb < 2 * k)%Z) by lia.
      apply IZR_lt in C'. rewrite mult_IZR in C'.
      assert (IZR k < IZR nb) by (apply IZR_lt; lia). nra.
Qed.

Lemma Zdigits2_nonneg (q : Z) : (0 <= Zdigits2 q)%Z.
Proof. destruct q; cbn; lia. Qed.

Lemma Zdigits2_lower_bound (q t : Z) :
  (0 < q)%Z -> (2 ^ (t - 1) <= q)%Z -> (1 <= t)%Z -> (t <= Zdigits2 q)%Z.
Proof.
  intros Hq Hlo Ht.
  destruct (Zdigits2_bounds q Hq) as (Hd & _ & Hhi).
  assert (Hlt : (2 ^ (t - 1) < 2 ^ Zdigits2 q)%Z) by lia.
  apply Z.pow_lt_mono_r_iff in Hlt; lia.
Qed.

Lemma SFdiv_core_spec (m1 m2 : positive) (e1 e2 : Z) :
  exists x,
    let '(q, e', l) := SFdiv_core_binary prec emax (Zpos m1) e1 (Zpos m2) e2 in
    (0 <= q)%Z /\ inbetween q x l /\
    x * bpow e' = F2R (Zpos m1) e1 / F2R (Zpos m2) e2 /\
    (e' <= fexp prec emax (Zdigits2 q + e'))%Z.
Proof.
  unfold SFdiv_core_binary.
  set (d1 := Zdigits2 (Zpos m1)). set (d2 := Zdigits2 (Zpos m2)).
  set (e' := Z.min (fexp prec emax (d1 + e1 - (d2 + e2))) (e1 - e2)).
  set (s := (e1 - e2 - e')%Z).
  assert (Hs : (0 <= s)%Z) by (unfold s, e'; lia).
  set (m' := match s with
             | 0%Z => Zpos m1
             | Zpos _ => Z.shiftl (Zpos m1) s
             | Zneg _ => 0%Z
             end).
  assert (Hm' : m' = (Zpos m1 * 2 ^ s)%Z).
  { unfold m'. destruct s as [| p | p]; [lia | | lia].
    apply Z.shiftl_mul_pow2. lia. }
  pose proof (Z_div_mod m' (Zpos m2) ltac:(lia)) as Hdm.
  destruct (Z.div_eucl m' (Zpos m2)) as [q r].
  destruct Hdm as [Hqr Hr].
  assert (Hp2 : (0 < 2 ^ s)%Z) by (apply Z.pow_pos_nonneg; lia).
  assert (Hq : (0 <= q)%Z) by nia.
  exists (IZR q + IZR r / IZR (Zpos m2)).
  split; [exact Hq |].
  split; [apply new_location_inbetween; lia |].
  assert (R2 : 0 < IZR (Zpos m2)) by (apply IZR_lt; lia).
  split.
  - assert (Hx : IZR q + IZR r / IZR (Zpos m2) = IZR m' / IZR (Zpos m2)).
    { rewrite Hqr, plus_IZR, mult_IZR. field. lra. }
    rewrite Hx, Hm', mult_IZR, <- bpow_IZR by lia.
    unfold F2R.
    assert (Hb : bpow e1 = bpow s * bpow e' * bpow e2).
    { rewrite <- !bpow_add. f_equal. unfold s. lia. }
    rewrite Hb. pose proof (bpow_pos e2). field. lra.
  - (* the quotient has enough digits *)
    destruct (Zdigits2_bounds (Zpos m1) ltac:(lia)) as (Hd1 & Hlo1 & _).
    destruct (Zdigits2_bounds (Zpos m2) ltac:(lia)) as (Hd2 & _ & Hhi2).
    fold d1 in Hd1, Hlo1. fold d2 in Hd2, Hhi2.
    assert (Hdig : (d1 + s - d2 <= Zdigits2 q)%Z).
    { destruct (Z_le_gt_dec (d1 + s - d2) 0) as [T | T].
      - pose proof (Zdigits2_nonneg q). lia.
      - assert (Hprod : (2 ^ (d1 + s - d2 - 1) * Zpos m2 <= m')%Z).
        { rewrite Hm'.
          assert (Hpow : (2 ^ (d1 - 1) * 2 ^ s
                          = 2 ^ (d1 + s - d2 - 1) * 2 ^ d2)%Z).
          { rewrite <- !Z.pow_add_r by lia. f_equal. lia. }
          assert (Hp : (0 < 2 ^ (d1 + s - d2 - 1))%Z)
            by (apply Z.pow_pos_nonneg; lia).
          apply Z.le_trans with (2 ^ (d1 + s - d2 - 1) * 2 ^ d2)%Z.
          - apply Z.mul_le_mono_nonneg_l; lia.
          - rewrite <- Hpow. apply Z.mul_le_mono_nonneg_r; lia. }
        assert (Hqlo : (2 ^ (d1 + s - d2 - 1) <= q)%Z).
        { assert (0 < 2 ^ (d1 + s - d2 - 1))%Z
            by (apply Z.pow_pos_nonneg; lia).
          nia. }
        apply Zdigits2_lower_bound; [| exact Hqlo | lia].
        assert (0 < 2 ^ (d1 + s - d2 - 1))%Z
          by (apply Z.pow_pos_nonneg; lia).
        lia. }
    assert (He'def : e' = Z.min (Z.max (d1 + e1 - (d2 + e2) - 24) (-149))
                           (e1 - e2)) by reflexivity.
    assert (Hsdef : s = (e1 - e2 - e')%Z) by reflexivity.
    rewrite fexp_eq. lia.
Qed.

Lemma SFdiv_rounded (a : f32) (mk : positive) (ek : Z) :
  good a -> finite_nonneg a ->
  rounded (Vf a / F2R (Zpos mk) ek)
    (SFdiv prec emax a (S754_finite false mk ek)).
Proof.
  intros Ga Fa.
  destruct a as [[|] | [|] | | [|] ma ea]; cbn in Fa; try contradiction.
  - cbn. unfold Rdiv. rewrite Rmult_0_l. apply rounded_zero.
  - cbn [SFdiv Vf xorb].
    destruct (SFdiv_core_spec ma mk ea ek) as (x & Hx).
    destruct (SFdiv_core_binary prec emax (Zpos ma) ea (Zpos mk) ek)
      as [[q e'] l].
    destruct Hx as (Hq & Hin & Hv & He).
    rewrite <- Hv. apply binary_round_aux_rounded; assumption.
Qed.

(** ** The operations are monotone *)
Lemma good_inf : good (S754_infinity false).
Proof. split; [reflexivity | exact I]. Qed.

Lemma fle_inf_r a : good a -> fle a (S754_infinity false).
Proof.
  intros [_ N]. destruct a as [[|] | [|] | | [|] m e]; cbn in N;
    try contradiction; reflexivity.
Qed.

Lemma fle_inf_l b : good b -> fle (S754_infinity false) b ->
  b = S754_infinity false.
Proof.
  intros [_ N] H. destruct b as [[|] | [|] | | [|] m e]; cbn in N;
    try contradiction; try discriminate H; reflexivity.
Qed.

Lemma fle_finite a b :
  good a -> finite_nonneg b -> fle a b -> finite_nonneg a.
Proof.
  intros Ga Fb H. destruct (good_cases a Ga) as [Fa | ->]; [exact Fa |].
  destruct b as [[|] | [|] | | [|] m e]; cbn in Fb; try contradiction;
    discriminate H.
Qed.

Lemma fle_values a b :
  good a -> good b -> finite_nonneg b -> fle a b -> Vf a <= Vf b.
Proof.
  intros Ga Gb Fb H. pose proof (fle_value a b Ga Gb H) as Hv.
  destruct b as [[|] | [|] | | [|] m e]; cbn in Fb; try contradiction;
    exact Hv.
Qed.

Lemma Vf_nonneg a : finite_nonneg a -> 0 <= Vf a.
Proof.
  destruct a as [[|] | [|] | | [|] m e]; cbn; try contradiction;
    intros _; [lra |]. pose proof (F2R_pos m e). lra.
Qed.

Lemma SFadd_inf a b :
  good a -> good b ->
  a = S754_infinity false \/ b = S754_infinity false ->
  SFadd prec emax a b = S754_infinity false.
Proof.
  intros [_ Na] [_ Nb] [-> | ->].
  - destruct b as [[|] | [|] | | [|] m e]; cbn in Nb; try contradiction;
      reflexivity.
  - destruct a as [[|] | [|] | | [|] m e]; cbn in Na; try contradiction;
      reflexivity.
Qed.

Lemma SFadd_good a b : good a -> good b -> good (SFadd prec emax a b).
Proof.
  intros Ga Gb.
  destruct (good_cases a Ga) as [Fa | Ia];
    [destruct (good_cases b Gb) as [Fb | Ib] |].
  - exact (rounded_good _ _ (SFadd_rounded a b Ga Gb Fa Fb)).
  - rewrite (SFadd_inf a b Ga Gb (or_intror Ib)). apply good_inf.
  - rewrite (SFadd_inf a b Ga Gb (or_introl Ia)). apply good_inf.
Qed.

Lemma SFadd_mono a a' b b' :
  good a -> good a' -> good b -> good b' ->
  fle a a' -> fle b b' ->
  fle (SFadd prec emax a b) (SFadd prec emax a' b').
Proof.
  intros Ga Ga' Gb Gb' Ha Hb.
  destruct (good_cases a' Ga') as [Fa' | Ia'];
    [destruct (good_cases b' Gb') as [Fb' | Ib'] |].
  - pose proof (fle_finite a a' Ga Fa' Ha) as Fa.
    pose proof (fle_finite b b' Gb Fb' Hb) as Fb.
    apply (rounded_mono (Vf a + Vf b) (Vf a' + Vf b')).
    + pose proof (fle_values a a' Ga Ga' Fa' Ha).
      pose proof (fle_values b b' Gb Gb' Fb' Hb). lra.
    + apply SFadd_rounded; assumption.
    + apply SFadd_rounded; assumption.
  - rewrite (SFadd_inf a' b' Ga' Gb' (or_intror Ib')).
    apply fle_inf_r, SFadd_good; assumption.
  - rewrite (SFadd_inf a' b' Ga' Gb' (or_introl Ia')).
    apply fle_inf_r, SFadd_good; assumption.
Qed.

Lemma SFsub_inf c :
  finite_nonneg c ->
  SFsub prec emax (S754_infinity false) c = S754_infinity false.
Proof.
  destruct c as [[|] | [|] | | [|] m e]; cbn; try contradiction; reflexivity.
Qed.

Lemma SFsub_good a c :
  good a -> good c -> finite_nonneg c -> fle c a ->
  good (SFsub prec emax a c).
Proof.
  intros Ga Gc Fc Hc.
  destruct (good_cases a Ga) as [Fa | ->].
  - apply (rounded_good (Vf a - Vf c)).
    apply SFsub_rounded; try assumption.
    apply fle_values; assumption.
  - rewrite (SFsub_inf c Fc). apply good_inf.
Qed.

Lemma SFsub_mono a a' c :
  good a -> good a' -> good c -> finite_nonneg c ->
  fle c a -> fle a a' ->
  fle (SFsub prec emax a c) (SFsub prec emax a' c).
Proof.
  intros Ga Ga' Gc Fc Hc Ha.
  destruct (good_cases a' Ga') as [Fa' | ->].
  - pose proof (fle_finite a a' Ga Fa' Ha) as Fa.
    pose proof (fle_values c a Gc Ga Fa Hc) as Vc.
    pose proof (fle_values a a' Ga Ga' Fa' Ha) as Va.
    apply (rounded_mono (Vf a - Vf c) (Vf a' - Vf c)); [lra | |];
      apply SFsub_rounded; try assumption; lra.
  - rewrite (SFsub_inf c Fc).
    apply fle_inf_r, SFsub_good; assumption.
Qed.

Lemma SFdiv_good a mk ek :
  good a -> good (SFdiv prec emax a (S754_finite false mk ek)).
Proof.
  intros Ga. destruct (good_cases a Ga) as [Fa | ->].
  - exact (rounded_good _ _ (SFdiv_rounded a mk ek Ga Fa)).
  - apply good_inf.
Qed.

Lemma SFdiv_mono a a' mk ek :
  good a -> good a' -> fle a a' ->
  fle (SFdiv prec emax a (S754_finite false mk ek))
      (SFdiv prec emax a' (S754_finite false mk ek)).
Proof.
  intros Ga Ga' Ha.
  destruct (good_cases a' Ga') as [Fa' | ->].
  - pose proof (fle_finite a a' Ga Fa' Ha) as Fa.
    pose proof (fle_values a a' Ga Ga' Fa' Ha) as Va.
    apply (rounded_mono (Vf a / F2R (Zpos mk) ek)
                        (Vf a' / F2R (Zpos mk) ek)).
    + pose proof (F2R_pos mk ek) as Hk.
      apply Rmult_le_compat_r; [| exact Va].
      apply Rlt_le, Rinv_0_lt_compat, Hk.
    + apply SFdiv_rounded; assumption.
    + apply SFdiv_rounded; assumption.
  - change (SFdiv prec emax (S754_infinity false) (S754_finite false mk ek))
      with (S754_infinity false).
    apply fle_inf_r, SFdiv_good; assumption.
Qed.

Lemma SFltb_finite (m1 m2 : positive) (e1 e2 : Z) :
  SFltb (S754_finite false m1 e1) (S754_finite false m2 e2) = true <->
  (e1 < e2 \/ (e1 = e2 /\ Zpos m1 < Zpos m2))%Z.
Proof.
  unfold SFltb, SFcompare.
  rewrite Pos.compare_cont_spec, Pos2Z.inj_compare.
  destruct (Z.compare_spec e1 e2) as [He | He | He].
  - cbn [Pos.switch_Eq].
    destruct (Z.compare_spec (Zpos m1) (Zpos m2)) as [Hm | Hm | Hm];
      (split; [intros H | intros H]);
      first [reflexivity | discriminate H | (right; lia) | (exfalso; lia)].
  - split; [intros _; left; exact He | reflexivity].
  - split; [intros H; discriminate H | lia].
Qed.

Lemma fle_refl a : good a -> fle a a.
Proof.
  intros [_ N]. destruct a as [[|] | [|] | | [|] m e]; cbn in N;
    try contradiction; try reflexivity.
  apply SFleb_finite. lia.
Qed.

Lemma fle_trans a b c :
  good a -> good b -> good c -> fle a b -> fle b c -> fle a c.
Proof.
  intros [_ Na] [_ Nb] [_ Nc] Hab Hbc. unfold fle in *.
  destruct a as [[|] | [|] | | [|] ma ea]; cbn in Na; try contradiction;
    destruct b as [[|] | [|] | | [|] mb eb]; cbn in Nb; try contradiction;
    try discriminate Hab;
    destruct c as [[|] | [|] | | [|] mc ec]; cbn in Nc; try contradiction;
    try discriminate Hbc; try reflexivity.
  apply SFleb_finite in Hab, Hbc. apply SFleb_finite. lia.
Qed.

Lemma fle_not_ltb a c : good a -> good c -> fle c a -> SFltb a c = false.
Proof.
  intros [_ Na] [_ Nc] H. unfold fle in H.
  destruct a as [[|] | [|] | | [|] ma ea]; cbn in Na; try contradiction;
    destruct c as [[|] | [|] | | [|] mc ec]; cbn in Nc; try contradiction;
    try discriminate H; try reflexivity.
  destruct (SFltb (S754_finite false ma ea) (S754_finite false mc ec))
    eqn:Hlt; [exfalso | reflexivity].
  apply SFltb_finite in Hlt. apply SFleb_finite in H. lia.
Qed.

Lemma fle_good_r a b : good a -> valid b -> fle a b ->
  a <> S754_zero false -> good b.
Proof.
  intros [_ Na] Vb H Hnz. split; [exact Vb |]. unfold fle in H.
  destruct a as [[|] | [|] | | [|] ma ea]; cbn in Na; try contradiction;
    try congruence;
    destruct b as [[|] | [|] | | [|] mb eb]; try discriminate H; exact I.
Qed.

Lemma SFabs_nonneg a : good a -> SFabs a = a.
Proof.
  intros [_ N]. destruct a as [[|] | [|] | | [|] m e]; cbn in N;
    try contradiction; reflexivity.
Qed.

(** A valid float of value at least [1/20] is at least [0.05f]. *)
Lemma rate_above_edge (r : f32) :
  valid r -> value_ge r 0.05 ->
  good r /\ fle (literal 0.05) r /\ r <> S754_zero false.
Proof.
  rewrite Binary32Facts.literal_0_05.
  intros V Hge.
  destruct r as [[|] | [|] | | [|] m e]; cbn [value_ge] in Hge;
    try contradiction; try discriminate Hge;
    try (exfalso; unfold Qle in Hge; cbn in Hge; lia).
  - split; [apply good_inf |]. split; [reflexivity | discriminate].
  - exfalso. unfold finite_value, Qle in Hge.
    destruct e as [| p | p]; cbn [Qnum Qden Qopp] in Hge; lia.
  - split; [split; [exact V | exact I] |]. split; [| discriminate].
    apply SFleb_finite.
    destruct (valid_mantissa_upper m e V) as [Hm He].
    destruct (Z_lt_le_dec (-28) e) as [G | G]; [left; exact G | right].
    unfold finite_value, Qle in Hge.
    destruct e as [| p | p]; try lia. cbn [Qnum Qden] in Hge.
    rewrite Pos2Z.inj_pow in Hge.
    destruct (Z.eq_dec (Zpos p) 28) as [E28 | N28].
    + rewrite E28 in Hge. change (2 ^ 28)%Z with 268435456%Z in Hge.
      split; lia.
    + exfalso.
      assert (Hp : (2 ^ 29 <= 2 ^ Zpos p)%Z)
        by (apply Z.pow_le_mono_r; lia).
      change (2 ^ 29)%Z with 536870912%Z in Hp. lia.
Qed.

Lemma literal_0_1 : literal 0.1 = S754_finite false 13421773 (-27).
Proof. vm_compute. reflexivity. Qed.

Lemma literal_20 : literal 20 = S754_finite false 10485760 (-19).
Proof. vm_compute. reflexivity. Qed.

Lemma literal_40 : literal 40 = S754_finite false 10485760 (-18).
Proof. vm_compute. reflexivity. Qed.

Lemma good_edge : good (S754_finite false 13421773 (-28)).
Proof. split; [vm_compute; reflexivity | exact I]. Qed.

Lemma good_0_1 : good (S754_finite false 13421773 (-27)).
Proof. split; [vm_compute; reflexivity | exact I]. Qed.

(** Above the dead zone the source evaluates the formula. *)
Lemma curve_is_formula (pw : f32 -> f32 -> f32) (r : f32) :
  good r -> fle (literal 0.05) r ->
  rateToVelocityCurve (FA := arith_with pw) r = formula_above_dead_zone pw r.
Proof.
  intros G L.
  unfold rateToVelocityCurve, formula_above_dead_zone.
  cbn [fabsf fltb flit fsub powf fdiv fadd arith_with].
  rewrite (SFabs_nonneg r G).
  rewrite Binary32Facts.literal_0_05 in *.
  rewrite (fle_not_ltb r _ G good_edge L). reflexivity.
Qed.

Lemma formula_mono (pw : f32 -> f32 -> f32) (r1 r2 : f32) :
  powf_monotone pw ->
  good r1 -> good r2 -> fle (literal 0.05) r1 -> fle r1 r2 ->
  fle (formula_above_dead_zone pw r1) (formula_above_dead_zone pw r2).
Proof.
  intros Hpw G1 G2 L1 Hle.
  rewrite Binary32Facts.literal_0_05 in L1.
  pose proof (fle_trans _ _ _ good_edge G1 G2 L1 Hle) as L2.
  unfold formula_above_dead_zone.
  rewrite Binary32Facts.literal_0_05, literal_0_1, literal_20, literal_40.
  set (c := S754_finite false 13421773 (-28)) in *.
  assert (Fc : finite_nonneg c) by exact I.
  pose proof (SFsub_good r1 c G1 good_edge Fc L1) as Gx1.
  pose proof (SFsub_good r2 c G2 good_edge Fc L2) as Gx2.
  pose proof (SFsub_mono r1 r2 c G1 G2 good_edge Fc L1 Hle) as Hx.
  set (x1 := SFsub prec emax r1 c) in *.
  set (x2 := SFsub prec emax r2 c) in *.
  destruct (Hpw x1 x2 Gx1 Gx2 Hx) as (Gp1 & Gp2 & Hp).
  apply SFadd_mono.
  - apply SFadd_good; [exact good_0_1 | apply SFdiv_good, Gx1].
  - apply SFadd_good; [exact good_0_1 | apply SFdiv_good, Gx2].
  - apply SFdiv_good, Gp1.
  - apply SFdiv_good, Gp2.
  - apply SFadd_mono; try exact good_0_1;
      try (apply SFdiv_good; assumption).
    + apply fle_refl, good_0_1.
    + apply SFdiv_mono; assumption.
  - apply SFdiv_mono; assumption.
Qed.

(** C4, amended: in binary32, for valid rates [0.05 <= r1 <= r2] the
    curve is the formula [0.1f + x/20 + powf(x, 1.5f)/40],
    [x = r - 0.05f], rounded at each operation, and it is non-decreasing:
    [curve(r1) <= curve(r2)], for every [powf] that is non-decreasing in
    its base. *)
Theorem curve_nondecreasing (pw : f32 -> f32 -> f32) (r1 r2 : f32) :
  powf_monotone pw ->
  valid r1 -> valid r2 ->
  value_ge r1 0.05 -> SFleb r1 r2 = true ->
  SFleb (rateToVelocityCurve (FA := arith_with pw) r1)
        (rateToVelocityCurve (FA := arith_with pw) r2) = true /\
  rateToVelocityCurve (FA := arith_with pw) r1
    = formula_above_dead_zone pw r1 /\
  rateToVelocityCurve (FA := arith_with pw) r2
    = formula_above_dead_zone pw r2.
Proof.
  intros Hpw V1 V2 Hge Hle.
  destruct (rate_above_edge r1 V1 Hge) as (G1 & L1 & Nz1).
  pose proof (fle_good_r r1 r2 G1 V2 Hle Nz1) as G2.
  assert (L2 : fle (literal 0.05) r2).
  { rewrite Binary32Facts.literal_0_05 in *.
    exact (fle_trans _ _ _ good_edge G1 G2 L1 Hle). }
  rewrite (curve_is_formula pw r1 G1 L1), (curve_is_formula pw r2 G2 L2).
  split; [| split; reflexivity].
  exact (formula_mono pw r1 r2 Hpw G1 G2 L1 Hle).
Qed.

(** ** Multiplication and square root *)
Lemma SFmul_rounded (a b : f32) :
  good a -> good b -> finite_nonneg a -> finite_nonneg b ->
  rounded (Vf a * Vf b) (SFmul prec emax a b).
Proof.
  intros [Va _] [Vb _] Fa Fb.
  destruct a as [[|] | [|] | | [|] ma ea]; cbn in Fa; try contradiction;
    destruct b as [[|] | [|] | | [|] mb eb]; cbn in Fb; try contradiction;
    cbn [SFmul Vf xorb];
    try (rewrite ?Rmult_0_l, ?Rmult_0_r; apply rounded_zero).
  replace (F2R (Zpos ma) ea * F2R (Zpos mb) eb)
    with (IZR (Zpos (ma * mb)) * bpow (ea + eb)).
  2:{ unfold F2R. rewrite Pos2Z.inj_mul, mult_IZR, bpow_add. ring. }
  apply binary_round_aux_rounded; [lia | reflexivity |].
  destruct (valid_mantissa_upper ma ea Va) as [_ Hea].
  destruct (valid_mantissa_upper mb eb Vb) as [_ Heb].
  rewrite fexp_eq.
  destruct (Z.eq_dec ea (-149)) as [Ea | Ea];
    [destruct (Z.eq_dec eb (-149)) as [Eb | Eb]; [lia |] |].
  - pose proof (Binary32Facts.normal_mantissa mb eb Vb ltac:(lia)) as Hn.
    change (2 ^ 23)%Z with 8388608%Z in Hn.
    assert (Hd : (24 <= Zdigits2 (Zpos (ma * mb)))%Z).
    { apply Zdigits2_lower_bound; [lia | | lia].
      change (2 ^ (24 - 1))%Z with 8388608%Z. rewrite Pos2Z.inj_mul. nia. }
    lia.
  - pose proof (Binary32Facts.normal_mantissa ma ea Va ltac:(lia)) as Hn.
    change (2 ^ 23)%Z with 8388608%Z in Hn.
    assert (Hd : (24 <= Zdigits2 (Zpos (ma * mb)))%Z).
    { apply Zdigits2_lower_bound; [lia | | lia].
      change (2 ^ (24 - 1))%Z with 8388608%Z. rewrite Pos2Z.inj_mul. nia. }
    lia.
Qed.

Lemma sqrt_above (a y : R) : 0 <= a -> a * a < y -> a < sqrt y.
Proof.
  intros Ha H. rewrite <- (sqrt_square a Ha).
  apply sqrt_lt_1_alt. split; [nra | exact H].
Qed.

Lemma sqrt_below (b y : R) : 0 <= b -> 0 <= y -> y < b * b -> sqrt y < b.
Proof.
  intros Hb Hy H. rewrite <- (sqrt_square b Hb).
  apply sqrt_lt_1_alt. split; [exact Hy | exact H].
Qed.

Lemma SFsqrt_core_spec (m : positive) (e : Z) :
  exists x,
    let '(q, e', l) := SFsqrt_core_binary prec emax (Zpos m) e in
    (0 <= q)%Z /\ inbetween q x l /\
    x * bpow e' = sqrt (F2R (Zpos m) e) /\
    (e' <= fexp prec emax (Zdigits2 q + e'))%Z.
Proof.
  unfold SFsqrt_core_binary.
  set (d := Zdigits2 (Zpos m)).
  set (e' := Z.min (fexp prec emax (Z.div2 (d + e + 1))) (Z.div2 e)).
  set (s := (e - 2 * e')%Z).
  assert (He'def : e' = Z.min (Z.max ((d + e + 1) / 2 - 24) (-149)) (e / 2)).
  { unfold e'. rewrite fexp_eq, !Z.div2_div. reflexivity. }
  assert (Hsdef : s = (e - 2 * e')%Z) by reflexivity.
  clearbody s e'.
  pose proof (Z.mul_div_le e 2 ltac:(lia)) as Hdiv1.
  pose proof (Z.mul_div_le (d + e + 1) 2 ltac:(lia)) as Hdiv2.
  pose proof (Z.mul_succ_div_gt (d + e + 1) 2 ltac:(lia)) as Hdiv3.
  assert (Hs : (0 <= s)%Z) by lia.
  set (m' := match s with
             | 0%Z => Zpos m
             | Zpos _ => Z.shiftl (Zpos m) s
             | Zneg _ => 0%Z
             end).
  assert (Hm' : m' = (Zpos m * 2 ^ s)%Z).
  { unfold m'. destruct s as [| p | p]; [lia | | lia].
    apply Z.shiftl_mul_pow2. lia. }
  assert (Hp2 : (0 < 2 ^ s)%Z) by (apply Z.pow_pos_nonneg; lia).
  assert (Hm'pos : (0 < m')%Z) by nia.
  pose proof (Z.sqrtrem_spec m' ltac:(lia)) as Hsq.
  destruct (Z.sqrtrem m') as [q r]. destruct Hsq as [Hqr Hr].
  assert (Hq : (0 <= q)%Z) by lia.
  assert (Rq : 0 <= IZR q) by (apply IZR_le; lia).
  assert (Rm' : IZR m' = IZR q * IZR q + IZR r)
    by (rewrite Hqr, plus_IZR, mult_IZR; reflexivity).
  assert (Rr : 0 <= IZR r <= 2 * IZR q).
  { split; [apply IZR_le; lia |].
    rewrite <- mult_IZR. apply IZR_le. lia. }
  exists (sqrt (IZR m')).
  split; [exact Hq |]. split; [| split].
  - destruct (Z.eqb_spec r 0) as [R0 | R0]; cbn [inbetween].
    + rewrite Rm', R0, Rplus_0_r. apply sqrt_square, Rq.
    + assert (0 < IZR r) by (apply IZR_lt; lia).
      destruct (Z.leb_spec r q) as [L | L]; cbn [inbetween].
      * apply IZR_le in L.
        split; [apply sqrt_above; nra | apply sqrt_below; nra].
      * assert (L' : IZR q + 1 <= IZR r)
          by (rewrite <- plus_IZR; apply IZR_le; lia).
        split; [apply sqrt_above; nra | apply sqrt_below; nra].
  - pose proof (bpow_pos e') as Hpe.
    rewrite <- (sqrt_square (bpow e')) at 1 by lra.
    rewrite <- sqrt_mult; [| apply IZR_le; lia | nra].
    f_equal. unfold F2R. rewrite Hm', mult_IZR, <- bpow_IZR by lia.
    assert (Hb : bpow e = bpow s * (bpow e' * bpow e')).
    { rewrite <- !bpow_add. f_equal. lia. }
    rewrite Hb. ring.
  - (* the root has enough digits *)
    destruct (Zdigits2_bounds (Zpos m) ltac:(lia)) as (Hd & Hlo & _).
    fold d in Hd, Hlo.
    set (t := ((d + e + 1) / 2 - e')%Z).
    assert (Hdig : (t <= Zdigits2 q)%Z).
    { destruct (Z_le_gt_dec t 0) as [T | T].
      - pose proof (Zdigits2_nonneg q). lia.
      - assert (Hsqr : (2 ^ (t - 1) * 2 ^ (t - 1) <= m')%Z).
        { rewrite Hm', <- Z.pow_add_r by lia.
          apply Z.le_trans with (2 ^ (d - 1) * 2 ^ s)%Z.
          - rewrite <- Z.pow_add_r by lia.
            apply Z.pow_le_mono_r; [lia |]. unfold t. lia.
          - apply Z.mul_le_mono_nonneg_r; lia. }
        assert (Hp : (0 < 2 ^ (t - 1))%Z) by (apply Z.pow_pos_nonneg; lia).
        assert (Hqlo : (2 ^ (t - 1) <= q)%Z) by nia.
        apply Zdigits2_lower_bound; [lia | exact Hqlo | lia]. }
    rewrite fexp_eq. unfold t in Hdig. lia.
Qed.

Lemma SFsqrt_rounded (a : f32) :
  good a -> finite_nonneg a ->
  rounded (sqrt (Vf a)) (SFsqrt prec emax a).
Proof.
  intros Ga Fa.
  destruct a as [[|] | [|] | | [|] ma ea]; cbn in Fa; try contradiction.
  - cbn. rewrite sqrt_0. apply rounded_zero.
  - cbn [SFsqrt Vf].
    destruct (SFsqrt_core_spec ma ea) as (x & Hx).
    destruct (SFsqrt_core_binary prec emax (Zpos ma) ea) as [[q e'] l].
    destruct Hx as (Hq & Hin & Hv & He).
    rewrite <- Hv. apply binary_round_aux_rounded; assumption.
Qed.

(** A rounding below [2^127] does not overflow. *)
Lemma rounded_finite v f : rounded v f -> v < bpow 127 -> finite_nonneg f.
Proof.
  intros (E & k & HE & Hk & ->) Hv.
  destruct (cexp_of_mantissa v E k HE Hk) as [Hb Hn].
  assert (HE104 : (E < 104)%Z).
  { destruct HE as [[-> _] | [G H]]; [lia |].
    assert (Hlt : bpow (E + 23) < bpow 127) by lra.
    apply bpow_lt_inv in Hlt. lia. }
  unfold pack.
  destruct (Z.eqb_spec k 0); [exact I |].
  destruct (Z.ltb_spec k 16777216).
  - destruct (Z.leb_spec E 104); [exact I | lia].
  - destruct (Z.leb_spec (E + 1) 104); [exact I | lia].
Qed.

Lemma Vf_upper a : good a -> finite_nonneg a -> Vf a < bpow 128.
Proof.
  intros [V _] Fa.
  destruct a as [[|] | [|] | | [|] m e]; cbn in Fa; try contradiction;
    cbn [Vf]; [apply bpow_pos |].
  destruct (valid_mantissa_upper m e V) as [Hm He].
  pose proof (F2R_upper (Zpos m) e ltac:(lia)) as Hu.
  pose proof (bpow_le (e + 24) 128 ltac:(lia)).
  assert (F2R (Zpos m) e < bpow (e + 24)).
  { unfold F2R. replace (e + 24)%Z with (24 + e)%Z by lia.
    rewrite bpow_add, (bpow_IZR 24) by lia.
    change (2 ^ 24)%Z with 16777216%Z.
    apply IZR_lt in Hm. pose proof (bpow_pos e). nra. }
  lra.
Qed.

Lemma SFsqrt_finite a :
  good a -> finite_nonneg a -> finite_nonneg (SFsqrt prec emax a).
Proof.
  intros Ga Fa.
  apply (rounded_finite (sqrt (Vf a))); [apply SFsqrt_rounded; assumption |].
  pose proof (Vf_upper a Ga Fa) as Hu. pose proof (Vf_nonneg a Fa) as H0.
  pose proof (bpow_pos 127) as Hp.
  apply sqrt_below; [lra | exact H0 |].
  rewrite <- bpow_add. change (127 + 127)%Z with 254%Z.
  pose proof (bpow_le 128 254 ltac:(lia)). lra.
Qed.

(** The model of [powf] meets what [powf_monotone] asks. *)
Lemma powf32_at_1_5 x :
  powf32 x (literal 1.5) = SFmul prec emax x (SFsqrt prec emax x).
Proof.
  unfold powf32.
  assert (E : SFeqb (literal 1.5) (literal 1.5) = true)
    by (vm_compute; reflexivity).
  rewrite E. reflexivity.
Qed.

Lemma powf32_good x : good x -> good (powf32 x (literal 1.5)).
Proof.
  intros Gx. rewrite powf32_at_1_5.
  destruct (good_cases x Gx) as [Fx | ->]; [| apply good_inf].
  apply (rounded_good (Vf x * Vf (SFsqrt prec emax x))).
  apply SFmul_rounded; try assumption.
  - exact (rounded_good _ _ (SFsqrt_rounded x Gx Fx)).
  - apply SFsqrt_finite; assumption.
Qed.

Lemma powf32_monotone : powf_monotone powf32.
Proof.
  intros x1 x2 G1 G2 Hle.
  split; [apply powf32_good, G1 |]. split; [apply powf32_good, G2 |].
  destruct (good_cases x2 G2) as [F2 | I2].
  - pose proof (fle_finite x1 x2 G1 F2 Hle) as F1.
    rewrite !powf32_at_1_5.
    pose proof (SFsqrt_rounded x1 G1 F1) as R1.
    pose proof (SFsqrt_rounded x2 G2 F2) as R2.
    pose proof (rounded_good _ _ R1) as Gs1.
    pose proof (rounded_good _ _ R2) as Gs2.
    pose proof (SFsqrt_finite x1 G1 F1) as Fs1.
    pose proof (SFsqrt_finite x2 G2 F2) as Fs2.
    pose proof (fle_values x1 x2 G1 G2 F2 Hle) as Vx.
    assert (Hs : fle (SFsqrt prec emax x1) (SFsqrt prec emax x2)).
    { apply (rounded_mono (sqrt (Vf x1)) (sqrt (Vf x2))); try assumption.
      apply sqrt_le_1_alt, Vx. }
    pose proof (fle_values _ _ Gs1 Gs2 Fs2 Hs) as Vs.
    apply (rounded_mono (Vf x1 * Vf (SFsqrt prec emax x1))
                        (Vf x2 * Vf (SFsqrt prec emax x2))).
    + pose proof (Vf_nonneg x1 F1). pose proof (Vf_nonneg _ Fs1). nra.
    + apply SFmul_rounded; assumption.
    + apply SFmul_rounded; assumption.
  - subst x2. rewrite (powf32_at_1_5 (S754_infinity false)).
    change (SFmul prec emax (S754_infinity false)
              (SFsqrt prec emax (S754_infinity false)))
      with (S754_infinity false).
    apply fle_inf_r, powf32_good, G1.
Qed.

Lemma curve_nondecreasing_witness :
  powf_monotone powf32 /\
  valid edge_rate /\ valid next_rate /\
  value_ge edge_rate 0.05 /\ SFleb edge_rate next_rate = true /\
  SFleb (rateToVelocityCurve edge_rate) (rateToVelocityCurve next_rate)
    = true.
Proof.
  assert (V1 : valid edge_rate) by (vm_compute; reflexivity).
  assert (V2 : valid next_rate) by (vm_compute; reflexivity).
  assert (Hge : value_ge edge_rate 0.05) by (vm_compute; discriminate).
  assert (Hle : SFleb edge_rate next_rate = true)
    by (vm_compute; reflexivity).
  split; [exact powf32_monotone |].
  split; [exact V1 |]. split; [exact V2 |].
  split; [exact Hge |]. split; [exact Hle |].
  exact (proj1 (curve_nondecreasing powf32 edge_rate next_rate
                  powf32_monotone V1 V2 Hge Hle)).
Defined.

End RoundingFacts.

(** ** The curve in exact arithmetic *)
Module ExactFacts.
Import Exact.
Local Open Scope R_scope.

Lemma lit_20 : Q2R 20 = 20.
Proof. unfold Q2R. cbn. lra. Qed.

Lemma lit_40 : Q2R 40 = 40.
Proof. unfold Q2R. cbn. lra. Qed.

Lemma ltb_false (a b : R) : b <= a -> ltb a b = false.
Proof.
  intros Hba. unfold ltb. destruct (Rlt_dec a b); [lra | reflexivity].
Qed.

Lemma pow_increasing (a b c : R) :
  0 < c -> 0 <= a < b -> pow a c < pow b c.
Proof.
  intros Hc [Ha Hab]. unfold pow.
  destruct (Rlt_dec 0 a) as [Hpos | Hzero];
    destruct (Rlt_dec 0 b) as [Hb | Hb]; try lra.
  - apply Rlt_Rpower_l; lra.
  - unfold Rpower. apply exp_pos.
Qed.

Lemma curve_above_dead_zone (r : R) :
  0.05 <= r ->
  rateToVelocityCurve r
  = 0.1 + (r - 0.05) / 20 + pow (r - 0.05) 1.5 / 40.
Proof.
  intros Hr. unfold rateToVelocityCurve.
  cbn [fabsf fltb flit fsub fadd fdiv powf arith].
  rewrite lit_20, lit_40.
  rewrite Rabs_right by (unfold Q2R in *; cbn in *; lra).
  rewrite ltb_false by lra. reflexivity.
Qed.

(** Read in exact real arithmetic, the curve is strictly increasing on
    rates [0.05 <= r1 < r2], where it is [0.1 + x/20 + x^1.5/40] with
    [x = r - 0.05]: the ties of the binary32 curve come from rounding. *)
Lemma curve_strictly_increasing (r1 r2 : R) :
  0.05 <= r1 < r2 ->
  rateToVelocityCurve r1 < rateToVelocityCurve r2 /\
  rateToVelocityCurve r1
    = 0.1 + (r1 - 0.05) / 20 + pow (r1 - 0.05) 1.5 / 40 /\
  rateToVelocityCurve r2
    = 0.1 + (r2 - 0.05) / 20 + pow (r2 - 0.05) 1.5 / 40.
Proof.
  intros [H1 H12].
  rewrite !curve_above_dead_zone by lra.
  assert (Hp : pow (r1 - 0.05) 1.5 < pow (r2 - 0.05) 1.5)
    by (apply pow_increasing; unfold Q2R in *; cbn in *; lra).
  split; [lra | split; reflexivity].
Qed.

End ExactFacts.

(** ** The report routine *)
Module ReportFacts.

Arguments int8 : simpl never.
Arguments uint8 : simpl never.
Arguments uint16 : simpl never.
Arguments TIMER_DIFF_16 : simpl never.
Arguments WHEEL_DENOM : simpl never.

Ltac open_state s :=
  destruct s as [lm lr [dx dy] [rx ry] [gx gy] [wx wy] cs].

Section Report.
Context {F rate_meter_t glider_t : Type}.
Context {RM : RateMeter F rate_meter_t} {GL : Glider F glider_t}.
Abbreviation st := (state F rate_meter_t glider_t).

Lemma mode_of_button_differs (m : mode) (b : bool) :
  m <> mode_of_button b -> m = mode_of_button (negb b).
Proof. destruct m, b; cbn; congruence. Qed.

(** One WHEEL step leaves a remainder below the denominator, whatever
    was accumulated. *)
Lemma wheel_step_small (w : Z) :
  Z.abs (int8 (int8 w - int8 (Z.quot (int8 w) WHEEL_DENOM) * WHEEL_DENOM))
  < WHEEL_DENOM.
Proof.
  rewrite (remainder_kept (int8 w) (int8_range w)).
  apply remainder_small.
Qed.

(** With nothing accumulated, a small remainder yields no tick and is
    kept. *)
Lemma idle_wheel_step (w : Z) :
  Z.abs w < WHEEL_DENOM ->
  int8 (Z.quot (int8 (w + 0)) WHEEL_DENOM) = 0 /\
  int8 (int8 (w + 0)
        - int8 (Z.quot (int8 (w + 0)) WHEEL_DENOM) * WHEEL_DENOM) = w.
Proof.
  unfold WHEEL_DENOM. intros Hw.
  assert (Hc : w = -1 \/ w = 0 \/ w = 1) by lia.
  destruct Hc as [-> | [-> | ->]]; split; reflexivity.
Qed.

Lemma tick_range (w : Z) :
  -64 <= int8 (Z.quot (int8 w) WHEEL_DENOM) <= 63.
Proof.
  rewrite (tick_fits (int8 w) (int8_range w)).
  apply quot_denom_range, int8_range.
Qed.

(** C1: on a tick whose mode differs from the previous tick's, both
    rate meters are expired, both gliders stopped, [wheel_buffer] and
    [distances] zeroed, and the report of that tick has
    [x = y = h = v = 0]; the glider is taken to meet its contract
    (sampling a stopped glider yields no motion). *)
Theorem mode_switch_reset (stopped : glider_t -> Prop)
  (HC : GliderContract stopped)
  (s : st) (now : Z) (b : bool) (r : report_mouse_t) :
  last_mode s <> mode_of_button b ->
  exists out s',
    pointing_device_driver_get_report now b r s = Some (out, s') /\
    (x out = 0 /\ y out = 0 /\ h out = 0 /\ v out = 0) /\
    rate_meters s' = (rate_meter_expire (fst (rate_meters s)),
                      rate_meter_expire (snd (rate_meters s))) /\
    (exists sampled,
       calls s' = calls s ++
         [Call_rate_meter_expire AXIS_X; Call_rate_meter_expire AXIS_Y;
          Call_glider_stop AXIS_X; Call_glider_stop AXIS_Y] ++ sampled) /\
    (stopped (fst (gliders s')) /\ stopped (snd (gliders s'))) /\
    wheel_buffer s' = (0, 0) /\
    distances s' = (0, 0) /\
    last_mode s' = mode_of_button b.
Proof.
  intros Hsw. apply mode_of_button_differs in Hsw.
  open_state s. cbn in Hsw. subst lm.
  destruct b; cbn.
  - eexists. eexists. split; [reflexivity |]. cbn.
    rewrite !int8_0.
    repeat split; try reflexivity; try apply stop_stopped.
    exists []. rewrite <- !app_assoc. reflexivity.
  - destruct (glide_stopped (glider_stop gx)
                (uint8 (TIMER_DIFF_16 now lr)) (stop_stopped gx))
      as [Ex Sx].
    destruct (glide_stopped (glider_stop gy)
                (uint8 (TIMER_DIFF_16 now lr)) (stop_stopped gy))
      as [Ey Sy].
    eexists. eexists. split; [reflexivity |]. cbn.
    rewrite Ex, Ey, !int8_0.
    repeat split; try reflexivity; try assumption.
    eexists. rewrite <- !app_assoc. cbn. reflexivity.
Qed.

(** Whatever the state, a report is produced; a WHEEL tick leaves
    bounded remainders, a MOUSE tick keeps the bound. *)
Lemma report_keeps_wheel_bounded (s : st) (now : Z) (b : bool)
  (r : report_mouse_t) :
  exists out s',
    pointing_device_driver_get_report now b r s = Some (out, s') /\
    (b = true \/ wheel_bounded s -> wheel_bounded s').
Proof.
  open_state s. unfold wheel_bounded.
  destruct b, lm; cbn; do 2 eexists; (split; [reflexivity |]); cbn.
  - intros _. split; apply wheel_step_small.
  - intros _. split; reflexivity.
  - intros _. split; reflexivity.
  - intros [Hb | Hw]; [discriminate Hb | exact Hw].
Qed.

(** C7: of two consecutive ticks in the same mode with no pulse in
    between, the second reports [h = v = 0] and leaves [wheel_buffer]
    as it was in WHEEL mode, and reports [x = y = 0] in MOUSE mode
    when the gliders are stopped (the glider meeting its contract). *)
Theorem no_motion_idempotent (stopped : glider_t -> Prop)
  (HC : GliderContract stopped)
  (s0 : st) (now1 now2 : Z) (b : bool) (r1 r2 : report_mouse_t) :
  exists out1 s1 out2 s2,
    pointing_device_driver_get_report now1 b r1 s0 = Some (out1, s1) /\
    pointing_device_driver_get_report now2 b r2 s1 = Some (out2, s2) /\
    last_mode s1 = mode_of_button b /\
    distances s1 = (0, 0) /\
    (b = true ->
       h out2 = 0 /\ v out2 = 0 /\ wheel_buffer s2 = wheel_buffer s1) /\
    (b = false ->
       stopped (fst (gliders s1)) -> stopped (snd (gliders s1)) ->
       x out2 = 0 /\ y out2 = 0 /\
       stopped (fst (gliders s2)) /\ stopped (snd (gliders s2))).
Proof.
  open_state s0.
  destruct b.
  - assert (Hfirst : exists out1 lr1 rm1 gl1 w1x w1y cs1,
      pointing_device_driver_get_report now1 true r1
        (Build_state lm lr (dx, dy) (rx, ry) (gx, gy) (wx, wy) cs)
      = Some (out1, Build_state MODE_WHEEL lr1 (0, 0) rm1 gl1
                      (w1x, w1y) cs1)
      /\ Z.abs w1x < WHEEL_DENOM /\ Z.abs w1y < WHEEL_DENOM).
    { destruct lm; cbn; do 7 eexists; (split; [reflexivity |]).
      - split; apply wheel_step_small.
      - cbn. split; reflexivity. }
    destruct Hfirst
      as (out1 & lr1 & rm1 & gl1 & w1x & w1y & cs1 & E1 & Bx & By).
    destruct (idle_wheel_step w1x Bx) as [Hx0 Hxk].
    destruct (idle_wheel_step w1y By) as [Hy0 Hyk].
    exists out1. eexists. eexists. eexists.
    split; [exact E1 |].
    split; [cbn; reflexivity |].
    cbn. rewrite Hxk, Hyk, Hx0, Hy0.
    repeat split; try reflexivity; discriminate.
  - assert (Hfirst : exists out1 lr1 dist1 rm1 g1x g1y w1 cs1,
      pointing_device_driver_get_report now1 false r1
        (Build_state lm lr (dx, dy) (rx, ry) (gx, gy) (wx, wy) cs)
      = Some (out1, Build_state MODE_MOUSE lr1 dist1 rm1 (g1x, g1y)
                      w1 cs1)
      /\ dist1 = (0, 0)).
    { destruct lm; cbn; do 8 eexists; split; reflexivity. }
    destruct Hfirst
      as (out1 & lr1 & dist1 & rm1 & g1x & g1y & w1 & cs1 & E1 & ->).
    exists out1. eexists. eexists. eexists.
    split; [exact E1 |].
    split; [cbn; reflexivity |].
    cbn.
    split; [reflexivity |]. split; [reflexivity |].
    split; [discriminate |]. intros _ Sx Sy.
    destruct (glide_stopped _ (uint8 (TIMER_DIFF_16 now2 lr1)) Sx)
      as [Ex Sx'].
    destruct (glide_stopped _ (uint8 (TIMER_DIFF_16 now2 lr1)) Sy)
      as [Ey Sy'].
    rewrite Ex, Ey, int8_0. repeat split; assumption.
Qed.

(** C8, amended: on a MOUSE tick each glider is sampled once, with the
    low 8 bits of the elapsed time, the elapsed time being the 16-bit
    wraparound difference of the timer; the argument is the elapsed
    time itself when that is below 256.  The returned deltas, as
    [int8_t], are the report's [x] and [y]. *)
Theorem mouse_tick_samples_gliders (s : st) (now : Z)
  (r : report_mouse_t) :
  let delta := TIMER_DIFF_16 now (last_report s) in
  let sx := glider_glide (glider_before_sampling s AXIS_X) (uint8 delta) in
  let sy := glider_glide (glider_before_sampling s AXIS_Y) (uint8 delta) in
  exists out s' earlier,
    pointing_device_driver_get_report now false r s = Some (out, s') /\
    delta = (now - last_report s) mod 65536 /\
    (forall t0 t1, 0 <= t1 - t0 < 65536 ->
       TIMER_DIFF_16 (uint16 t1) (uint16 t0) = t1 - t0) /\
    calls s' = calls s ++ earlier ++
                 [Call_glider_glide AXIS_X (uint8 delta);
                  Call_glider_glide AXIS_Y (uint8 delta)] /\
    existsb is_glide_call earlier = false /\
    uint8 delta = delta mod 256 /\
    (delta < 256 -> uint8 delta = delta) /\
    gliders s' = (fst sx, fst sy) /\
    x out = int8 (snd sx) /\ y out = int8 (snd sy) /\
    (in_int8 (snd sx) -> x out = snd sx) /\
    (in_int8 (snd sy) -> y out = snd sy).
Proof.
  open_state s. unfold glider_before_sampling.
  assert (Hd : 0 <= TIMER_DIFF_16 now lr < 65536)
    by (unfold TIMER_DIFF_16, uint16; apply Z.mod_pos_bound; lia).
  destruct lm; cbn;
    [exists (Build_report_mouse_t (buttons r)
               (int8 (snd (glider_glide (glider_stop gx)
                             (uint8 (TIMER_DIFF_16 now lr)))))
               (int8 (snd (glider_glide (glider_stop gy)
                             (uint8 (TIMER_DIFF_16 now lr)))))
               (int8 0) 0);
     eexists;
     exists [Call_rate_meter_expire AXIS_X; Call_rate_meter_expire AXIS_Y;
             Call_glider_stop AXIS_X; Call_glider_stop AXIS_Y]
    |exists (Build_report_mouse_t (buttons r)
               (int8 (snd (glider_glide gx
                             (uint8 (TIMER_DIFF_16 now lr)))))
               (int8 (snd (glider_glide gy
                             (uint8 (TIMER_DIFF_16 now lr)))))
               (int8 0) 0);
     eexists;
     exists [Call_rate_meter_tick AXIS_X (TIMER_DIFF_16 now lr);
             Call_rate_meter_tick AXIS_Y (TIMER_DIFF_16 now lr)]];
    (split; [rewrite <- !app_assoc; cbn; reflexivity |]); cbn;
    (split; [reflexivity |]);
    (split; [exact TIMER_DIFF_16_wraparound |]);
    (split; [reflexivity |]);
    (split; [reflexivity |]);
    (split; [reflexivity |]);
    (split; [intros Hlt; apply uint8_id; lia |]);
    (split; [reflexivity |]);
    (split; [reflexivity |]);
    (split; [reflexivity |]);
    split; intros Hin; apply int8_id; exact Hin.
Qed.

(** C9: the report's [v] is the negation of the local [v] computed in
    the critical section (a local [1] is reported as [-1]); the
    report's [h] is the local [h]. *)
Theorem vertical_scroll_inverted (s : st) (now : Z) (b : bool)
  (r : report_mouse_t) :
  exists lx ly lh lv s',
    report_locals now b s = Some ((lx, ly, lh, lv), s') /\
    pointing_device_driver_get_report now b r s
      = Some (fill_report r (lx, ly, lh, lv), s') /\
    v (fill_report r (lx, ly, lh, lv)) = - lv /\
    h (fill_report r (lx, ly, lh, lv)) = lh /\
    (lv = 1 -> v (fill_report r (lx, ly, lh, lv)) = -1).
Proof.
  open_state s.
  assert (Hneg : forall lx ly lh lv,
            -64 <= lv <= 63 ->
            v (fill_report r (lx, ly, lh, lv)) = - lv /\
            h (fill_report r (lx, ly, lh, lv)) = lh /\
            (lv = 1 -> v (fill_report r (lx, ly, lh, lv)) = -1)).
  { intros lx ly lh lv Hr. cbn. rewrite (negated_tick_fits lv Hr).
    repeat split. intros ->. reflexivity. }
  destruct b, lm; cbn; do 5 eexists;
    (split; [reflexivity |]); (split; [reflexivity |]);
    apply (Hneg 0 0); try apply tick_range; lia.
Qed.

(** C10: on a tick without a mode transition, MOUSE mode reports
    [h = v = 0] and leaves [wheel_buffer] alone; WHEEL mode reports
    [x = y = 0], leaves the gliders alone and does not sample them. *)
Theorem inactive_mode_untouched (s : st) (now : Z) (b : bool)
  (r : report_mouse_t) :
  last_mode s = mode_of_button b ->
  exists out s' new_calls,
    pointing_device_driver_get_report now b r s = Some (out, s') /\
    calls s' = calls s ++ new_calls /\
    (b = false ->
       h out = 0 /\ v out = 0 /\ wheel_buffer s' = wheel_buffer s) /\
    (b = true ->
       x out = 0 /\ y out = 0 /\ gliders s' = gliders s /\
       existsb is_glide_call new_calls = false).
Proof.
  open_state s. cbn. intros ->.
  destruct b; cbn; do 3 eexists;
    (split; [reflexivity |]); cbn;
    (split; [rewrite <- !app_assoc; cbn; reflexivity |]);
    (split; [intros Hb | intros Hb]); try discriminate Hb;
    repeat split; reflexivity.
Qed.

End Report.
End ReportFacts.

(** ** The pulse handlers and runs *)
Module PulseFacts.
Import Binary32 Binary32Facts ReportFacts.

Section Pulse.
Context {rate_meter_t glider_t : Type}.
Context {RM : RateMeter f32 rate_meter_t} {GL : Glider f32 glider_t}.
Variable pw : f32 -> f32 -> f32.
Let FAw : FloatArith f32 := arith_with pw.
Existing Instance FAw.
Abbreviation st := (state f32 rate_meter_t glider_t).

(** A pulse in MOUSE mode goes to the rate meter and the glider of its
    axis, and always completes. *)
Lemma trackball_move_mouse (s : st) (a : axis) (direction : Z) :
  last_mode s = MODE_MOUSE ->
  exists s' tail,
    trackball_move a direction s = Some (tt, s') /\
    calls s' = calls s ++ Call_rate_meter_interrupt a
                 :: Call_glider_set_direction a direction :: tail /\
    wheel_buffer s' = wheel_buffer s /\
    last_mode s' = last_mode s.
Proof.
  open_state s. cbn. intros ->.
  unfold trackball_move.
  destruct a; cbn.
  - destruct (axis_velocities_defined pw
                (rate_meter_rate (rate_meter_interrupt rx))
                (rate_meter_rate ry)) as (vx & vy & E).
    fold FAw in E. rewrite E. cbn.
    do 2 eexists. split; [reflexivity |]. cbn.
    split; [rewrite <- !app_assoc; cbn; reflexivity |].
    split; reflexivity.
  - destruct (axis_velocities_defined pw
                (rate_meter_rate rx)
                (rate_meter_rate (rate_meter_interrupt ry)))
      as (vx & vy & E).
    fold FAw in E. rewrite E. cbn.
    do 2 eexists. split; [reflexivity |]. cbn.
    split; [rewrite <- !app_assoc; cbn; reflexivity |].
    split; reflexivity.
Qed.

(** A pulse in WHEEL mode only adds to [distances]. *)
Lemma trackball_move_wheel (s : st) (a : axis) (direction : Z) :
  last_mode s = MODE_WHEEL ->
  trackball_move a direction s =
    Some (tt, Build_state (last_mode s) (last_report s)
                (set_axis (distances s) a
                   (int8 (at_axis (distances s) a + direction)))
                (rate_meters s) (gliders s) (wheel_buffer s) (calls s)).
Proof.
  open_state s. cbn. intros ->. destruct a; reflexivity.
Qed.

Lemma app_grows {A} (l t : list A) : t <> [] -> l ++ t <> l.
Proof.
  intros Ht E. apply Ht.
  apply (app_inv_head l). rewrite app_nil_r. exact E.
Qed.

(** C6: a pulse in WHEEL mode changes nothing but [distances] of its
    axis, to which the direction is added in [int8_t]; rate meters,
    gliders, [wheel_buffer] and the other axis stay as they were.  A
    pulse calls into the rate meter and the glider exactly when the
    mode is MOUSE. *)
Theorem pulse_frame (s : st) (a : axis) (direction : Z) :
  exists s',
    trackball_move a direction s = Some (tt, s') /\
    (last_mode s = MODE_WHEEL ->
       at_axis (distances s') a
         = int8 (at_axis (distances s) a + direction) /\
       (in_int8 (at_axis (distances s) a + direction) ->
          at_axis (distances s') a
            = at_axis (distances s) a + direction) /\
       at_axis (distances s') (other_axis a)
         = at_axis (distances s) (other_axis a) /\
       rate_meters s' = rate_meters s /\
       gliders s' = gliders s /\
       wheel_buffer s' = wheel_buffer s /\
       last_mode s' = last_mode s /\
       last_report s' = last_report s /\
       calls s' = calls s) /\
    (calls s' <> calls s <-> last_mode s = MODE_MOUSE) /\
    (last_mode s = MODE_MOUSE ->
       exists tail,
         calls s' = calls s ++ Call_rate_meter_interrupt a
                      :: Call_glider_set_direction a direction :: tail).
Proof.
  destruct (last_mode s) eqn:Hm.
  - rewrite (trackball_move_wheel s a direction Hm).
    eexists. split; [reflexivity |]. cbn.
    split; [intros _ | split; [| discriminate]].
    + open_state s. cbn in Hm. subst lm. destruct a; cbn;
        (split; [reflexivity |]);
        (split; [intros Hin; apply int8_id; exact Hin |]);
        repeat split; reflexivity.
    + split; [intros Hne; exfalso; apply Hne; reflexivity | discriminate].
  - destruct (trackball_move_mouse s a direction Hm)
      as (s' & tail & E & Hc & _).
    exists s'. split; [exact E |].
    split; [discriminate |].
    split; [| intros _; exists tail; exact Hc].
    split; [reflexivity |]. intros _. rewrite Hc.
    apply app_grows. discriminate.
Qed.

Lemma trackball_move_keeps_wheel (s : st) (a : axis) (direction : Z) :
  exists s',
    trackball_move a direction s = Some (tt, s') /\
    wheel_buffer s' = wheel_buffer s.
Proof.
  destruct (last_mode s) eqn:Hm.
  - rewrite (trackball_move_wheel s a direction Hm).
    eexists. split; reflexivity.
  - destruct (trackball_move_mouse s a direction Hm)
      as (s' & tail & E & _ & Hw & _).
    exists s'. split; assumption.
Qed.

Lemma step_keeps_wheel_bounded (ev : event) (s : st) :
  wheel_bounded s ->
  exists out s', step ev s = Some (out, s') /\ wheel_bounded s'.
Proof.
  intros Hb. unfold wheel_bounded in *.
  destruct ev as [ | | | | now b r]; cbn [step];
    unfold trackball_left, trackball_right, trackball_up, trackball_down.
  1-4: match goal with
       | |- context [trackball_move ?a ?d] =>
           destruct (trackball_move_keeps_wheel s a d) as (s' & E & Hw)
       end;
       unfold bind; rewrite E; cbn;
       do 2 eexists; (split; [reflexivity |]); rewrite Hw; exact Hb.
  destruct (report_keeps_wheel_bounded s now b r) as (out & s' & E & Hw).
  unfold bind. rewrite E. cbn.
  do 2 eexists. split; [reflexivity |].
  apply Hw. right. exact Hb.
Qed.

Lemma run_keeps_wheel_bounded (evs : list event) (s : st) :
  wheel_bounded s ->
  exists outs s', run evs s = Some (outs, s') /\ wheel_bounded s'.
Proof.
  revert s. induction evs as [| ev rest IH]; intros s Hb.
  - exists [], s. split; [reflexivity | exact Hb].
  - destruct (step_keeps_wheel_bounded ev s Hb) as (out & s1 & E1 & Hb1).
    destruct (IH s1 Hb1) as (outs & s2 & E2 & Hb2).
    exists (out ++ outs), s2. split; [| exact Hb2].
    cbn [run]. unfold bind. rewrite E1. 
    change (match run rest s1 with
            | Some (a, s') => ret (out ++ a) s'
            | None => None
            end = Some (out ++ outs, s2)).
    rewrite E2. reflexivity.
Qed.

(** C2: after any sequence of pulses and report requests from
    start-up, hence after each report, [|wheel_buffer[axis]| < 2] on
    both axes; and a WHEEL tick establishes the bound from any
    state. *)
Theorem wheel_remainder_bound (evs : list event) :
  (exists outs s,
     run evs initial_state = Some (outs, s) /\
     Z.abs (at_axis (wheel_buffer s) AXIS_X) < 2 /\
     Z.abs (at_axis (wheel_buffer s) AXIS_Y) < 2) /\
  (forall (s : st) (now : Z) (r : report_mouse_t),
     exists out s',
       pointing_device_driver_get_report now true r s = Some (out, s') /\
       Z.abs (at_axis (wheel_buffer s') AXIS_X) < 2 /\
       Z.abs (at_axis (wheel_buffer s') AXIS_Y) < 2) /\
  WHEEL_DENOM = 2.
Proof.
  split; [| split; [| reflexivity]].
  - assert (H0 : wheel_bounded (initial_state : st))
      by (unfold wheel_bounded; cbn; unfold WHEEL_DENOM; lia).
    destruct (run_keeps_wheel_bounded evs initial_state H0)
      as (outs & s & E & Hb).
    exists outs, s. split; [exact E | exact Hb].
  - intros s now r.
    destruct (report_keeps_wheel_bounded s now true r)
      as (out & s' & E & Hw).
    exists out, s'. split; [exact E |].
    apply Hw. left. reflexivity.
Qed.

End Pulse.
End PulseFacts.

(** ** The statements on the stand-in collaborators *)
Module SampleFacts.
Import Binary32 Binary32Facts ReportFacts PulseFacts Sample.

(** The stand-in glider meets the contract. *)
Lemma sample_glider_contract : GliderContract stopped.
Proof.
  split.
  - intros g. reflexivity.
  - intros g d Hs. unfold stopped in *. cbn [glider_glide glider fst snd].
    rewrite Hs. split; reflexivity.
Qed.

Lemma mode_switch_reset_witness :
  last_mode scrolling_state <> mode_of_button false /\
  distances scrolling_state = (5, 1) /\
  wheel_buffer scrolling_state = (1, 1) /\
  exists out s',
    pointing_device_driver_get_report 30 false blank_report scrolling_state
      = Some (out, s') /\
    (x out = 0 /\ y out = 0 /\ h out = 0 /\ v out = 0) /\
    wheel_buffer s' = (0, 0) /\ distances s' = (0, 0).
Proof.
  assert (Hsw : last_mode scrolling_state <> mode_of_button false)
    by (vm_compute; discriminate).
  split; [exact Hsw |].
  split; [reflexivity |]. split; [reflexivity |].
  destruct (mode_switch_reset stopped sample_glider_contract
              scrolling_state 30 false blank_report Hsw)
    as (out & s' & E & Hz & _ & _ & _ & Hw & Hd & _).
  exists out, s'. repeat split; try apply Hz; assumption.
Defined.

Lemma ratio_zero_guard_witness :
  is_zero (combined_rate (S754_zero false) (S754_zero true)) /\
  velocity_ratio (combined_rate (S754_zero false) (S754_zero true))
    = Some (S754_zero false).
Proof.
  assert (Hz : is_zero (combined_rate (S754_zero false) (S754_zero true)))
    by exact I.
  split; [exact Hz |].
  exact (proj1 (ratio_zero_guard powf32 _ _ Hz)).
Defined.

Lemma pulse_frame_witness :
  last_mode scrolling_state = MODE_WHEEL /\
  exists s',
    trackball_right scrolling_state = Some (tt, s') /\
    at_axis (distances s') AXIS_X = 6 /\
    at_axis (distances s') AXIS_Y = 1 /\
    calls s' = calls scrolling_state.
Proof.
  assert (Hm : last_mode scrolling_state = MODE_WHEEL) by reflexivity.
  split; [exact Hm |].
  destruct (pulse_frame powf32 scrolling_state AXIS_X TB_INCR)
    as (s' & E & Hw & _).
  destruct (Hw Hm) as (Hd & _ & Ho & _ & _ & _ & _ & _ & Hc).
  exists s'. split; [exact E |].
  split; [rewrite Hd; reflexivity |].
  split; [exact Ho | exact Hc].
Defined.

Lemma no_motion_idempotent_witness :
  exists out1 s1 out2 s2,
    pointing_device_driver_get_report 30 true blank_report scrolling_state
      = Some (out1, s1) /\
    pointing_device_driver_get_report 40 true blank_report s1
      = Some (out2, s2) /\
    h out2 = 0 /\ v out2 = 0 /\ wheel_buffer s2 = wheel_buffer s1.
Proof.
  destruct (no_motion_idempotent stopped sample_glider_contract
              scrolling_state 30 40 true blank_report blank_report)
    as (out1 & s1 & out2 & s2 & E1 & E2 & _ & _ & Hw & _).
  exists out1, s1, out2, s2.
  split; [exact E1 |]. split; [exact E2 |].
  exact (Hw eq_refl).
Defined.

Lemma mouse_tick_samples_gliders_witness :
  exists out s',
    pointing_device_driver_get_report 30 false blank_report moving_state
      = Some (out, s') /\
    x out = 1 /\ y out = 1.
Proof.
  destruct (mouse_tick_samples_gliders moving_state 30 blank_report)
    as (out & s' & earlier & E & _ & _ & _ & _ & _ & _ & _ & Hx & Hy & _).
  exists out, s'. split; [exact E |].
  split; [rewrite Hx | rewrite Hy]; reflexivity.
Defined.

Lemma vertical_scroll_inverted_witness :
  exists lx ly lh s',
    report_locals 30 true scrolling_state = Some ((lx, ly, lh, 1), s') /\
    v (fill_report blank_report (lx, ly, lh, 1)) = -1.
Proof.
  destruct (vertical_scroll_inverted scrolling_state 30 true blank_report)
    as (lx & ly & lh & lv & s' & E & _ & _ & _ & H1).
  assert (Hlv : lv = 1).
  { vm_compute in E. injection E as _ _ _ Hlv _. symmetry. exact Hlv. }
  subst lv.
  exists lx, ly, lh, s'. split; [exact E | exact (H1 eq_refl)].
Defined.

Lemma inactive_mode_untouched_witness :
  last_mode scrolling_state = mode_of_button true /\
  exists out s',
    pointing_device_driver_get_report 30 true blank_report scrolling_state
      = Some (out, s') /\
    x out = 0 /\ y out = 0 /\ gliders s' = gliders scrolling_state.
Proof.
  assert (Hm : last_mode scrolling_state = mode_of_button true)
    by reflexivity.
  split; [exact Hm |].
  destruct (inactive_mode_untouched scrolling_state 30 true blank_report Hm)
    as (out & s' & new_calls & E & _ & _ & Hw).
  destruct (Hw eq_refl) as (Hx & Hy & Hg & _).
  exists out, s'. repeat split; assumption.
Defined.

(** The quantization run of the spec: five pulses give two ticks and leave
    a remainder of one; one more pulse completes the next tick. *)
Example wheel_quantization_run :
  exists outs s,
    run [Report_request 1 true blank_report;
         Right_edge; Right_edge; Right_edge; Right_edge; Right_edge;
         Report_request 2 true blank_report;
         Right_edge;
         Report_request 3 true blank_report] (initial_state : Sample.st)
      = Some (outs, s) /\
    map h outs = [0; 2; 1] /\
    wheel_buffer s = (0, 0).
Proof. eexists. eexists. split; [vm_compute; reflexivity |]. split; reflexivity. Qed.

(** C8, as stated, fails: 256 timer ticks after the last report the
    rate meters are given the elapsed time 256, the gliders 0. *)
Lemma glide_not_given_elapsed_time :
  exists out s',
    pointing_device_driver_get_report 256 false blank_report
      (initial_state : Sample.st) = Some (out, s') /\
    TIMER_DIFF_16 256 (last_report (initial_state : Sample.st)) = 256 /\
    calls s' = [Call_rate_meter_tick AXIS_X 256;
                Call_rate_meter_tick AXIS_Y 256;
                Call_glider_glide AXIS_X 0;
                Call_glider_glide AXIS_Y 0] /\
    ~ In (Call_glider_glide AXIS_X 256) (calls s').
Proof.
  eexists. eexists. split; [vm_compute; reflexivity |].
  split; [reflexivity |]. split; [reflexivity |].
  cbn. intros [H | [H | [H | [H | []]]]]; discriminate H.
Qed.

End SampleFacts.

(** ** Pulses between reports *)
Module CountFacts.
Import Binary32 Binary32Facts ReportFacts PulseFacts.

(** Conversions to [int8_t] compose: only the sum modulo 256 counts. *)
Lemma int8_add_l (a b : Z) : int8 (int8 a + b) = int8 (a + b).
Proof.
  unfold int8.
  replace ((a + 128) mod 256 - 128 + b + 128)
    with ((a + 128) mod 256 + b) by lia.
  rewrite Zplus_mod_idemp_l. f_equal. f_equal. lia.
Qed.

Lemma int8_add_r (a b : Z) : int8 (a + int8 b) = int8 (a + b).
Proof. rewrite Z.add_comm, int8_add_l. f_equal. lia. Qed.

Lemma int8_int8 (a : Z) : int8 (int8 a) = int8 a.
Proof. apply int8_id, int8_range. Qed.

Section Count.
Context {rate_meter_t glider_t : Type}.
Context {RM : RateMeter f32 rate_meter_t} {GL : Glider f32 glider_t}.
Variable pw : f32 -> f32 -> f32.
Let FAw : FloatArith f32 := arith_with pw.
Existing Instance FAw.
Abbreviation st := (state f32 rate_meter_t glider_t).

(** In either mode a pulse completes and, of the integer statics,
    changes the count of its axis only. *)
Lemma trackball_move_statics (s : st) (a : axis) (direction : Z) :
  exists s',
    trackball_move a direction s = Some (tt, s') /\
    distances s' = set_axis (distances s) a
                     (int8 (at_axis (distances s) a + direction)) /\
    wheel_buffer s' = wheel_buffer s /\
    last_mode s' = last_mode s /\
    last_report s' = last_report s.
Proof.
  destruct (last_mode s) eqn:Hm.
  - rewrite (trackball_move_wheel pw s a direction Hm).
    eexists. split; [reflexivity |]. cbn. rewrite Hm.
    repeat split; reflexivity.
  - open_state s. cbn in Hm. subst lm.
    unfold trackball_move.
    destruct a; cbn.
    + destruct (axis_velocities_defined pw
                  (rate_meter_rate (rate_meter_interrupt rx))
                  (rate_meter_rate ry)) as (vx & vy & E).
      fold FAw in E. rewrite E. cbn.
      eexists. split; [reflexivity |]. cbn. repeat split; reflexivity.
    + destruct (axis_velocities_defined pw
                  (rate_meter_rate rx)
                  (rate_meter_rate (rate_meter_interrupt ry)))
        as (vx & vy & E).
      fold FAw in E. rewrite E. cbn.
      eexists. split; [reflexivity |]. cbn. repeat split; reflexivity.
Qed.

(** The step of a pulse event, by its axis and direction. *)
Lemma step_pulse (ev : event) (a : axis) (d : Z) (s : st) :
  pulse_of ev = Some (a, d) ->
  exists s',
    step ev s = Some ([], s') /\
    distances s' = set_axis (distances s) a
                     (int8 (at_axis (distances s) a + d)) /\
    wheel_buffer s' = wheel_buffer s /\
    last_mode s' = last_mode s /\
    last_report s' = last_report s.
Proof.
  intros Hp.
  destruct (trackball_move_statics s a d) as (s' & E & H).
  exists s'. split; [| exact H].
  destruct ev; cbn in Hp; inversion Hp; subst a d; cbn [step];
    unfold trackball_left, trackball_right, trackball_up, trackball_down,
      bind; rewrite E; reflexivity.
Qed.

Lemma run_cons (ev : event) (rest : list event) (s s1 s2 : st)
  (out outs : list report_mouse_t) :
  step ev s = Some (out, s1) ->
  run rest s1 = Some (outs, s2) ->
  run (ev :: rest) s = Some (out ++ outs, s2).
Proof.
  intros E1 E2. cbn [run]. unfold bind. rewrite E1.
  change (match run rest s1 with
          | Some (a, s') => ret (out ++ a) s'
          | None => None
          end = Some (out ++ outs, s2)).
  rewrite E2. reflexivity.
Qed.

Lemma run_app (evs1 evs2 : list event) (s s1 s2 : st)
  (outs1 outs2 : list report_mouse_t) :
  run evs1 s = Some (outs1, s1) ->
  run evs2 s1 = Some (outs2, s2) ->
  run (evs1 ++ evs2) s = Some (outs1 ++ outs2, s2).
Proof.
  revert s outs1. induction evs1 as [| ev rest IH]; intros s outs1 E1 E2.
  - cbn in E1. inversion E1; subst. exact E2.
  - cbn [run] in E1. unfold bind in E1.
    destruct (step ev s) as [[out sa] |] eqn:Es; [| discriminate].
    change (match run rest sa with
            | Some (a, s') => ret (out ++ a) s'
            | None => None
            end = Some (outs1, s1)) in E1.
    destruct (run rest sa) as [[outs sb] |] eqn:Er; [| discriminate].
    cbn in E1. inversion E1; subst.
    rewrite <- app_comm_cons, <- app_assoc.
    apply (run_cons ev (rest ++ evs2) s sa s2 out (outs ++ outs2) Es).
    apply (IH sa outs Er E2).
Qed.

Lemma displacement_other (ev : event) (a : axis) (d : Z) :
  pulse_of ev = Some (a, d) ->
  displacement a ev = d /\ displacement (other_axis a) ev = 0.
Proof.
  unfold displacement. intros ->. destruct a; split; reflexivity.
Qed.

(** A run of pulses adds its net count to each axis, in [int8_t]. *)
Lemma run_pulses (evs : list event) (s : st) :
  forallb is_pulse evs = true ->
  in_int8 (at_axis (distances s) AXIS_X) ->
  in_int8 (at_axis (distances s) AXIS_Y) ->
  exists s',
    run evs s = Some ([], s') /\
    (forall a, at_axis (distances s') a
               = int8 (at_axis (distances s) a + net_pulses a evs)) /\
    wheel_buffer s' = wheel_buffer s /\
    last_mode s' = last_mode s /\
    last_report s' = last_report s.
Proof.
  revert s. induction evs as [| ev rest IH]; intros s Hp Hx Hy.
  - exists s. split; [reflexivity |].
    split; [| repeat split; reflexivity].
    intros a. cbn [net_pulses]. rewrite Z.add_0_r.
    symmetry. apply int8_id. destruct a; assumption.
  - cbn [forallb] in Hp. apply andb_true_iff in Hp.
    destruct Hp as [Hev Hrest].
    unfold is_pulse in Hev.
    destruct (pulse_of ev) as [[a d] |] eqn:Hpe; [| discriminate].
    destruct (step_pulse ev a d s Hpe)
      as (s1 & E1 & Hd1 & Hw1 & Hm1 & Hr1).
    assert (Hx1 : in_int8 (at_axis (distances s1) AXIS_X)).
    { rewrite Hd1. destruct a; cbn; [apply int8_range | exact Hx]. }
    assert (Hy1 : in_int8 (at_axis (distances s1) AXIS_Y)).
    { rewrite Hd1. destruct a; cbn; [exact Hy | apply int8_range]. }
    destruct (IH s1 Hrest Hx1 Hy1) as (s2 & E2 & Hd2 & Hw2 & Hm2 & Hr2).
    exists s2.
    split; [exact (run_cons ev rest s s1 s2 [] [] E1 E2) |].
    split; [| repeat split; congruence].
    intros a0. rewrite Hd2, Hd1. cbn [net_pulses].
    destruct (displacement_other ev a d Hpe) as [Da Do].
    destruct a, a0; cbn [at_axis set_axis fst snd other_axis] in *.
    + rewrite int8_add_l, Da. f_equal. lia.
    + rewrite Do. f_equal.
    + rewrite Do. f_equal.
    + rewrite int8_add_l, Da. f_equal. lia.
Qed.

(** X1: a run of pulses without a report completes in either mode and
    reports nothing; each count of [distances] ends as its start plus
    the net number of pulses on its axis, reduced to [int8_t] (the
    plain sum when that fits); [wheel_buffer], [last_mode] and
    [last_report] are as before. *)
Theorem pulses_accumulate (evs : list event) (s : st) :
  forallb is_pulse evs = true ->
  in_int8 (at_axis (distances s) AXIS_X) ->
  in_int8 (at_axis (distances s) AXIS_Y) ->
  exists s',
    run evs s = Some ([], s') /\
    (forall a, at_axis (distances s') a
               = int8 (at_axis (distances s) a + net_pulses a evs)) /\
    (forall a, in_int8 (at_axis (distances s) a + net_pulses a evs) ->
               at_axis (distances s') a
               = at_axis (distances s) a + net_pulses a evs) /\
    wheel_buffer s' = wheel_buffer s /\
    last_mode s' = last_mode s /\
    last_report s' = last_report s.
Proof.
  intros Hp Hx Hy.
  destruct (run_pulses evs s Hp Hx Hy) as (s' & E & Hd & Hrest).
  exists s'. split; [exact E |]. split; [exact Hd |].
  split; [| exact Hrest].
  intros a Hin. rewrite Hd. apply int8_id. exact Hin.
Qed.

End Count.
End CountFacts.

(** ** Reports, generically in the arithmetic *)
Module TickFacts.
Import ReportFacts CountFacts.

Section Tick.
Context {F rate_meter_t glider_t : Type}.
Context {RM : RateMeter F rate_meter_t} {GL : Glider F glider_t}.
Abbreviation st := (state F rate_meter_t glider_t).

(** X2: from any state and in either mode a report is produced; it
    carries the buttons of the report passed in, [x] and [y] within
    [int8_t], [h] within [-64, 63] and [v] within [-63, 64] (the
    negation cannot overflow); afterwards both counts of [distances]
    are 0, [last_report] is the time read and [last_mode] the mode of
    the tick. *)
Theorem report_postcondition (s : st) (now : Z) (b : bool)
  (r : report_mouse_t) :
  exists out s',
    pointing_device_driver_get_report now b r s = Some (out, s') /\
    buttons out = buttons r /\
    in_int8 (x out) /\ in_int8 (y out) /\
    -64 <= h out <= 63 /\ -63 <= v out <= 64 /\
    distances s' = (0, 0) /\
    last_report s' = now /\
    last_mode s' = mode_of_button b.
Proof.
  open_state s.
  destruct b, lm; cbn; do 2 eexists; (split; [reflexivity |]); cbn;
    repeat match goal with
      | |- _ /\ _ => split
      | |- in_int8 (int8 _) => apply int8_range
      | |- in_int8 0 => unfold in_int8; lia
      | |- _ = _ => reflexivity
      end;
    try (rewrite ?int8_0; lia);
    match goal with
    | |- context [int8 (Z.quot (int8 ?w) WHEEL_DENOM)] =>
        pose proof (tick_range w);
        rewrite ?(negated_tick_fits _ (tick_range w)); lia
    end.
Qed.

(** A report of either mode leaves the other mode's fields at zero,
    with or without a mode transition. *)
Lemma report_silent (s : st) (now : Z) (b : bool) (r : report_mouse_t) :
  exists out s',
    pointing_device_driver_get_report now b r s = Some (out, s') /\
    silent_part b out.
Proof.
  open_state s.
  destruct b, lm; cbn; do 2 eexists; (split; [reflexivity |]); cbn;
    rewrite ?int8_0; split; reflexivity.
Qed.

(** A WHEEL tick without a mode transition, in full. *)
Lemma wheel_report_exact (s : st) (now : Z) (r : report_mouse_t) :
  last_mode s = MODE_WHEEL ->
  exists out s',
    pointing_device_driver_get_report now true r s = Some (out, s') /\
    x out = 0 /\ y out = 0 /\
    (forall a,
       wheel_tick out a
       = Z.quot (int8 (at_axis (wheel_buffer s) a
                       + at_axis (distances s) a)) WHEEL_DENOM /\
       at_axis (wheel_buffer s') a
       = Z.rem (int8 (at_axis (wheel_buffer s) a
                      + at_axis (distances s) a)) WHEEL_DENOM) /\
    distances s' = (0, 0) /\
    last_mode s' = MODE_WHEEL /\
    last_report s' = now.
Proof.
  open_state s. cbn. intros ->. cbn.
  do 2 eexists. split; [reflexivity |]. cbn.
  split; [reflexivity |]. split; [reflexivity |].
  split; [| repeat split; reflexivity].
  intros [|]; cbn.
  - rewrite (remainder_kept _ (int8_range (wx + dx))).
    rewrite (tick_fits _ (int8_range (wx + dx))).
    split; reflexivity.
  - rewrite negated_tick_fits by apply tick_range.
    rewrite Z.opp_involutive.
    rewrite (remainder_kept _ (int8_range (wy + dy))).
    rewrite (tick_fits _ (int8_range (wy + dy))).
    split; reflexivity.
Qed.

(** X3: a MOUSE tick does not read [distances]: whatever the counts,
    the report and the state after it are the same. *)
Theorem mouse_report_ignores_distances (s : st) (d : per_axis Z)
  (now : Z) (r : report_mouse_t) :
  pointing_device_driver_get_report now false r (with_distances s d)
  = pointing_device_driver_get_report now false r s.
Proof.
  open_state s. unfold with_distances.
  destruct lm; cbn; reflexivity.
Qed.


End Tick.
End TickFacts.

(** ** Pulses and reports together *)
Module ScrollFacts.
Import Binary32 Binary32Facts ReportFacts PulseFacts CountFacts TickFacts.

Lemma pulse_direction (ev : event) (a : axis) (d : Z) :
  pulse_of ev = Some (a, d) -> d = 1 \/ d = -1.
Proof.
  destruct ev; cbn; intros E; inversion E; unfold TB_INCR, TB_DECR; auto.
Qed.

Lemma net_pulses_repeat (ev : event) (a : axis) (n : nat) :
  net_pulses a (repeat ev n) = displacement a ev * Z.of_nat n.
Proof.
  induction n as [| n IH]; [cbn; lia |].
  cbn [repeat net_pulses]. rewrite IH. lia.
Qed.

Lemma pulses_repeat (ev : event) (n : nat) :
  is_pulse ev = true -> forallb is_pulse (repeat ev n) = true.
Proof.
  intros He. induction n as [| n IH]; [reflexivity |].
  cbn [repeat forallb]. rewrite He, IH. reflexivity.
Qed.

Lemma set_axis_same {T} (p : per_axis T) (a : axis) :
  set_axis p a (at_axis p a) = p.
Proof. destruct p, a; reflexivity. Qed.

Lemma set_axis_twice {T} (p : per_axis T) (a : axis) (t u : T) :
  set_axis (set_axis p a t) a u = set_axis p a u.
Proof. destruct p, a; reflexivity. Qed.

Lemma at_set_axis {T} (p : per_axis T) (a : axis) (t : T) :
  at_axis (set_axis p a t) a = t.
Proof. destruct p, a; reflexivity. Qed.

Section Scroll.
Context {rate_meter_t glider_t : Type}.
Context {RM : RateMeter f32 rate_meter_t} {GL : Glider f32 glider_t}.
Variable pw : f32 -> f32 -> f32.
Let FAw : FloatArith f32 := arith_with pw.
Existing Instance FAw.
Abbreviation st := (state f32 rate_meter_t glider_t).

Lemma step_report (now : Z) (b : bool) (r out : report_mouse_t)
  (s s' : st) :
  pointing_device_driver_get_report now b r s = Some (out, s') ->
  run [Report_request now b r] s = Some ([out], s').
Proof.
  intros E. cbn [run step]. unfold bind. rewrite E. reflexivity.
Qed.

(** Pulses followed by a WHEEL report: the ticks and the remainder. *)
Lemma pulses_report_ticks (evs : list event) (s : st) (now : Z)
  (r : report_mouse_t) :
  forallb is_pulse evs = true ->
  last_mode s = MODE_WHEEL ->
  in_int8 (at_axis (distances s) AXIS_X) ->
  in_int8 (at_axis (distances s) AXIS_Y) ->
  exists out s',
    run (evs ++ [Report_request now true r]) s = Some ([out], s') /\
    x out = 0 /\ y out = 0 /\
    (forall a,
       let pending := at_axis (wheel_buffer s) a
                      + at_axis (distances s) a + net_pulses a evs in
       wheel_tick out a = Z.quot (int8 pending) WHEEL_DENOM /\
       at_axis (wheel_buffer s') a = Z.rem (int8 pending) WHEEL_DENOM) /\
    distances s' = (0, 0).
Proof.
  intros Hp Hm Hx Hy.
  destruct (run_pulses pw evs s Hp Hx Hy)
    as (s1 & E1 & Hd1 & Hw1 & Hm1 & _).
  rewrite Hm in Hm1.
  destruct (wheel_report_exact s1 now r Hm1)
    as (out & s2 & E2 & Ex & Ey & Ht & Hd2 & _).
  exists out, s2.
  split.
  { exact (run_app pw evs [Report_request now true r] s s1 s2 [] [out]
             E1 (step_report now true r out s1 s2 E2)). }
  split; [exact Ex |]. split; [exact Ey |]. split; [| exact Hd2].
  intros a pending.
  destruct (Ht a) as [Hq Hr].
  rewrite Hw1, Hd1, int8_add_r, Z.add_assoc in Hq, Hr.
  split; assumption.
Qed.

(** X5: pulses followed by a WHEEL report (no mode transition).  With
    [pending] the buffer plus the count plus the net pulses of an axis,
    the report scrolls [(int8_t)pending / 2], the quotient truncated
    toward zero, and the buffer keeps the remainder; [x = y = 0] and
    the counts are cleared.  When [pending] fits [int8_t], ticks and
    remainder add up to it, [2 * tick + remainder = pending], and the
    remainder has its sign. *)
Theorem pulses_then_wheel_report (evs : list event) (s : st) (now : Z)
  (r : report_mouse_t) :
  forallb is_pulse evs = true ->
  last_mode s = MODE_WHEEL ->
  in_int8 (at_axis (distances s) AXIS_X) ->
  in_int8 (at_axis (distances s) AXIS_Y) ->
  exists out s',
    run (evs ++ [Report_request now true r]) s = Some ([out], s') /\
    x out = 0 /\ y out = 0 /\
    (forall a,
       let pending := at_axis (wheel_buffer s) a
                      + at_axis (distances s) a + net_pulses a evs in
       wheel_tick out a = Z.quot (int8 pending) WHEEL_DENOM /\
       at_axis (wheel_buffer s') a = Z.rem (int8 pending) WHEEL_DENOM /\
       (in_int8 pending ->
          wheel_tick out a = Z.quot pending WHEEL_DENOM /\
          WHEEL_DENOM * wheel_tick out a + at_axis (wheel_buffer s') a
          = pending /\
          0 <= at_axis (wheel_buffer s') a * pending)) /\
    distances s' = (0, 0).
Proof.
  intros Hp Hm Hx Hy.
  destruct (pulses_report_ticks evs s now r Hp Hm Hx Hy)
    as (out & s' & E & Ex & Ey & Ht & Hd).
  exists out, s'.
  split; [exact E |]. split; [exact Ex |]. split; [exact Ey |].
  split; [| exact Hd].
  intros a pending.
  destruct (Ht a) as [Hq Hr]. fold pending in Hq, Hr.
  split; [exact Hq |]. split; [exact Hr |].
  intros Hin. rewrite Hq, Hr, (int8_id pending Hin).
  split; [reflexivity |].
  split.
  - pose proof (Z.quot_rem' pending WHEEL_DENOM). lia.
  - apply Z.rem_sign_mul. unfold WHEEL_DENOM. lia.
Qed.

(** X6: the count of pulses wraps at [int8_t].  In WHEEL mode, from
    rest, [n] pulses of one line between two reports with
    [129 <= n <= 255] are reported as [(n - 256) / 2] ticks of that
    line's direction: a scroll the other way (none for [n = 255]). *)
Theorem pulse_overflow_reverses (ev : event) (a : axis) (d : Z)
  (n : nat) (s : st) (now : Z) (r : report_mouse_t) :
  pulse_of ev = Some (a, d) ->
  last_mode s = MODE_WHEEL ->
  distances s = (0, 0) -> wheel_buffer s = (0, 0) ->
  (129 <= n <= 255)%nat ->
  exists out s',
    run (repeat ev n ++ [Report_request now true r]) s
      = Some ([out], s') /\
    wheel_tick out a = Z.quot (d * (Z.of_nat n - 256)) WHEEL_DENOM /\
    d * wheel_tick out a <= 0 /\
    ((n <= 254)%nat -> d * wheel_tick out a < 0).
Proof.
  intros Hpe Hm Hd Hw Hn.
  assert (Hev : is_pulse ev = true) by (unfold is_pulse; rewrite Hpe; reflexivity).
  assert (Hx : in_int8 (at_axis (distances s) AXIS_X))
    by (rewrite Hd; unfold in_int8; cbn; lia).
  assert (Hy : in_int8 (at_axis (distances s) AXIS_Y))
    by (rewrite Hd; unfold in_int8; cbn; lia).
  destruct (pulses_report_ticks (repeat ev n) s now r
              (pulses_repeat ev n Hev) Hm Hx Hy)
    as (out & s' & E & _ & _ & Ht & _).
  exists out, s'. split; [exact E |].
  destruct (Ht a) as [Hq _]. cbn zeta in Hq.
  rewrite net_pulses_repeat in Hq.
  destruct (displacement_other ev a d Hpe) as [Da _].
  rewrite Da, Hd, Hw in Hq.
  replace (at_axis (0, 0) a + at_axis (0, 0) a + d * Z.of_nat n)
    with (d * Z.of_nat n) in Hq by (destruct a; cbn; lia).
  assert (Hi : int8 (d * Z.of_nat n) = d * (Z.of_nat n - 256)).
  { unfold int8.
    destruct (pulse_direction ev a d Hpe) as [-> | ->].
    - replace (1 * Z.of_nat n + 128)
        with ((Z.of_nat n - 128) + 1 * 256) by lia.
      rewrite Z_mod_plus_full, Z.mod_small; lia.
    - replace (-1 * Z.of_nat n + 128)
        with ((384 - Z.of_nat n) + (-1) * 256) by lia.
      rewrite Z_mod_plus_full, Z.mod_small; lia. }
  rewrite Hi in Hq. rewrite Hq.
  split; [reflexivity |].
  unfold WHEEL_DENOM.
  pose proof (Z.quot_rem' (d * (Z.of_nat n - 256)) 2) as Hqr.
  assert (Hr : Z.abs (Z.rem (d * (Z.of_nat n - 256)) 2) < Z.abs 2)
    by (apply Z.rem_bound_abs; lia).
  destruct (pulse_direction ev a d Hpe) as [-> | ->]; split; intros; lia.
Qed.

(** X7: a pulse and then the opposite pulse on the same axis (left and
    right, up and down, in either order) leave [distances] and
    [wheel_buffer] as they were, at the bounds of [int8_t] too; in
    WHEEL mode the whole state is as before. *)
Theorem opposite_pulses_cancel (ev1 ev2 : event) (a : axis) (d : Z)
  (s : st) :
  pulse_of ev1 = Some (a, d) -> pulse_of ev2 = Some (a, - d) ->
  in_int8 (at_axis (distances s) a) ->
  exists s',
    run [ev1; ev2] s = Some ([], s') /\
    distances s' = distances s /\
    wheel_buffer s' = wheel_buffer s /\
    (last_mode s = MODE_WHEEL -> s' = s).
Proof.
  intros H1 H2 Hin.
  destruct (step_pulse pw ev1 a d s H1) as (s1 & E1 & Hd1 & Hw1 & Hm1 & _).
  destruct (step_pulse pw ev2 a (- d) s1 H2) as (s2 & E2 & Hd2 & Hw2 & _).
  assert (Hback : distances s2 = distances s).
  { rewrite Hd2, Hd1, at_set_axis, set_axis_twice, int8_add_l.
    replace (at_axis (distances s) a + d + - d)
      with (at_axis (distances s) a) by lia.
    rewrite (int8_id _ Hin). apply set_axis_same. }
  exists s2.
  split.
  { apply (run_cons pw ev1 [ev2] s s1 s2 [] [] E1).
    apply (run_cons pw ev2 [] s1 s2 s2 [] [] E2). reflexivity. }
  split; [exact Hback |]. split; [congruence |].
  intros Hm.
  assert (Hm1' : last_mode s1 = MODE_WHEEL) by congruence.
  assert (S1 : step ev1 s = Some ([],
            with_distances s (set_axis (distances s) a
               (int8 (at_axis (distances s) a + d))))).
  { destruct ev1; cbn in H1; inversion H1; subst a d; cbn [step];
      unfold trackball_left, trackball_right, trackball_up,
        trackball_down, bind;
      rewrite (trackball_move_wheel pw s _ _ Hm); reflexivity. }
  injection (eq_trans (eq_sym E1) S1) as S1'.
  assert (S2 : step ev2 s1 = Some ([],
            with_distances s1 (set_axis (distances s1) a
               (int8 (at_axis (distances s1) a + - d))))).
  { destruct ev2; cbn in H2; inversion H2 as [[Ha Hdd]];
      cbn [step];
      unfold trackball_left, trackball_right, trackball_up,
        trackball_down, bind;
      rewrite (trackball_move_wheel pw s1 _ _ Hm1'); rewrite Ha, Hdd;
      reflexivity. }
  injection (eq_trans (eq_sym E2) S2) as S2'.
  rewrite S2'. rewrite <- Hd2, Hback. rewrite S1'.
  destruct s; reflexivity.
Qed.

Lemma total_app (l1 l2 : list Z) : total (l1 ++ l2) = total l1 + total l2.
Proof.
  induction l1 as [| z l1 IH]; [reflexivity |].
  cbn [app total fold_right]. fold (total (l1 ++ l2)). fold (total l1).
  rewrite IH. lia.
Qed.

(** The invariant of a WHEEL run: what was scrolled, what is kept in the
    buffer and what is still pending add up to the pulses received. *)
Lemma wheel_run_balance (evs : list event) (c : Z) (s : st) :
  last_mode s = MODE_WHEEL ->
  wheel_bounded s ->
  0 <= c <= 126 ->
  (forall a, Z.abs (at_axis (distances s) a) <= c) ->
  select_held evs = true ->
  pending_within 126 c evs = true ->
  exists outs s',
    run evs s = Some (outs, s') /\
    (forall a,
       WHEEL_DENOM * total (map (fun out => wheel_tick out a) outs)
       + at_axis (wheel_buffer s') a + at_axis (distances s') a
       = at_axis (wheel_buffer s) a + at_axis (distances s) a
         + net_pulses a evs) /\
    Forall (fun out => x out = 0 /\ y out = 0) outs /\
    last_mode s' = MODE_WHEEL /\
    wheel_bounded s'.
Proof.
  revert c s. induction evs as [| ev rest IH]; intros c s Hm Hb Hc Hd Hs Hp.
  - exists [], s. split; [reflexivity |].
    split; [intros a; cbn; lia |].
    split; [constructor |]. split; assumption.
  - cbn [select_held forallb] in Hs. apply andb_true_iff in Hs.
    destruct Hs as [Hs1 Hs2]. fold (select_held rest) in Hs2.
    destruct (pulse_of ev) as [[a d] |] eqn:Hpe.
    + assert (Hp' : (c + 1 <=? 126) && pending_within 126 (c + 1) rest
                    = true)
        by (destruct ev; cbn in Hpe; try discriminate; exact Hp).
      apply andb_true_iff in Hp'. destruct Hp' as [Hc1 Hp1].
      apply Z.leb_le in Hc1.
      destruct (step_pulse pw ev a d s Hpe)
        as (s1 & E1 & Hd1 & Hw1 & Hm1 & _).
      destruct (pulse_direction ev a d Hpe) as [Hdir | Hdir].
      all: assert (Hfit : int8 (at_axis (distances s) a + d)
                          = at_axis (distances s) a + d)
        by (apply int8_id; pose proof (Hd a); unfold in_int8; lia).
      all: rewrite Hfit in Hd1.
      all: assert (Hd1' : forall a0, Z.abs (at_axis (distances s1) a0)
                                     <= c + 1)
        by (intros a0; rewrite Hd1; pose proof (Hd AXIS_X);
            pose proof (Hd AXIS_Y);
            destruct (distances s) as [u w], a, a0; cbn in *; lia).
      all: assert (Hb1 : wheel_bounded s1)
        by (unfold wheel_bounded in *; rewrite Hw1; exact Hb).
      all: destruct (IH (c + 1) s1 ltac:(congruence) Hb1 ltac:(lia)
                       Hd1' Hs2 Hp1)
        as (outs & s2 & E2 & Hbal & Hxy & Hm2 & Hb2).
      all: exists outs, s2.
      all: split; [exact (run_cons pw ev rest s s1 s2 [] outs E1 E2) |].
      all: split; [| split; [exact Hxy | split; assumption]].
      all: intros a0; rewrite (Hbal a0), Hw1, Hd1; cbn [net_pulses];
        destruct (displacement_other ev a d Hpe) as [Da Do];
        destruct (distances s) as [u w], a, a0;
        cbn [at_axis set_axis fst snd other_axis] in *;
        rewrite ?Da, ?Do; lia.
    + destruct ev as [ | | | | now b r]; cbn in Hpe; try discriminate.
      cbn in Hs1. subst b. cbn [pending_within] in Hp.
      destruct (wheel_report_exact s now r Hm)
        as (out & s1 & E1 & Ex & Ey & Ht & Hd1 & Hm1 & _).
      assert (Hin : forall a, in_int8 (at_axis (wheel_buffer s) a
                                        + at_axis (distances s) a)).
      { intros a. pose proof (Hd a). unfold wheel_bounded, WHEEL_DENOM in Hb.
        unfold in_int8. destruct a; cbn in *; lia. }
      assert (Hb1 : wheel_bounded s1).
      { unfold wheel_bounded.
        destruct (Ht AXIS_X) as [_ ->]. destruct (Ht AXIS_Y) as [_ ->].
        split; apply remainder_small. }
      assert (Hd1' : forall a, Z.abs (at_axis (distances s1) a) <= 0)
        by (intros a; rewrite Hd1; destruct a; cbn; lia).
      destruct (IH 0 s1 Hm1 Hb1 ltac:(lia) Hd1' Hs2 Hp)
        as (outs & s2 & E2 & Hbal & Hxy & Hm2 & Hb2).
      exists (out :: outs), s2.
      split.
      { exact (run_cons pw (Report_request now true r) rest s s1 s2
                 [out] outs
                 ltac:(cbn [step]; unfold bind; rewrite E1; reflexivity)
                 E2). }
      split; [| split; [constructor; [split |]; assumption
                       | split; assumption]].
      intros a. cbn [map total fold_right].
      fold (total (map (fun out0 => wheel_tick out0 a) outs)).
      pose proof (Hbal a) as Ha. rewrite Hd1 in Ha.
      destruct (Ht a) as [Hq Hr].
      rewrite (int8_id _ (Hin a)) in Hq, Hr.
      pose proof (Z.quot_rem' (at_axis (wheel_buffer s) a
                               + at_axis (distances s) a) WHEEL_DENOM) as Hqr.
      cbn [net_pulses]. unfold displacement. cbn [pulse_of].
      replace (at_axis (0, 0) a) with 0 in Ha by (destruct a; reflexivity).
      rewrite Hr in Ha. rewrite Hq. lia.
Qed.

(** X8: a run in WHEEL mode loses no pulse.  Started with nothing
    pending and every report requested with the select button held, if
    no more than 126 pulses ever wait for a report, then on each axis
    twice the ticks reported, plus the remainder in the buffer, plus
    the pulses still pending equal the remainder at the start plus the
    net pulses received; every report has [x = y = 0]. *)
Theorem wheel_run_conserves (evs : list event) (s : st) :
  last_mode s = MODE_WHEEL ->
  distances s = (0, 0) ->
  wheel_bounded s ->
  select_held evs = true ->
  pending_within 126 0 evs = true ->
  exists outs s',
    run evs s = Some (outs, s') /\
    (forall a,
       WHEEL_DENOM * total (map (fun out => wheel_tick out a) outs)
       + at_axis (wheel_buffer s') a + at_axis (distances s') a
       = at_axis (wheel_buffer s) a + net_pulses a evs) /\
    Forall (fun out => x out = 0 /\ y out = 0) outs /\
    wheel_bounded s'.
Proof.
  intros Hm Hd Hb Hs Hp.
  assert (Hd0 : forall a, Z.abs (at_axis (distances s) a) <= 0)
    by (intros a; rewrite Hd; destruct a; cbn; lia).
  destruct (wheel_run_balance evs 0 s Hm Hb ltac:(lia) Hd0 Hs Hp)
    as (outs & s' & E & Hbal & Hxy & _ & Hb').
  exists outs, s'. split; [exact E |].
  split; [| split; assumption].
  intros a. rewrite (Hbal a), Hd. destruct a; cbn; lia.
Qed.

(** X9: a pulse in MOUSE mode, in full.  The rate meter of the axis is
    interrupted; the two rates are read after that; the glider of the
    axis gets the direction and then velocity and jerk
    ([sqrtf] of the meter's delta), the other glider the velocity
    only; the calls are made in the order of the source. *)
Theorem mouse_pulse_effect (s : st) (a : axis) (direction : Z) :
  last_mode s = MODE_MOUSE ->
  let meters := set_axis (rate_meters s) a
                  (rate_meter_interrupt (at_axis (rate_meters s) a)) in
  let rate_x := rate_meter_rate (at_axis meters AXIS_X) in
  let rate_y := rate_meter_rate (at_axis meters AXIS_Y) in
  let jerk := SFsqrt prec emax (rate_meter_delta (at_axis meters a)) in
  exists vx vy s',
    axis_velocities rate_x rate_y = Some (vx, vy) /\
    trackball_move a direction s = Some (tt, s') /\
    rate_meters s' = meters /\
    at_axis (gliders s') a
      = glider_update
          (glider_set_direction (at_axis (gliders s) a) direction)
          (at_axis (vx, vy) a) jerk /\
    at_axis (gliders s') (other_axis a)
      = glider_update_speed (at_axis (gliders s) (other_axis a))
          (at_axis (vx, vy) (other_axis a)) /\
    calls s' = calls s ++
      [Call_rate_meter_interrupt a;
       Call_glider_set_direction a direction;
       Call_rate_meter_rate AXIS_X; Call_rate_meter_rate AXIS_Y] ++
      match a with
      | AXIS_X => [Call_rate_meter_delta AXIS_X;
                   Call_glider_update AXIS_X vx jerk;
                   Call_glider_update_speed AXIS_Y vy]
      | AXIS_Y => [Call_glider_update_speed AXIS_X vx;
                   Call_rate_meter_delta AXIS_Y;
                   Call_glider_update AXIS_Y vy jerk]
      end.
Proof.
  open_state s. cbn. intros ->.
  unfold trackball_move.
  destruct a; cbn.
  - destruct (axis_velocities_defined pw
                (rate_meter_rate (rate_meter_interrupt rx))
                (rate_meter_rate ry)) as (vx & vy & E).
    fold FAw in E. rewrite E. cbn.
    exists vx, vy. eexists. split; [exact E |].
    split; [reflexivity |]. cbn.
    repeat split; try reflexivity.
    rewrite <- !app_assoc. reflexivity.
  - destruct (axis_velocities_defined pw
                (rate_meter_rate rx)
                (rate_meter_rate (rate_meter_interrupt ry)))
      as (vx & vy & E).
    fold FAw in E. rewrite E. cbn.
    exists vx, vy. eexists. split; [exact E |].
    split; [reflexivity |]. cbn.
    repeat split; try reflexivity.
    rewrite <- !app_assoc. reflexivity.
Qed.

(** X17: every run completes, from any state, with one report per
    request; a report requested with the select button held has
    [x = y = 0], one requested with it released has [h = v = 0]. *)
Theorem reports_exclusive (evs : list event) (s : st) :
  exists outs s',
    run evs s = Some (outs, s') /\
    Forall2 silent_part (requests evs) outs.
Proof.
  revert s. induction evs as [| ev rest IH]; intros s.
  - exists [], s. split; [reflexivity | constructor].
  - destruct (pulse_of ev) as [[a d] |] eqn:Hpe.
    + destruct (step_pulse pw ev a d s Hpe) as (s1 & E1 & _).
      destruct (IH s1) as (outs & s2 & E2 & Hall).
      exists outs, s2.
      split; [exact (run_cons pw ev rest s s1 s2 [] outs E1 E2) |].
      destruct ev; cbn in Hpe; try discriminate; exact Hall.
    + destruct ev as [ | | | | now b r]; cbn in Hpe; try discriminate.
      destruct (report_silent s now b r) as (out & s1 & E1 & Hs).
      destruct (IH s1) as (outs & s2 & E2 & Hall).
      exists (out :: outs), s2.
      split.
      * exact (run_cons pw (Report_request now b r) rest s s1 s2
                 [out] outs
                 ltac:(cbn [step]; unfold bind; rewrite E1; reflexivity)
                 E2).
      * cbn [requests]. constructor; assumption.
Qed.

End Scroll.
End ScrollFacts.

(** ** The curve on all of binary32 *)
Module CurveFacts.
Import Binary32 Binary32Facts Rounding RoundingFacts.

(** The two branches of the source, on the magnitude of the input. *)
Lemma curve_cases (pw : f32 -> f32 -> f32) (r : f32) :
  rateToVelocityCurve (FA := arith_with pw) r
  = if SFltb (SFabs r) (literal 0.05) then S754_zero false
    else formula_above_dead_zone pw (SFabs r).
Proof.
  unfold rateToVelocityCurve, formula_above_dead_zone.
  cbn [fabsf fltb flit fsub powf fdiv fadd arith_with].
  rewrite literal_0. reflexivity.
Qed.

Lemma good_abs (r : f32) : valid r -> r <> S754_nan -> good (SFabs r).
Proof.
  intros V N.
  destruct r as [s | s | | s m e]; cbn; split; cbn; auto; congruence.
Qed.

Lemma fle_zero_l (a : f32) : good a -> fle (S754_zero false) a.
Proof.
  intros [_ N]. destruct a as [[|] | [|] | | [|] m e]; cbn in N;
    try contradiction; reflexivity.
Qed.

Lemma SFadd_zero_r (a : f32) :
  good a -> SFadd prec emax a (S754_zero false) = a.
Proof.
  intros [_ N]. destruct a as [[|] | [|] | | [|] m e]; cbn in N;
    try contradiction; reflexivity.
Qed.

(** The order of the non-negative floats is total. *)
Lemma fle_total (a c : f32) :
  good a -> good c -> SFltb a c = false -> fle c a.
Proof.
  intros [_ Na] [_ Nc] H.
  destruct a as [[|] | [|] | | [|] ma ea]; cbn in Na; try contradiction;
    destruct c as [[|] | [|] | | [|] mc ec]; cbn in Nc; try contradiction;
    try reflexivity; try discriminate H.
  apply SFleb_finite.
  assert (Hn : ~ (ea < ec \/ ea = ec /\ Zpos ma < Zpos mc))
    by (intros Hlt; apply SFltb_finite in Hlt; congruence).
  lia.
Qed.

Lemma fle_ltb_trans (a b c : f32) :
  good a -> good b -> good c ->
  fle a b -> SFltb b c = true -> SFltb a c = true.
Proof.
  intros [_ Na] [_ Nb] [_ Nc] Hab Hbc.
  destruct a as [[|] | [|] | | [|] ma ea]; cbn in Na; try contradiction;
    destruct b as [[|] | [|] | | [|] mb eb]; cbn in Nb; try contradiction;
    destruct c as [[|] | [|] | | [|] mc ec]; cbn in Nc; try contradiction;
    try reflexivity; try discriminate Hab; try discriminate Hbc.
  apply SFleb_finite in Hab. apply SFltb_finite in Hbc.
  apply SFltb_finite. lia.
Qed.

Lemma good_literal_0_05 : good (literal 0.05).
Proof. rewrite literal_0_05. exact good_edge. Qed.

(** Above the dead zone the terms of the formula are non-negative
    floats, and the sum is at least its constant term. *)
Lemma formula_floor (pw : f32 -> f32 -> f32) (a : f32) :
  powf_monotone pw ->
  good a -> fle (literal 0.05) a ->
  good (formula_above_dead_zone pw a) /\
  fle (literal 0.1) (formula_above_dead_zone pw a).
Proof.
  intros Hpw G L.
  unfold formula_above_dead_zone.
  rewrite literal_0_05, literal_0_1, literal_20, literal_40 in *.
  set (c := S754_finite false 13421773 (-28)) in *.
  assert (Fc : finite_nonneg c) by exact I.
  pose proof (SFsub_good a c G good_edge Fc L) as Gx.
  set (x := SFsub prec emax a c) in *.
  destruct (Hpw x x Gx Gx (fle_refl x Gx)) as (Gp & _ & _).
  set (lin := SFdiv prec emax x (S754_finite false 10485760 (-19))).
  set (acc := SFdiv prec emax (pw x (literal 1.5))
                (S754_finite false 10485760 (-18))).
  assert (Glin : good lin) by (apply SFdiv_good, Gx).
  assert (Gacc : good acc) by (apply SFdiv_good, Gp).
  set (k := S754_finite false 13421773 (-27)) in *.
  assert (Gk : good k) by exact good_0_1.
  assert (Gz : good (S754_zero false)) by (split; [reflexivity | exact I]).
  assert (G1 : good (SFadd prec emax k lin)) by (apply SFadd_good; assumption).
  split; [apply SFadd_good; assumption |].
  apply (fle_trans k (SFadd prec emax k lin)); try assumption.
  - apply SFadd_good; assumption.
  - rewrite <- (SFadd_zero_r k Gk) at 1.
    apply SFadd_mono; try assumption.
    + apply fle_refl, Gk.
    + apply fle_zero_l, Glin.
  - rewrite <- (SFadd_zero_r _ G1) at 1.
    apply SFadd_mono; try assumption.
    + apply fle_refl, G1.
    + apply fle_zero_l, Gacc.
Qed.

(** X10: the curve leaves a gap: for every valid input other than NaN
    the result is [+0] (magnitude below [0.05f]) or at least [0.1f]
    (otherwise), for every [powf] that is non-decreasing. *)
Theorem curve_floor (pw : f32 -> f32 -> f32) (r : f32) :
  powf_monotone pw ->
  valid r -> r <> S754_nan ->
  (SFltb (SFabs r) (literal 0.05) = true /\
   rateToVelocityCurve (FA := arith_with pw) r = S754_zero false) \/
  (SFltb (SFabs r) (literal 0.05) = false /\
   SFleb (literal 0.1) (rateToVelocityCurve (FA := arith_with pw) r)
   = true).
Proof.
  intros Hpw V N. rewrite curve_cases.
  pose proof (good_abs r V N) as G.
  destruct (SFltb (SFabs r) (literal 0.05)) eqn:Hlt.
  - left. split; reflexivity.
  - right. split; [reflexivity |].
    apply formula_floor; try assumption.
    apply fle_total; [exact G | exact good_literal_0_05 | exact Hlt].
Qed.

(** X11: over the whole of binary32 the curve is non-decreasing in the
    magnitude of its input, dead zone and negative inputs included:
    [|r1| <= |r2|] gives [curve(r1) <= curve(r2)], for every [powf]
    that is non-decreasing; inputs of equal magnitude give the same
    result. *)
Theorem curve_monotone_in_magnitude (pw : f32 -> f32 -> f32)
  (r1 r2 : f32) :
  powf_monotone pw ->
  valid r1 -> valid r2 ->
  SFleb (SFabs r1) (SFabs r2) = true ->
  SFleb (rateToVelocityCurve (FA := arith_with pw) r1)
        (rateToVelocityCurve (FA := arith_with pw) r2) = true /\
  (SFabs r1 = SFabs r2 ->
   rateToVelocityCurve (FA := arith_with pw) r1
   = rateToVelocityCurve (FA := arith_with pw) r2).
Proof.
  intros Hpw V1 V2 Hle.
  split; [| intros Heq; rewrite !curve_cases, Heq; reflexivity].
  assert (N1 : r1 <> S754_nan) by (intros ->; discriminate Hle).
  assert (N2 : r2 <> S754_nan)
    by (intros ->; destruct r1; discriminate Hle).
  pose proof (good_abs r1 V1 N1) as G1.
  pose proof (good_abs r2 V2 N2) as G2.
  pose proof good_literal_0_05 as Gc.
  assert (Gz : good (S754_zero false)) by (split; [reflexivity | exact I]).
  rewrite !curve_cases.
  destruct (SFltb (SFabs r2) (literal 0.05)) eqn:H2.
  - rewrite (fle_ltb_trans _ _ _ G1 G2 Gc Hle H2). reflexivity.
  - pose proof (fle_total _ _ G2 Gc H2) as L2.
    destruct (formula_floor pw (SFabs r2) Hpw G2 L2) as [Gf2 _].
    destruct (SFltb (SFabs r1) (literal 0.05)) eqn:H1.
    + apply fle_zero_l, Gf2.
    + pose proof (fle_total _ _ G1 Gc H1) as L1.
      exact (formula_mono pw _ _ Hpw G1 G2 L1 Hle).
Qed.

(** An infinite rate is past the dead zone and gives [+inf]. *)
Lemma curve_at_infinity (pw : f32 -> f32 -> f32) (s : bool) :
  powf_monotone pw ->
  rateToVelocityCurve (FA := arith_with pw) (S754_infinity s)
  = S754_infinity false.
Proof.
  intros Hpw. rewrite curve_cases.
  change (SFabs (S754_infinity s)) with (S754_infinity false).
  rewrite literal_0_05.
  change (SFltb (S754_infinity false) (S754_finite false 13421773 (-28)))
    with false.
  cbv iota. unfold formula_above_dead_zone.
  rewrite literal_0_05, literal_0_1, literal_20, literal_40.
  rewrite (SFsub_inf (S754_finite false 13421773 (-28)) I).
  destruct (Hpw _ _ good_inf good_inf (fle_refl _ good_inf))
    as (Gp & _ & _).
  change (SFdiv prec emax (S754_infinity false)
            (S754_finite false 10485760 (-19)))
    with (S754_infinity false).
  change (SFadd prec emax (S754_finite false 13421773 (-27))
            (S754_infinity false))
    with (S754_infinity false).
  apply SFadd_inf; [exact good_inf | apply SFdiv_good, Gp | left; reflexivity].
Qed.

(** X12: inputs that are not finite are not caught by the dead zone:
    NaN gives NaN, and an infinity of either sign gives [+inf], for
    every [powf] that is non-decreasing. *)
Theorem curve_not_finite (pw : f32 -> f32 -> f32) :
  powf_monotone pw ->
  rateToVelocityCurve (FA := arith_with pw) S754_nan = S754_nan /\
  forall s,
    rateToVelocityCurve (FA := arith_with pw) (S754_infinity s)
    = S754_infinity false.
Proof.
  intros Hpw. split.
  - rewrite curve_cases. reflexivity.
  - intros s. exact (curve_at_infinity pw s Hpw).
Qed.

End CurveFacts.

(** ** The velocities of a pulse *)
Module VelocityFacts.
Import Binary32 Binary32Facts Rounding RoundingFacts CurveFacts.

(** A rounded result of sign [+] is [+0], positive, [+inf] or NaN. *)
Lemma round_aux_sign (mx ex : Z) (lx : location) :
  match binary_round_aux prec emax false mx ex lx with
  | S754_zero s | S754_infinity s | S754_finite s _ _ => s = false
  | S754_nan => True
  end.
Proof.
  unfold binary_round_aux.
  destruct (shr_fexp prec emax mx ex lx) as [mrs' e'].
  destruct (shr_fexp prec emax _ e' loc_Exact) as [mrs'' e''].
  destruct (shr_m mrs''); [reflexivity | | exact I].
  destruct (e'' <=? emax - prec); reflexivity.
Qed.

(** A square root is never negative. *)
Lemma sqrt_sign (a : f32) :
  match SFsqrt prec emax a with
  | S754_infinity s | S754_finite s _ _ => s = false
  | _ => True
  end.
Proof.
  destruct a as [s | [|] | | [|] m e]; cbn [SFsqrt]; try exact I;
    try reflexivity.
  destruct (SFsqrt_core_binary prec emax (Z.pos m) e) as [[mz ez] lz].
  pose proof (round_aux_sign mz ez lz) as H.
  destruct (binary_round_aux prec emax false mz ez lz); auto.
Qed.

Section Velocity.
Variable pw : f32 -> f32 -> f32.
Let FAw : FloatArith f32 := arith_with pw.
Existing Instance FAw.

(** A finite combined rate comes from two finite rates. *)
Lemma finite_rate_finite (rx ry : f32) :
  finite (combined_rate rx ry) -> finite rx /\ finite ry.
Proof.
  unfold combined_rate. cbn [sqrtf fadd fmul FAw arith_with].
  intros Hz.
  assert (Hx : finite rx \/ ~ finite rx) by (destruct rx; cbn; tauto).
  assert (Hy : finite ry \/ ~ finite ry) by (destruct ry; cbn; tauto).
  destruct Hx as [Hx | Hx]; [destruct Hy as [Hy | Hy]; [tauto |] |];
    exfalso.
  - destruct (square_not_finite ry Hy) as [E | E]; rewrite E in Hz.
    + rewrite add_nan_r in Hz. exact Hz.
    + destruct (add_inf_r (SFmul prec emax rx rx)) as [E' | E'];
        rewrite E' in Hz; exact Hz.
  - destruct (square_not_finite rx Hx) as [E | E]; rewrite E in Hz.
    + exact Hz.
    + destruct (add_inf_l (SFmul prec emax ry ry)) as [E' | E'];
        rewrite E' in Hz; exact Hz.
Qed.

(** X13: the dead zone applies to the combined rate: when
    [sqrtf(rx*rx + ry*ry)] is below [0.05f] the ratio is [+0] and both
    velocities handed to the gliders are zero, whatever [powf] is. *)
Theorem slow_roll_no_velocity (rx ry : f32) :
  SFltb (combined_rate rx ry) (literal 0.05) = true ->
  velocity_ratio (combined_rate rx ry) = Some (S754_zero false) /\
  exists vx vy,
    axis_velocities rx ry = Some (vx, vy) /\ is_zero vx /\ is_zero vy.
Proof.
  intros Hlt.
  assert (Hs := sqrt_sign (SFadd prec emax (SFmul prec emax rx rx)
                             (SFmul prec emax ry ry))).
  change (SFsqrt prec emax (SFadd prec emax (SFmul prec emax rx rx)
                              (SFmul prec emax ry ry)))
    with (combined_rate rx ry) in Hs.
  assert (Hf : finite (combined_rate rx ry)).
  { destruct (combined_rate rx ry) as [s | s | | s m e]; cbn; auto.
    - subst s. rewrite literal_0_05 in Hlt. discriminate Hlt.
    - discriminate Hlt. }
  destruct (finite_rate_finite rx ry Hf) as [Fx Fy].
  assert (Hr : velocity_ratio (combined_rate rx ry)
               = Some (S754_zero false)).
  { rewrite (velocity_ratio_cases pw). rewrite (curve_cases pw).
    destruct (combined_rate rx ry) as [s | s | | s m e];
      try contradiction.
    - reflexivity.
    - subst s. cbn [SFabs]. rewrite Hlt. reflexivity. }
  split; [exact Hr |].
  unfold axis_velocities. rewrite Hr.
  do 2 eexists. split; [reflexivity |].
  split; apply finite_times_zero; assumption.
Qed.


(** Addition in binary32 is commutative. *)
Lemma SFadd_comm (a b : f32) : SFadd prec emax a b = SFadd prec emax b a.
Proof.
  destruct a as [[|] | [|] | | sa ma ea], b as [[|] | [|] | | sb mb eb];
    try reflexivity.
  cbn [SFadd]. rewrite (Z.min_comm eb ea). f_equal. apply Z.add_comm.
Qed.

(** X15: the two axes are treated alike: exchanging the two rates
    leaves the combined rate as it is and exchanges the two
    velocities. *)
Theorem velocities_swap (rx ry : f32) :
  combined_rate ry rx = combined_rate rx ry /\
  axis_velocities ry rx
  = match axis_velocities rx ry with
    | Some (vx, vy) => Some (vy, vx)
    | None => None
    end.
Proof.
  assert (Hc : combined_rate ry rx = combined_rate rx ry).
  { unfold combined_rate. cbn [sqrtf fadd fmul FAw arith_with].
    rewrite SFadd_comm. reflexivity. }
  split; [exact Hc |].
  unfold axis_velocities. rewrite Hc.
  destruct (velocity_ratio (combined_rate rx ry)); reflexivity.
Qed.

End Velocity.
End VelocityFacts.

(** ** The velocities in exact real arithmetic *)
Module ExactVelocityFacts.
Import Exact ExactFacts.
Local Open Scope R_scope.





End ExactVelocityFacts.

(** ** The statements above on concrete inputs *)
Module SampleRunFacts.
Import Binary32 Binary32Facts Rounding RoundingFacts Sample SampleRuns.
Import CountFacts TickFacts ScrollFacts CurveFacts VelocityFacts.

Lemma pulses_accumulate_witness :
  forallb is_pulse [Right_edge; Right_edge; Up_edge] = true /\
  exists s',
    run [Right_edge; Right_edge; Up_edge] (initial_state : Sample.st)
      = Some ([], s') /\
    (forall a, in_int8 (at_axis (distances (initial_state : Sample.st)) a
                        + net_pulses a [Right_edge; Right_edge; Up_edge]) ->
               at_axis (distances s') a
               = at_axis (distances (initial_state : Sample.st)) a
                 + net_pulses a [Right_edge; Right_edge; Up_edge]).
Proof.
  split; [reflexivity |].
  destruct (pulses_accumulate powf32 [Right_edge; Right_edge; Up_edge]
              (initial_state : Sample.st))
    as (s' & E & _ & H & _).
  - reflexivity.
  - unfold in_int8. cbn. lia.
  - unfold in_int8. cbn. lia.
  - exists s'. split; [exact E | exact H].
Defined.

Lemma pulses_then_wheel_report_witness :
  last_mode scrolling_state = MODE_WHEEL /\
  exists out s',
    run ([Right_edge; Down_edge] ++ [Report_request 30 true blank_report])
      scrolling_state = Some ([out], s') /\
    x out = 0 /\ y out = 0 /\ distances s' = (0, 0).
Proof.
  split; [reflexivity |].
  destruct (pulses_then_wheel_report powf32 [Right_edge; Down_edge]
              scrolling_state 30 blank_report)
    as (out & s' & E & Ex & Ey & _ & Hd).
  - reflexivity.
  - reflexivity.
  - unfold in_int8. cbn. lia.
  - unfold in_int8. cbn. lia.
  - exists out, s'. repeat split; assumption.
Defined.

Lemma pulse_overflow_reverses_witness :
  pulse_of Right_edge = Some (AXIS_X, 1) /\
  last_mode wheel_rest = MODE_WHEEL /\
  exists out s',
    run (repeat Right_edge 200 ++ [Report_request 20 true blank_report])
      wheel_rest = Some ([out], s') /\
    1 * wheel_tick out AXIS_X < 0.
Proof.
  split; [reflexivity |]. split; [reflexivity |].
  destruct (pulse_overflow_reverses powf32 Right_edge AXIS_X 1 200
              wheel_rest 20 blank_report)
    as (out & s' & E & _ & _ & H).
  - reflexivity.
  - reflexivity.
  - reflexivity.
  - reflexivity.
  - lia.
  - exists out, s'. split; [exact E |]. apply H. lia.
Defined.

Lemma opposite_pulses_cancel_witness :
  pulse_of Left_edge = Some (AXIS_X, -1) /\
  pulse_of Right_edge = Some (AXIS_X, - -1) /\
  exists s',
    run [Left_edge; Right_edge] scrolling_state = Some ([], s') /\
    s' = scrolling_state.
Proof.
  split; [reflexivity |]. split; [reflexivity |].
  destruct (opposite_pulses_cancel powf32 Left_edge Right_edge AXIS_X (-1)
              scrolling_state)
    as (s' & E & _ & _ & H).
  - reflexivity.
  - reflexivity.
  - unfold in_int8. cbn. lia.
  - exists s'. split; [exact E |]. apply H. reflexivity.
Defined.

Lemma wheel_run_conserves_witness :
  last_mode wheel_rest = MODE_WHEEL /\
  distances wheel_rest = (0, 0) /\
  wheel_bounded wheel_rest /\
  exists outs s',
    run [Right_edge; Right_edge; Right_edge;
         Report_request 20 true blank_report;
         Down_edge;
         Report_request 30 true blank_report] wheel_rest
      = Some (outs, s') /\
    wheel_bounded s'.
Proof.
  assert (Hb : wheel_bounded wheel_rest)
    by (unfold wheel_bounded, WHEEL_DENOM; cbn; lia).
  split; [reflexivity |]. split; [reflexivity |]. split; [exact Hb |].
  destruct (wheel_run_conserves powf32
              [Right_edge; Right_edge; Right_edge;
               Report_request 20 true blank_report;
               Down_edge;
               Report_request 30 true blank_report] wheel_rest)
    as (outs & s' & E & _ & _ & Hb').
  - reflexivity.
  - reflexivity.
  - exact Hb.
  - reflexivity.
  - reflexivity.
  - exists outs, s'. split; assumption.
Defined.

Lemma mouse_pulse_effect_witness :
  last_mode moving_state = MODE_MOUSE /\
  exists s',
    trackball_move AXIS_Y TB_INCR moving_state = Some (tt, s') /\
    rate_meters s'
    = set_axis (rate_meters moving_state) AXIS_Y
        (rate_meter_interrupt (at_axis (rate_meters moving_state) AXIS_Y)).
Proof.
  split; [reflexivity |].
  destruct (mouse_pulse_effect powf32 moving_state AXIS_Y TB_INCR)
    as (vx & vy & s' & _ & E & Hr & _).
  - reflexivity.
  - exists s'. split; [exact E | exact Hr].
Defined.

Lemma curve_floor_witness :
  valid (literal 1) /\ literal 1 <> S754_nan /\
  SFleb (literal 0.1) (rateToVelocityCurve (literal 1)) = true.
Proof.
  assert (V : valid (literal 1)) by (vm_compute; reflexivity).
  assert (N : literal 1 <> S754_nan) by (vm_compute; discriminate).
  split; [exact V |]. split; [exact N |].
  destruct (curve_floor powf32 (literal 1) powf32_monotone V N)
    as [[Hlt _] | [_ H]].
  - vm_compute in Hlt. discriminate Hlt.
  - exact H.
Defined.

Lemma curve_monotone_in_magnitude_witness :
  valid slow_x /\ valid (SFopp (literal 1)) /\
  SFleb (SFabs slow_x) (SFabs (SFopp (literal 1))) = true /\
  SFleb (rateToVelocityCurve slow_x)
        (rateToVelocityCurve (SFopp (literal 1))) = true.
Proof.
  assert (V1 : valid slow_x) by (vm_compute; reflexivity).
  assert (V2 : valid (SFopp (literal 1))) by (vm_compute; reflexivity).
  assert (L : SFleb (SFabs slow_x) (SFabs (SFopp (literal 1))) = true)
    by (vm_compute; reflexivity).
  split; [exact V1 |]. split; [exact V2 |]. split; [exact L |].
  exact (proj1 (curve_monotone_in_magnitude powf32 slow_x
                  (SFopp (literal 1)) powf32_monotone V1 V2 L)).
Defined.

Lemma curve_not_finite_witness :
  powf_monotone powf32 /\
  rateToVelocityCurve S754_nan = S754_nan /\
  rateToVelocityCurve (S754_infinity true) = S754_infinity false.
Proof.
  split; [exact powf32_monotone |].
  destruct (curve_not_finite powf32 powf32_monotone) as [Hn Hi].
  split; [exact Hn | exact (Hi true)].
Defined.

Lemma slow_roll_no_velocity_witness :
  SFltb (combined_rate slow_x slow_y) (literal 0.05) = true /\
  velocity_ratio (combined_rate slow_x slow_y) = Some (S754_zero false).
Proof.
  assert (H : SFltb (combined_rate slow_x slow_y) (literal 0.05) = true)
    by (vm_compute; reflexivity).
  split; [exact H |].
  exact (proj1 (slow_roll_no_velocity powf32 slow_x slow_y H)).
Defined.


End SampleRunFacts.
